(** * A consistency checker for a fixed-layout file system image (task1fh.c)

    The program opens an image, validates the superblock, loads the two
    usage bitmaps, scans the inode table and reconciles what it saw with
    what the bitmaps declare.  This file embeds the C code function by
    function and proves properties of the embedding.

    Conventions of the embedding.
    - The image is opened read-only: its bytes are a fixed [list byte]; the
      stream [fp] is those bytes together with a file position indicator,
      which lives in the program state.
    - [uint8_t], [uint16_t] and [uint32_t] values are integers of [Z] within
      their range, obtained from bytes; the packed structs are overlaid on
      raw bytes by the code, which on the little-endian hosts the image
      format is written for reads every field least significant byte
      first.
    - Loop counters and array indices are [nat]; every loop of the program
      runs over a compile-time range.
    - The global arrays are lists updated in place with stdpp's insert; the
      uninitialised local buffers of the C functions are parameters.
    - Standard output is the list of the lines printed so far; [render]
      gives the text of each line. *)

From Stdlib Require Import ZArith List Lia.
From Stdlib.Strings Require Import Byte.
From stdpp Require Import base list strings pretty.

Open Scope Z_scope.

(** ** Compile-time geometry *)

Definition BLOCK_SIZE : nat := 4096.
Definition TOTAL_BLOCKS : nat := 64.
Definition SUPERBLOCK_BLOCK_NO : Z := 0.
Definition INODE_BITMAP_BLOCK_NO : Z := 1.
Definition DATA_BITMAP_BLOCK_NO : Z := 2.
Definition INODE_TABLE_START_BLOCK : nat := 3.
Definition INODE_TABLE_BLOCKS : nat := 5.
Definition DATA_BLOCK_START : nat := 8.
Definition INODE_SIZE : nat := 256.
Definition INODES_PER_BLOCK : nat := BLOCK_SIZE / INODE_SIZE.
Definition MAX_INODES : nat := INODES_PER_BLOCK * INODE_TABLE_BLOCKS.
Definition MAX_DATA_BLOCKS : nat := TOTAL_BLOCKS - DATA_BLOCK_START.

Definition EXIT_SUCCESS : Z := 0.
Definition EXIT_FAILURE : Z := 1.

(** ** Bytes and little-endian fields *)

#[global] Instance byte_inhabited : Inhabited byte := populate x00.

Definition byte_val (b : byte) : Z := Z.of_N (Byte.to_N b).

(** [p[off]] for a byte pointer [p] into a buffer. *)
Definition at_ (buf : list byte) (off : nat) : Z := byte_val (buf !!! off).

Definition le16 (buf : list byte) (off : nat) : Z :=
  Z.lor (at_ buf off) (Z.shiftl (at_ buf (off + 1)) 8).

Definition le32 (buf : list byte) (off : nat) : Z :=
  Z.lor (Z.lor (at_ buf off) (Z.shiftl (at_ buf (off + 1)) 8))
        (Z.lor (Z.shiftl (at_ buf (off + 2)) 16)
               (Z.shiftl (at_ buf (off + 3)) 24)).

(** ** The two packed structs *)

Record Superblock := mkSuperblock {
  magic : Z;
  blockSize : Z;
  totalBlocks : Z;
  inodeBitmapBlock : Z;
  dataBitmapBlock : Z;
  inodeTableStart : Z;
  dataBlockStart : Z;
  inodeSize : Z;
  inodeCount : Z;
  sb_reserved : list byte
}.

Record Inode := mkInode {
  mode : Z;
  uid : Z;
  gid : Z;
  size : Z;
  atime : Z;
  ctime : Z;
  mtime : Z;
  dtime : Z;
  links : Z;
  blocks : Z;
  direct : Z;
  indirect : Z;
  doubleIndirect : Z;
  tripleIndirect : Z;
  reserved : list byte
}.

(** The struct a [Superblock *] sees when it points at [buf]. *)
Definition Superblock_at (buf : list byte) : Superblock :=
  {| magic := le16 buf 0;
     blockSize := le32 buf 2;
     totalBlocks := le32 buf 6;
     inodeBitmapBlock := le32 buf 10;
     dataBitmapBlock := le32 buf 14;
     inodeTableStart := le32 buf 18;
     dataBlockStart := le32 buf 22;
     inodeSize := le32 buf 26;
     inodeCount := le32 buf 30;
     sb_reserved := take 4058 (drop 34 buf) |}.

(** [sizeof(Superblock)]: the struct is packed, so it is the 2 bytes of
    [magic], the eight 4-byte fields and [reserved[4058]], four bytes short
    of a block. *)
Definition sizeof_Superblock : nat := 2 + 8 * 4 + 4058.

(** [memcpy(&inode, blockBuffer + offset, sizeof(Inode))]. *)
Definition memcpy_Inode (blockBuffer : list byte) (offset : nat) : Inode :=
  {| mode := le32 blockBuffer offset;
     uid := le32 blockBuffer (offset + 4);
     gid := le32 blockBuffer (offset + 8);
     size := le32 blockBuffer (offset + 12);
     atime := le32 blockBuffer (offset + 16);
     ctime := le32 blockBuffer (offset + 20);
     mtime := le32 blockBuffer (offset + 24);
     dtime := le32 blockBuffer (offset + 28);
     links := le32 blockBuffer (offset + 32);
     blocks := le32 blockBuffer (offset + 36);
     direct := le32 blockBuffer (offset + 40);
     indirect := le32 blockBuffer (offset + 44);
     doubleIndirect := le32 blockBuffer (offset + 48);
     tripleIndirect := le32 blockBuffer (offset + 52);
     reserved := take 156 (drop (offset + 56) blockBuffer) |}.

(** [inode.links > 0 && inode.dtime == 0] *)
Definition isValid (inode : Inode) : bool :=
  (0 <? links inode) && (dtime inode =? 0).

(** ** Lines of output *)

Inductive line :=
  | ErrMagic
  | ErrBlockSize
  | ErrTotalBlocks
  | ErrPointers
  | ErrInodeSize
  | ErrInodeCount
  | ErrInodeMarkedInvalid (i : nat)
  | ErrInodeValidUnmarked (i : nat)
  | ErrInvalidDirect (i : nat) (blk : Z)
  | ErrRefNotMarked (i : nat) (blk : Z)
  | ErrDataMarkedUnref (i : nat)
  | ErrDataUsedUnmarked (i : nat)
  | ErrDataMultiRef (i : nat)
  | ErrInodeMarkedUnused (i : nat)
  | ErrInodeUsedUnmarked (i : nat)
  | ErrInvalidIndirect (i : nat) (blk : Z)
  | ErrInvalidDouble (i : nat) (blk : Z)
  | ErrInvalidTriple (i : nat) (blk : Z)
  | OkInodeBitmap
  | OkNoDuplicates
  | OkNoBadBlocks
  | BannerSuperblock
  | BannerBitmaps
  | BannerInodes
  | BannerBitmapChecks
  | BannerBlockRefs.

#[global] Instance line_eq_dec : EqDecision line.
Proof. solve_decision. Defined.

(** The text [printf] writes for each line, without the newline. *)
Definition render (l : line) : string :=
  match l with
  | ErrMagic => "ERROR: Invalid magic number in superblock."
  | ErrBlockSize => "ERROR: Invalid block size in superblock."
  | ErrTotalBlocks => "ERROR: Invalid total block count in superblock."
  | ErrPointers => "ERROR: One or more superblock pointers are incorrect."
  | ErrInodeSize => "ERROR: Invalid inode size in superblock."
  | ErrInodeCount =>
      "ERROR: Inode count in superblock exceeds maximum allowed."
  | ErrInodeMarkedInvalid i =>
      "ERROR: Inode " +:+ pretty i +:+ " marked used in bitmap but is invalid."
  | ErrInodeValidUnmarked i =>
      "ERROR: Inode " +:+ pretty i
        +:+ " is valid but not marked used in bitmap."
  | ErrInvalidDirect i blk =>
      "ERROR: Inode " +:+ pretty i +:+ " has invalid direct block "
        +:+ pretty blk +:+ "."
  | ErrRefNotMarked i blk =>
      "ERROR: Inode " +:+ pretty i +:+ " references block " +:+ pretty blk
        +:+ " not marked in data bitmap."
  | ErrDataMarkedUnref i =>
      "ERROR: Data block " +:+ pretty i
        +:+ " marked used in bitmap but not referenced."
  | ErrDataUsedUnmarked i =>
      "ERROR: Data block " +:+ pretty i
        +:+ " is used but not marked in bitmap."
  | ErrDataMultiRef i =>
      "ERROR: Data block " +:+ pretty i
        +:+ " is referenced by multiple inodes."
  | ErrInodeMarkedUnused i =>
      "ERROR: Inode " +:+ pretty i +:+ " marked used but not actually used."
  | ErrInodeUsedUnmarked i =>
      "ERROR: Inode " +:+ pretty i +:+ " is used but not marked in bitmap."
  | ErrInvalidIndirect i blk =>
      "ERROR: Inode " +:+ pretty i +:+ " has invalid single indirect block "
        +:+ pretty blk +:+ "."
  | ErrInvalidDouble i blk =>
      "ERROR: Inode " +:+ pretty i +:+ " has invalid double indirect block "
        +:+ pretty blk +:+ "."
  | ErrInvalidTriple i blk =>
      "ERROR: Inode " +:+ pretty i +:+ " has invalid triple indirect block "
        +:+ pretty blk +:+ "."
  | OkInodeBitmap => "Inode bitmap is consistent."
  | OkNoDuplicates => "No duplicate data block references found."
  | OkNoBadBlocks => "No invalid block references found in inodes."
  | BannerSuperblock => "Superblock validation completed."
  | BannerBitmaps => "Bitmaps loaded successfully."
  | BannerInodes => "Inode checks completed."
  | BannerBitmapChecks => "Bitmap consistency checks completed."
  | BannerBlockRefs => "Block reference checks completed."
  end.

(** A line the program prefixes with [ERROR:]. *)
Definition is_error (l : line) : bool :=
  match l with
  | OkInodeBitmap | OkNoDuplicates | OkNoBadBlocks
  | BannerSuperblock | BannerBitmaps | BannerInodes
  | BannerBitmapChecks | BannerBlockRefs => false
  | _ => true
  end.

(** A line printed because a check found nothing. *)
Definition is_success (l : line) : bool :=
  match l with
  | OkInodeBitmap | OkNoDuplicates | OkNoBadBlocks => true
  | _ => false
  end.

(** What goes to the error stream. *)
Inductive errline :=
  | Usage (argv0 : string)
  | PerrorOpen.

(** ** Program state: the global arrays, the stream position, stdout *)

Record state := mkState {
  dataBitmap : list bool;
  dataBlockUsed : list bool;
  blockRefCount : list Z;
  inodeBitmap : list bool;
  inodeUsed : list bool;
  fpos : nat;
  stdout : list line
}.

(** Objects of static storage duration start zeroed. *)
Definition initial_state : state :=
  {| dataBitmap := replicate MAX_DATA_BLOCKS false;
     dataBlockUsed := replicate MAX_DATA_BLOCKS false;
     blockRefCount := replicate MAX_DATA_BLOCKS 0;
     inodeBitmap := replicate MAX_INODES false;
     inodeUsed := replicate MAX_INODES false;
     fpos := 0%nat;
     stdout := [] |}.

Definition set_dataBitmap (v : list bool) (s : state) : state :=
  mkState v (dataBlockUsed s) (blockRefCount s) (inodeBitmap s)
          (inodeUsed s) (fpos s) (stdout s).
Definition set_dataBlockUsed (v : list bool) (s : state) : state :=
  mkState (dataBitmap s) v (blockRefCount s) (inodeBitmap s)
          (inodeUsed s) (fpos s) (stdout s).
Definition set_blockRefCount (v : list Z) (s : state) : state :=
  mkState (dataBitmap s) (dataBlockUsed s) v (inodeBitmap s)
          (inodeUsed s) (fpos s) (stdout s).
Definition set_inodeBitmap (v : list bool) (s : state) : state :=
  mkState (dataBitmap s) (dataBlockUsed s) (blockRefCount s) v
          (inodeUsed s) (fpos s) (stdout s).
Definition set_inodeUsed (v : list bool) (s : state) : state :=
  mkState (dataBitmap s) (dataBlockUsed s) (blockRefCount s) (inodeBitmap s)
          v (fpos s) (stdout s).
Definition set_fpos (p : nat) (s : state) : state :=
  mkState (dataBitmap s) (dataBlockUsed s) (blockRefCount s) (inodeBitmap s)
          (inodeUsed s) p (stdout s).
Definition printf (l : line) (s : state) : state :=
  mkState (dataBitmap s) (dataBlockUsed s) (blockRefCount s) (inodeBitmap s)
          (inodeUsed s) (fpos s) (stdout s ++ [l]).

(** [if (c) printf(l);] *)
Definition print_if (c : bool) (l : line) (s : state) : state :=
  if c then printf l s else s.

(** ** The stream and the block reader *)

Section Image.

(** The bytes of the file [fp] is opened on. *)
Variable img : list byte.

(** [fseek(fp, offset, SEEK_SET)] on a regular file: a negative offset is
    refused and leaves the position where it was; any other offset is
    accepted, also beyond the end of the file.  Returns the new position and
    the status. *)
Definition fseek (pos : nat) (offset : Z) : nat * Z :=
  if offset <? 0 then (pos, -1) else (Z.to_nat offset, 0).

(** [fread(buffer, size, nmemb, fp)]: the bytes available from the position
    on, at most [size * nmemb] of them, are stored at the start of [buffer];
    what follows them in [buffer] keeps its old contents.  Returns the
    buffer, the number of complete items read and the new position. *)
Definition fread (buffer : list byte) (size nmemb : nat) (pos : nat)
  : list byte * nat * nat :=
  let got := take (size * nmemb) (drop pos img) in
  (got ++ drop (length got) buffer, (length got / size)%nat,
   (pos + length got)%nat).

(** The offset [readBlock] passes to [fseek] is the product of two [int]s.
    C defines that product only when it lies within [int]; [offset_fits_int]
    says it does, which is the case for block numbers -524288 to 524287 and
    so for the block numbers 0 to 7 the program passes. *)
Definition INT_MAX : Z := 2147483647.
Definition INT_MIN : Z := - INT_MAX - 1.

Definition offset_fits_int (blockNum : Z) : Prop :=
  INT_MIN <= blockNum * Z.of_nat BLOCK_SIZE <= INT_MAX.

(** [readBlock] drops both return values.  The offset is the exact product:
    the definition follows the code on every call that satisfies
    [offset_fits_int] and says nothing of the others, which C leaves
    undefined. *)
Definition readBlock (blockNum : Z) (buffer : list byte) (pos : nat)
  : list byte * nat :=
  let '(pos, _) := fseek pos (blockNum * Z.of_nat BLOCK_SIZE) in
  let '(buffer, _, pos) := fread buffer BLOCK_SIZE 1 pos in
  (buffer, pos).

(** ** Bitmap decoder *)

(** [(rawBitmap[i / 8] >> (i % 8)) & 1] converted to [bool]. *)
Definition bitmap_bit (rawBitmap : list byte) (i : nat) : bool :=
  negb (Z.land (Z.shiftr (at_ rawBitmap (i / 8)) (Z.of_nat (i mod 8))) 1 =? 0).

(** [rawBitmap] is the uninitialised local buffer.  Returns the bitmap array
    and the stream position. *)
Definition loadBitmap (blockNum : Z) (bitmap : list bool) (count : nat)
    (rawBitmap : list byte) (pos : nat) : list bool * nat :=
  let '(rawBitmap, pos) := readBlock blockNum rawBitmap pos in
  (foldl (fun bitmap i => <[i := bitmap_bit rawBitmap i]> bitmap)
         bitmap (seq 0 count),
   pos).

(** ** Feature 1: superblock validation *)

(** [superblock] is the caller's struct, seen as its bytes. *)
Definition readSuperblock (superblock : list byte) (s : state)
  : list byte * state :=
  let '(superblock, pos) := readBlock SUPERBLOCK_BLOCK_NO superblock (fpos s) in
  let s := set_fpos pos s in
  let sb := Superblock_at superblock in
  let s := print_if (negb (magic sb =? 0xD34D)) ErrMagic s in
  let s := print_if (negb (blockSize sb =? Z.of_nat BLOCK_SIZE)) ErrBlockSize s in
  let s :=
    print_if (negb (totalBlocks sb =? Z.of_nat TOTAL_BLOCKS)) ErrTotalBlocks s in
  let s :=
    print_if (negb (inodeBitmapBlock sb =? INODE_BITMAP_BLOCK_NO)
              || negb (dataBitmapBlock sb =? DATA_BITMAP_BLOCK_NO)
              || negb (inodeTableStart sb =? Z.of_nat INODE_TABLE_START_BLOCK)
              || negb (dataBlockStart sb =? Z.of_nat DATA_BLOCK_START))
             ErrPointers s in
  let s := print_if (negb (inodeSize sb =? Z.of_nat INODE_SIZE)) ErrInodeSize s in
  let s := print_if (Z.of_nat MAX_INODES <? inodeCount sb) ErrInodeCount s in
  (superblock, s).

(** ** Inode decoder: the four lines both inode loops start with *)

Definition inode_blockNum (i : nat) : Z :=
  Z.of_nat (INODE_TABLE_START_BLOCK + (i * INODE_SIZE) / BLOCK_SIZE).

Definition inode_offset (i : nat) : nat := ((i * INODE_SIZE) mod BLOCK_SIZE)%nat.

Definition fetchInode (i : nat) (blockBuffer : list byte) (pos : nat)
  : Inode * list byte * nat :=
  let blockNum := inode_blockNum i in
  let offset := inode_offset i in
  let '(blockBuffer, pos) := readBlock blockNum blockBuffer pos in
  (memcpy_Inode blockBuffer offset, blockBuffer, pos).

(** ** Pass 1: the inode scan *)

(** [blockRefCount[inode.direct]++] is on an [int] that starts at 0 and is
    incremented at most once per inode, so it stays far from overflow; the
    same holds for the counter of pass 3. *)

Definition checkInodes_body (acc : state * list byte) (i : nat)
  : state * list byte :=
  let '(s, blockBuffer) := acc in
  let '(inode, blockBuffer, pos) := fetchInode i blockBuffer (fpos s) in
  let s := set_fpos pos s in
  let valid := isValid inode in
  let s := print_if (inodeBitmap s !!! i && negb valid)
                    (ErrInodeMarkedInvalid i) s in
  let s := print_if (negb (inodeBitmap s !!! i) && valid)
                    (ErrInodeValidUnmarked i) s in
  let s :=
    if valid then
      let s := set_inodeUsed (<[i := true]> (inodeUsed s)) s in
      if Z.of_nat MAX_DATA_BLOCKS <=? direct inode then
        printf (ErrInvalidDirect i (direct inode)) s
      else
        let d := Z.to_nat (direct inode) in
        let s := set_dataBlockUsed (<[d := true]> (dataBlockUsed s)) s in
        let s :=
          set_blockRefCount
            (<[d := blockRefCount s !!! d + 1]> (blockRefCount s)) s in
        print_if (negb (dataBitmap s !!! d))
                 (ErrRefNotMarked i (direct inode)) s
    else s in
  (s, blockBuffer).

(** [blockBuffer] is the uninitialised local buffer. *)
Definition checkInodes (blockBuffer : list byte) (s : state) : state :=
  fst (foldl checkInodes_body (s, blockBuffer) (seq 0 MAX_INODES)).

(** ** Feature 2 (pass 2): data bitmap against observed usage *)

Definition checkDataBitmap_body (s : state) (i : nat) : state :=
  let s := print_if (dataBitmap s !!! i && negb (dataBlockUsed s !!! i))
                    (ErrDataMarkedUnref i) s in
  let s := print_if (negb (dataBitmap s !!! i) && dataBlockUsed s !!! i)
                    (ErrDataUsedUnmarked i) s in
  print_if (1 <? blockRefCount s !!! i) (ErrDataMultiRef i) s.

Definition checkDataBitmap (s : state) : state :=
  foldl checkDataBitmap_body s (seq 0 MAX_DATA_BLOCKS).

(** ** Feature 3 (pass 3): inode bitmap against observed usage *)

Definition checkInodeBitmap_body (acc : state * Z) (i : nat) : state * Z :=
  let '(s, errorCount) := acc in
  let '(s, errorCount) :=
    if inodeBitmap s !!! i && negb (inodeUsed s !!! i)
    then (printf (ErrInodeMarkedUnused i) s, errorCount + 1)
    else (s, errorCount) in
  if negb (inodeBitmap s !!! i) && inodeUsed s !!! i
  then (printf (ErrInodeUsedUnmarked i) s, errorCount + 1)
  else (s, errorCount).

Definition checkInodeBitmap (s : state) : state :=
  let '(s, errorCount) :=
    foldl checkInodeBitmap_body (s, 0) (seq 0 MAX_INODES) in
  print_if (errorCount =? 0) OkInodeBitmap s.

(** ** Feature 4 (pass 4): duplicate block report *)

Definition checkDuplicateBlocks_body (acc : state * bool) (i : nat)
  : state * bool :=
  let '(s, duplicateFound) := acc in
  if 1 <? blockRefCount s !!! i
  then (printf (ErrDataMultiRef i) s, true)
  else (s, duplicateFound).

Definition checkDuplicateBlocks (s : state) : state :=
  let '(s, duplicateFound) :=
    foldl checkDuplicateBlocks_body (s, false) (seq 0 MAX_DATA_BLOCKS) in
  print_if (negb duplicateFound) OkNoDuplicates s.

(** ** Feature 5 (pass 5): bad block pointers *)

Definition checkBadBlocks_body (acc : state * list byte * bool) (i : nat)
  : state * list byte * bool :=
  let '(s, blockBuffer, badBlockFound) := acc in
  let '(inode, blockBuffer, pos) := fetchInode i blockBuffer (fpos s) in
  let s := set_fpos pos s in
  if negb (isValid inode) then (s, blockBuffer, badBlockFound)
  else
    let '(s, badBlockFound) :=
      if Z.of_nat MAX_DATA_BLOCKS <=? direct inode
      then (printf (ErrInvalidDirect i (direct inode)) s, true)
      else (s, badBlockFound) in
    let '(s, badBlockFound) :=
      if (Z.of_nat MAX_DATA_BLOCKS <=? indirect inode)
         && negb (indirect inode =? 0)
      then (printf (ErrInvalidIndirect i (indirect inode)) s, true)
      else (s, badBlockFound) in
    let '(s, badBlockFound) :=
      if (Z.of_nat MAX_DATA_BLOCKS <=? doubleIndirect inode)
         && negb (doubleIndirect inode =? 0)
      then (printf (ErrInvalidDouble i (doubleIndirect inode)) s, true)
      else (s, badBlockFound) in
    let '(s, badBlockFound) :=
      if (Z.of_nat MAX_DATA_BLOCKS <=? tripleIndirect inode)
         && negb (tripleIndirect inode =? 0)
      then (printf (ErrInvalidTriple i (tripleIndirect inode)) s, true)
      else (s, badBlockFound) in
    (s, blockBuffer, badBlockFound).

(** [blockBuffer] is the uninitialised local buffer. *)
Definition checkBadBlocks (blockBuffer : list byte) (s : state) : state :=
  let '(s, _, badBlockFound) :=
    foldl checkBadBlocks_body (s, blockBuffer, false) (seq 0 MAX_INODES) in
  print_if (negb badBlockFound) OkNoBadBlocks s.

(** ** The body of [main] once the file is open *)

(** What the uninitialised automatic objects happen to hold on entry: the
    [sizeof_Superblock] bytes of [superblock] of [main], and the
    [BLOCK_SIZE] bytes of [rawBitmap] of the two [loadBitmap] calls and of
    [blockBuffer] of [checkInodes] and of [checkBadBlocks]. *)
Record stack := mkStack {
  stack_superblock : list byte;
  stack_rawBitmap_inode : list byte;
  stack_rawBitmap_data : list byte;
  stack_checkInodes : list byte;
  stack_checkBadBlocks : list byte
}.

(** The objects have the sizes their declarations give them. *)
Definition stack_ok (stk : stack) : Prop :=
  length (stack_superblock stk) = sizeof_Superblock /\
  length (stack_rawBitmap_inode stk) = BLOCK_SIZE /\
  length (stack_rawBitmap_data stk) = BLOCK_SIZE /\
  length (stack_checkInodes stk) = BLOCK_SIZE /\
  length (stack_checkBadBlocks stk) = BLOCK_SIZE.

Variable stk : stack.

Definition after_readSuperblock : state :=
  printf BannerSuperblock
         (snd (readSuperblock (stack_superblock stk) initial_state)).

(** [readSuperblock] passes [main]'s [superblock] to [readBlock], which asks
    [fread] for [BLOCK_SIZE] bytes: what the file delivers beyond the
    [sizeof_Superblock] bytes of the struct is stored past its end, in
    whatever follows it in [main]'s frame.  These are the bytes so stored.
    The field tests of [readSuperblock] read the struct only, and C gives
    no meaning to a run that stores outside an object: the states below
    follow the run in which the stray bytes land where the program keeps
    nothing, and [main] reports them beside its outcome. *)
Definition superblock_overrun : list byte :=
  drop sizeof_Superblock
       (fst (readSuperblock (stack_superblock stk) initial_state)).

(** The two [loadBitmap] calls of [main] and the banner after them. *)
Definition main_loadBitmaps (s : state) : state :=
  let '(bm, pos) :=
    loadBitmap INODE_BITMAP_BLOCK_NO (inodeBitmap s) MAX_INODES
               (stack_rawBitmap_inode stk) (fpos s) in
  let s := set_fpos pos (set_inodeBitmap bm s) in
  let '(bm, pos) :=
    loadBitmap DATA_BITMAP_BLOCK_NO (dataBitmap s) MAX_DATA_BLOCKS
               (stack_rawBitmap_data stk) (fpos s) in
  let s := set_fpos pos (set_dataBitmap bm s) in
  printf BannerBitmaps s.

Definition after_loadBitmaps : state := main_loadBitmaps after_readSuperblock.

Definition after_checkInodes : state :=
  printf BannerInodes (checkInodes (stack_checkInodes stk) after_loadBitmaps).

Definition after_checkInodeBitmap : state :=
  checkInodeBitmap after_checkInodes.

Definition after_checkDataBitmap : state :=
  printf BannerBitmapChecks (checkDataBitmap after_checkInodeBitmap).

Definition after_checkDuplicateBlocks : state :=
  checkDuplicateBlocks after_checkDataBitmap.

Definition after_checkBadBlocks : state :=
  printf BannerBlockRefs
         (checkBadBlocks (stack_checkBadBlocks stk) after_checkDuplicateBlocks).

End Image.

(** ** [main] *)

(** [overrun] holds the bytes the run stored past the end of [main]'s
    [superblock]; the other fields are what C promises when it is empty. *)
Record outcome := mkOutcome {
  exit_code : Z;
  out : list line;
  err : list errline;
  overrun : list byte
}.

(** [fs] is the file system [fopen] looks the path up in: the bytes of the
    file when it can be opened for reading. *)
Definition main (fs : string -> option (list byte)) (stk : stack)
    (argv : list string) : outcome :=
  if negb (length argv =? 2)%nat then
    mkOutcome EXIT_FAILURE [] [Usage (argv !!! 0%nat)] []
  else
    match fs (argv !!! 1%nat) with
    | None => mkOutcome EXIT_FAILURE [] [PerrorOpen] []
    | Some img =>
        mkOutcome EXIT_SUCCESS (stdout (after_checkBadBlocks img stk)) []
                  (superblock_overrun img stk)
    end.

(** ** Packing a bitmap, as the image format describes it *)

(** The specification's bit order, not code of the checker (which only
    decodes): entry [i] is bit [i mod 8] of byte [i div 8], so byte [j]
    holds entries [8j .. 8j+7], entry [8j] in its least significant bit.
    Entries past the end of the vector are stored as clear bits. *)
Definition pack_byte (v : list bool) (j : nat) : byte :=
  Byte.of_bits
    (v !!! (8 * j)%nat, (v !!! (8 * j + 1)%nat, (v !!! (8 * j + 2)%nat,
    (v !!! (8 * j + 3)%nat, (v !!! (8 * j + 4)%nat, (v !!! (8 * j + 5)%nat,
    (v !!! (8 * j + 6)%nat, v !!! (8 * j + 7)%nat))))))).

Definition pack (v : list bool) : list byte :=
  pack_byte v <$> seq 0 ((length v + 7) / 8).


(** ** What an inode loop decodes *)

(** Both inode loops read inode [i]'s block into one local buffer that is
    reused from iteration to iteration.  [bufferAt img blockBuffer n] is
    that buffer after [n] iterations, when the loop was entered with
    [blockBuffer]; the seeks of the loop are to non-negative offsets, so the
    stream position on entry plays no part. *)
Definition bufferAt (img blockBuffer : list byte) (n : nat) : list byte :=
  foldl (fun buf i => fst (readBlock img (inode_blockNum i) buf 0))
        blockBuffer (seq 0 n).

(** The inode iteration [i] of such a loop decodes. *)
Definition inodeSeen (img blockBuffer : list byte) (i : nat) : Inode :=
  memcpy_Inode (bufferAt img blockBuffer (S i)) (inode_offset i).

(** The inode record stored in slot [i] of the inode table of the image. *)
Definition inodeAt (img : list byte) (i : nat) : Inode :=
  memcpy_Inode (drop (INODE_TABLE_START_BLOCK * BLOCK_SIZE) img)
               (i * INODE_SIZE).

(** Inode [i], as decoded by a loop entered with [blockBuffer], is valid and
    its direct pointer is block [b]. *)
Definition references (img blockBuffer : list byte) (b i : nat) : Prop :=
  isValid (inodeSeen img blockBuffer i) = true /\
  direct (inodeSeen img blockBuffer i) = Z.of_nat b.

#[global] Instance references_dec img blockBuffer b i :
  Decision (references img blockBuffer b i).
Proof. unfold references. apply _. Defined.

(** Number of inode indices that reference block [b]. *)
Definition referrers (img blockBuffer : list byte) (b : nat) : nat :=
  length (filter (references img blockBuffer b) (seq 0 MAX_INODES)).

(** The same two notions on the inode records of the image itself. *)
Definition references_at (img : list byte) (b i : nat) : Prop :=
  isValid (inodeAt img i) = true /\ direct (inodeAt img i) = Z.of_nat b.

#[global] Instance references_at_dec img b i : Decision (references_at img b i).
Proof. unfold references_at. apply _. Defined.

Definition referrers_at (img : list byte) (b : nat) : nat :=
  length (filter (references_at img b) (seq 0 MAX_INODES)).

(** ** Lines printed by each phase of a run *)

(** The lines printed between two states of one run. *)
Definition emitted (s s' : state) : list line :=
  drop (length (stdout s)) (stdout s').

Section Phases.

Variable img : list byte.
Variable stk : stack.

Definition superblock_lines : list line :=
  emitted initial_state
          (snd (readSuperblock img (stack_superblock stk) initial_state)).

Definition pass1_lines : list line :=
  emitted (after_loadBitmaps img stk)
          (checkInodes img (stack_checkInodes stk) (after_loadBitmaps img stk)).

Definition pass3_lines : list line :=
  emitted (after_checkInodes img stk) (after_checkInodeBitmap img stk).

Definition pass2_lines : list line :=
  emitted (after_checkInodeBitmap img stk)
          (checkDataBitmap (after_checkInodeBitmap img stk)).

Definition pass4_lines : list line :=
  emitted (after_checkDataBitmap img stk) (after_checkDuplicateBlocks img stk).

Definition pass5_lines : list line :=
  emitted (after_checkDuplicateBlocks img stk)
          (checkBadBlocks img (stack_checkBadBlocks stk)
                          (after_checkDuplicateBlocks img stk)).

End Phases.

(** ** What each pass reports *)

(** Two states hold the same global arrays. *)
Definition same_arrays (s s' : state) : Prop :=
  dataBitmap s' = dataBitmap s /\
  dataBlockUsed s' = dataBlockUsed s /\
  blockRefCount s' = blockRefCount s /\
  inodeBitmap s' = inodeBitmap s /\
  inodeUsed s' = inodeUsed s.

(** [l] is a finding of pass 2 about data block [i] in state [s]. *)
Definition pass2_finding (s : state) (i : nat) (l : line) : Prop :=
  (l = ErrDataMarkedUnref i /\
   dataBitmap s !!! i = true /\ dataBlockUsed s !!! i = false) \/
  (l = ErrDataUsedUnmarked i /\
   dataBitmap s !!! i = false /\ dataBlockUsed s !!! i = true) \/
  (l = ErrDataMultiRef i /\ 1 < blockRefCount s !!! i).

(** [l] is a finding of pass 3 about inode [i] in state [s]. *)
Definition pass3_finding (s : state) (i : nat) (l : line) : Prop :=
  (l = ErrInodeMarkedUnused i /\
   inodeBitmap s !!! i = true /\ inodeUsed s !!! i = false) \/
  (l = ErrInodeUsedUnmarked i /\
   inodeBitmap s !!! i = false /\ inodeUsed s !!! i = true).

(** [l] is a finding of pass 4 about data block [i] in state [s]. *)
Definition pass4_finding (s : state) (i : nat) (l : line) : Prop :=
  l = ErrDataMultiRef i /\ 1 < blockRefCount s !!! i.

(** [l] is a finding of pass 5 about the pointers of [inode], decoded at
    index [i]. *)
Definition pass5_finding (inode : Inode) (i : nat) (l : line) : Prop :=
  isValid inode = true /\
  ((l = ErrInvalidDirect i (direct inode) /\
    Z.of_nat MAX_DATA_BLOCKS <= direct inode) \/
   (l = ErrInvalidIndirect i (indirect inode) /\
    Z.of_nat MAX_DATA_BLOCKS <= indirect inode /\ indirect inode <> 0) \/
   (l = ErrInvalidDouble i (doubleIndirect inode) /\
    Z.of_nat MAX_DATA_BLOCKS <= doubleIndirect inode /\
    doubleIndirect inode <> 0) \/
   (l = ErrInvalidTriple i (tripleIndirect inode) /\
    Z.of_nat MAX_DATA_BLOCKS <= tripleIndirect inode /\
    tripleIndirect inode <> 0)).

(** The superblock struct as [readSuperblock] leaves it in a run. *)
Definition superblock_read (img : list byte) (stk : stack) : Superblock :=
  Superblock_at (fst (readSuperblock img (stack_superblock stk) initial_state)).

(** The lines [readSuperblock] can print, in the order of its checks. *)
Definition superblock_checks : list line :=
  [ErrMagic; ErrBlockSize; ErrTotalBlocks; ErrPointers; ErrInodeSize;
   ErrInodeCount].

(** The nine field checks the specification attributes to superblock
    validation, one per field: how many of them fail on [sb].  The code has
    no such count; it is here to compare the specification's reading with
    what [readSuperblock] prints. *)
Definition spec_mismatching_fields (sb : Superblock) : nat :=
  length (filter (fun c : bool => c = true)
    [negb (magic sb =? 0xD34D);
     negb (blockSize sb =? Z.of_nat BLOCK_SIZE);
     negb (totalBlocks sb =? Z.of_nat TOTAL_BLOCKS);
     negb (inodeBitmapBlock sb =? INODE_BITMAP_BLOCK_NO);
     negb (dataBitmapBlock sb =? DATA_BITMAP_BLOCK_NO);
     negb (inodeTableStart sb =? Z.of_nat INODE_TABLE_START_BLOCK);
     negb (dataBlockStart sb =? Z.of_nat DATA_BLOCK_START);
     negb (inodeSize sb =? Z.of_nat INODE_SIZE);
     Z.of_nat MAX_INODES <? inodeCount sb]).

(** ** Concrete images *)

Definition zeros (n : nat) : list byte := replicate n x00.

(** [prefix] padded with zero bytes to [n] bytes. *)
Definition padded (n : nat) (prefix : list byte) : list byte :=
  prefix ++ zeros (n - length prefix).

(** A 64-block image from the leading bytes of its superblock, of its two
    bitmap blocks and of its inode table; everything else is zero. *)
Definition image (sb ibm dbm table : list byte) : list byte :=
  padded BLOCK_SIZE sb ++ padded BLOCK_SIZE ibm ++ padded BLOCK_SIZE dbm
  ++ padded (INODE_TABLE_BLOCKS * BLOCK_SIZE) table
  ++ zeros (MAX_DATA_BLOCKS * BLOCK_SIZE).

(** The superblock fields of a well-formed image: magic 0xD34D, block size
    4096, 64 blocks, bitmaps in blocks 1 and 2, inode table from block 3,
    data from block 8, 256-byte inodes, 80 inodes. *)
Definition good_superblock : list byte :=
  [x4d; xd3;  x00; x10; x00; x00;  x40; x00; x00; x00;
   x01; x00; x00; x00;  x02; x00; x00; x00;  x03; x00; x00; x00;
   x08; x00; x00; x00;  x00; x01; x00; x00;  x50; x00; x00; x00].

(** The same with both bitmap block numbers wrong (0 instead of 1 and 2). *)
Definition two_bad_pointers_superblock : list byte :=
  [x4d; xd3;  x00; x10; x00; x00;  x40; x00; x00; x00;
   x00; x00; x00; x00;  x00; x00; x00; x00;  x03; x00; x00; x00;
   x08; x00; x00; x00;  x00; x01; x00; x00;  x50; x00; x00; x00].

(** The 256 bytes of an inode with the given link count, direct pointer and
    single indirect pointer (each below 256) and every other field zero. *)
Definition inode_record (nlinks ptr iptr : byte) : list byte :=
  zeros 32 ++ [nlinks; x00; x00; x00] ++ zeros 4 ++ [ptr; x00; x00; x00]
  ++ [iptr; x00; x00; x00] ++ zeros 208.

(** All local objects zeroed. *)
Definition zero_stack : stack :=
  mkStack (zeros sizeof_Superblock) (zeros BLOCK_SIZE) (zeros BLOCK_SIZE)
          (zeros BLOCK_SIZE) (zeros BLOCK_SIZE).

(** All local objects filled with 0xFF. *)
Definition ff_stack : stack :=
  mkStack (replicate sizeof_Superblock xff) (replicate BLOCK_SIZE xff)
          (replicate BLOCK_SIZE xff) (replicate BLOCK_SIZE xff)
          (replicate BLOCK_SIZE xff).

(** A consistent image: nothing in use. *)
Definition clean_image : list byte := image good_superblock [] [] [].

(** As [clean_image], with both bitmap block numbers of the superblock
    wrong. *)
Definition two_bad_pointers_image : list byte :=
  image two_bad_pointers_superblock [] [] [].

(** Inode 0 and data block 0 are marked used in the bitmaps, and no inode is
    in use. *)
Definition stale_bitmaps_image : list byte :=
  image good_superblock [x01] [x01] [].

(** Inodes 0 and 1 both in use with direct pointer 10; inode 2 in use with
    direct pointer 200 and single indirect pointer 99.  The inode bitmap
    marks the three, the data bitmap marks block 10. *)
Definition shared_block_image : list byte :=
  image good_superblock [x07] [x00; x04]
        (inode_record x01 x0a x00 ++ inode_record x01 x0a x00
         ++ inode_record x01 xc8 x63).

(** As [clean_image] in blocks 0 to 7, with a data region of 0xFF bytes. *)
Definition dirty_data_image : list byte :=
  take (DATA_BLOCK_START * BLOCK_SIZE) clean_image
  ++ replicate (MAX_DATA_BLOCKS * BLOCK_SIZE) xff.

(** A file system in which every path opens on [img]. *)
Definition only_file (img : list byte) : string -> option (list byte) :=
  fun _ => Some img.

(** An 11-entry bitmap, not a whole number of bytes. *)
Definition sample_bitmap : list bool :=
  [true; false; true; true; false; true; false; false; true; true; true].

(** As [clean_image], with magic number 0xBEEF. *)
Definition bad_magic_image : list byte :=
  image (xef :: xbe :: drop 2 good_superblock) [] [] [].

(** As [clean_image], with data block 5 marked used in the data bitmap. *)
Definition unreferenced_block_image : list byte :=
  image good_superblock [] [x20] [].

(** ** What a run decodes, and the report each pass makes of it *)

(** The raw bitmap blocks as the two [loadBitmap] calls of [main] read
    them. *)
Definition inodeBitmap_raw (img : list byte) (stk : stack) : list byte :=
  fst (readBlock img INODE_BITMAP_BLOCK_NO (stack_rawBitmap_inode stk) 0).

Definition dataBitmap_raw (img : list byte) (stk : stack) : list byte :=
  fst (readBlock img DATA_BITMAP_BLOCK_NO (stack_rawBitmap_data stk) 0).

(** Inode [i] is declared used; data block [b] is declared used. *)
Definition inode_marked (img : list byte) (stk : stack) (i : nat) : bool :=
  bitmap_bit (inodeBitmap_raw img stk) i.

Definition block_marked (img : list byte) (stk : stack) (b : nat) : bool :=
  bitmap_bit (dataBitmap_raw img stk) b.

(** The lines one iteration of each loop prints, from the values the
    iteration reads: the bitmap entries, the arrays of observations and the
    decoded inode. *)
Definition pass1_report (marked : bool) (dbm : nat -> bool) (inode : Inode)
    (i : nat) : list line :=
  (if marked && negb (isValid inode) then [ErrInodeMarkedInvalid i] else [])
  ++ (if negb marked && isValid inode then [ErrInodeValidUnmarked i] else [])
  ++ (if isValid inode then
        if Z.of_nat MAX_DATA_BLOCKS <=? direct inode
        then [ErrInvalidDirect i (direct inode)]
        else if dbm (Z.to_nat (direct inode)) then []
             else [ErrRefNotMarked i (direct inode)]
      else []).

Definition pass2_report (marked used : bool) (refs : Z) (b : nat) : list line :=
  (if marked && negb used then [ErrDataMarkedUnref b] else [])
  ++ (if negb marked && used then [ErrDataUsedUnmarked b] else [])
  ++ (if 1 <? refs then [ErrDataMultiRef b] else []).

Definition pass3_report (marked used : bool) (i : nat) : list line :=
  (if marked && negb used then [ErrInodeMarkedUnused i] else [])
  ++ (if negb marked && used then [ErrInodeUsedUnmarked i] else []).

Definition pass4_report (refs : Z) (b : nat) : list line :=
  if 1 <? refs then [ErrDataMultiRef b] else [].

Definition pass5_report (inode : Inode) (i : nat) : list line :=
  if isValid inode then
    (if Z.of_nat MAX_DATA_BLOCKS <=? direct inode
     then [ErrInvalidDirect i (direct inode)] else [])
    ++ (if (Z.of_nat MAX_DATA_BLOCKS <=? indirect inode)
           && negb (indirect inode =? 0)
        then [ErrInvalidIndirect i (indirect inode)] else [])
    ++ (if (Z.of_nat MAX_DATA_BLOCKS <=? doubleIndirect inode)
           && negb (doubleIndirect inode =? 0)
        then [ErrInvalidDouble i (doubleIndirect inode)] else [])
    ++ (if (Z.of_nat MAX_DATA_BLOCKS <=? tripleIndirect inode)
           && negb (tripleIndirect inode =? 0)
        then [ErrInvalidTriple i (tripleIndirect inode)] else [])
  else [].

(** Findings, or the success line of the pass when there are none. *)
Definition or_success (ok : line) (L : list line) : list line :=
  L ++ (if L is [] then [ok] else []).

(** The lines [readSuperblock] prints for the struct [sb]. *)
Definition superblock_report (sb : Superblock) : list line :=
  (if negb (magic sb =? 0xD34D) then [ErrMagic] else [])
  ++ (if negb (blockSize sb =? Z.of_nat BLOCK_SIZE) then [ErrBlockSize] else [])
  ++ (if negb (totalBlocks sb =? Z.of_nat TOTAL_BLOCKS)
      then [ErrTotalBlocks] else [])
  ++ (if negb (inodeBitmapBlock sb =? INODE_BITMAP_BLOCK_NO)
         || negb (dataBitmapBlock sb =? DATA_BITMAP_BLOCK_NO)
         || negb (inodeTableStart sb =? Z.of_nat INODE_TABLE_START_BLOCK)
         || negb (dataBlockStart sb =? Z.of_nat DATA_BLOCK_START)
      then [ErrPointers] else [])
  ++ (if negb (inodeSize sb =? Z.of_nat INODE_SIZE) then [ErrInodeSize] else [])
  ++ (if Z.of_nat MAX_INODES <? inodeCount sb then [ErrInodeCount] else []).

(** The inode pass 1 decodes at index [i] in a run, the one pass 5 decodes,
    and the number of references pass 1 counts for block [b]. *)
Definition scan_inode (img : list byte) (stk : stack) (i : nat) : Inode :=
  inodeSeen img (stack_checkInodes stk) i.

Definition rescan_inode (img : list byte) (stk : stack) (i : nat) : Inode :=
  inodeSeen img (stack_checkBadBlocks stk) i.

Definition refs (img : list byte) (stk : stack) (b : nat) : Z :=
  Z.of_nat (referrers img (stack_checkInodes stk) b).

(** The line pass 2 and pass 4 both print for a shared block. *)
Definition is_multi_ref (l : line) : bool :=
  match l with
  | ErrDataMultiRef _ => true
  | _ => false
  end.

(** Sum of the entries of an array of counters. *)
Definition total (l : list Z) : Z := foldr Z.add 0 l.

(** Inode [i], as decoded by a loop entered with [blockBuffer], is valid and
    its direct pointer is a data block index. *)
Definition counted (img blockBuffer : list byte) (i : nat) : Prop :=
  isValid (inodeSeen img blockBuffer i) = true /\
  direct (inodeSeen img blockBuffer i) < Z.of_nat MAX_DATA_BLOCKS.

#[global] Instance counted_dec img blockBuffer i :
  Decision (counted img blockBuffer i).
Proof. unfold counted. apply _. Defined.
(** * Properties *)

(** ** Constants and small facts *)

Lemma BLOCK_SIZE_eq : BLOCK_SIZE = 4096%nat.
Proof. reflexivity. Qed.

Lemma MAX_INODES_eq : MAX_INODES = 80%nat.
Proof. reflexivity. Qed.

Lemma MAX_DATA_BLOCKS_eq : MAX_DATA_BLOCKS = 56%nat.
Proof. reflexivity. Qed.

Lemma foldl_ext_in {A B} (f g : A -> B -> A) (l : list B) (a : A) :
  (forall a x, In x l -> f a x = g a x) -> foldl f a l = foldl g a l.
Proof.
  revert a. induction l as [|x l IH]; intros a H; simpl; [reflexivity|].
  rewrite (H a x) by (left; reflexivity).
  apply IH. intros a' y Hy. apply H. right; exact Hy.
Qed.

Lemma foldl_seq_S {A} (f : A -> nat -> A) (a : A) (n : nat) :
  foldl f a (seq 0 (S n)) = f (foldl f a (seq 0 n)) n.
Proof. rewrite seq_S, foldl_app. reflexivity. Qed.

(** ** The block reader *)

Lemma readBlock_eq img (blockNum : Z) buffer pos :
  readBlock img blockNum buffer pos =
  let start := fst (fseek pos (blockNum * Z.of_nat BLOCK_SIZE)) in
  let got := take BLOCK_SIZE (drop start img) in
  (got ++ drop (length got) buffer, (start + length got)%nat).
Proof.
  unfold readBlock, fread. destruct (fseek _ _) as [start st].
  cbv beta iota zeta. unfold fst. rewrite Nat.mul_1_r. reflexivity.
Qed.

Lemma readBlock_nonneg img (b : nat) buffer pos :
  readBlock img (Z.of_nat b) buffer pos =
  let got := take BLOCK_SIZE (drop (b * BLOCK_SIZE) img) in
  (got ++ drop (length got) buffer, (b * BLOCK_SIZE + length got)%nat).
Proof.
  rewrite readBlock_eq. unfold fseek.
  destruct (Z.ltb_spec (Z.of_nat b * Z.of_nat BLOCK_SIZE) 0) as [H|H]; [lia|].
  simpl fst. rewrite <- Nat2Z.inj_mul, Nat2Z.id. reflexivity.
Qed.

(** Bytes the read delivered come from the image; the rest of the buffer is
    what it was. *)
Lemma overlay_lookup_lt (got buffer : list byte) (k : nat) :
  (k < length got)%nat -> (got ++ drop (length got) buffer) !! k = got !! k.
Proof. intros H. apply lookup_app_l. exact H. Qed.

Lemma overlay_lookup_ge (got buffer : list byte) (k : nat) :
  (length got <= k)%nat -> (got ++ drop (length got) buffer) !! k = buffer !! k.
Proof.
  intros H. rewrite lookup_app_r by exact H. rewrite lookup_drop.
  f_equal. lia.
Qed.

(** ** The bitmap decoder *)

Lemma byte_bit_of_bits (b0 b1 b2 b3 b4 b5 b6 b7 : bool) (k : nat) :
  (k < 8)%nat ->
  negb (Z.land (Z.shiftr
                  (byte_val (Byte.of_bits (b0,(b1,(b2,(b3,(b4,(b5,(b6,b7))))))))) 
                  (Z.of_nat k)) 1 =? 0)
  = nth k [b0; b1; b2; b3; b4; b5; b6; b7] false.
Proof.
  intros Hk.
  do 8 (destruct k as [|k];
        [destruct b0, b1, b2, b3, b4, b5, b6, b7; vm_compute; reflexivity|]).
  lia.
Qed.

Lemma pack_byte_bit (v : list bool) (j k : nat) :
  (k < 8)%nat ->
  negb (Z.land (Z.shiftr (byte_val (pack_byte v j)) (Z.of_nat k)) 1 =? 0)
  = v !!! (8 * j + k)%nat.
Proof.
  intros Hk. unfold pack_byte. rewrite byte_bit_of_bits by exact Hk.
  do 8 (destruct k as [|k]; [rewrite ?Nat.add_0_r; reflexivity|]).
  lia.
Qed.

Lemma length_pack (v : list bool) : length (pack v) = ((length v + 7) / 8)%nat.
Proof. unfold pack. rewrite length_fmap, length_seq. reflexivity. Qed.

Lemma lookup_pack (v : list bool) (j : nat) :
  (j < (length v + 7) / 8)%nat -> pack v !! j = Some (pack_byte v j).
Proof.
  intros H. unfold pack. rewrite list_lookup_fmap.
  rewrite (proj2 (lookup_seq 0 _ j j)) by (split; [reflexivity | exact H]).
  reflexivity.
Qed.

Lemma decode_loop (f : nat -> bool) (bitmap : list bool) (n : nat) :
  (n <= length bitmap)%nat ->
  foldl (fun bitmap i => <[i := f i]> bitmap) bitmap (seq 0 n)
  = (f <$> seq 0 n) ++ drop n bitmap.
Proof.
  induction n as [|n IH]; intros Hn.
  - simpl. rewrite drop_0. reflexivity.
  - rewrite foldl_seq_S, IH by lia.
    destruct (lookup_lt_is_Some_2 bitmap n) as [y Hy]; [lia|].
    rewrite (drop_S _ _ _ Hy).
    rewrite insert_app_r_alt by (rewrite length_fmap, length_seq; lia).
    rewrite length_fmap, length_seq, Nat.sub_diag. simpl insert.
    rewrite seq_S, fmap_app. simpl. rewrite <- app_assoc. reflexivity.
Qed.

Lemma loadBitmap_eq img (b : nat) (bitmap : list bool) (count : nat)
    rawBitmap pos :
  (count <= length bitmap)%nat ->
  fst (loadBitmap img (Z.of_nat b) bitmap count rawBitmap pos)
  = (bitmap_bit (fst (readBlock img (Z.of_nat b) rawBitmap pos)) <$> seq 0 count)
    ++ drop count bitmap.
Proof.
  intros H. unfold loadBitmap.
  destruct (readBlock img (Z.of_nat b) rawBitmap pos) as [raw pos'].
  simpl fst. apply decode_loop. exact H.
Qed.

(** ** Printing *)

Lemma stdout_print_if c l s :
  stdout (print_if c l s) = stdout s ++ (if c then [l] else []).
Proof. destruct c; simpl; [reflexivity | rewrite app_nil_r; reflexivity]. Qed.

Lemma emitted_app s s' (L : list line) :
  stdout s' = stdout s ++ L -> emitted s s' = L.
Proof. intros H. unfold emitted. rewrite H. apply drop_app_length. Qed.

(** ** The inode decoder *)

Lemma readBlock_pos_irrelevant img (b : nat) buffer pos :
  readBlock img (Z.of_nat b) buffer pos = readBlock img (Z.of_nat b) buffer 0.
Proof. rewrite !readBlock_nonneg. reflexivity. Qed.

Lemma fetchInode_eq img (i : nat) blockBuffer pos :
  fetchInode img i blockBuffer pos =
  (memcpy_Inode (fst (readBlock img (inode_blockNum i) blockBuffer 0))
                (inode_offset i),
   fst (readBlock img (inode_blockNum i) blockBuffer 0),
   snd (readBlock img (inode_blockNum i) blockBuffer 0)).
Proof.
  unfold fetchInode. unfold inode_blockNum at 1.
  rewrite readBlock_pos_irrelevant. fold (inode_blockNum i).
  destruct (readBlock img (inode_blockNum i) blockBuffer 0) as [buf p].
  reflexivity.
Qed.

Lemma bufferAt_S img blockBuffer (n : nat) :
  bufferAt img blockBuffer (S n) =
  fst (readBlock img (inode_blockNum n) (bufferAt img blockBuffer n) 0).
Proof. unfold bufferAt. rewrite foldl_seq_S. reflexivity. Qed.

Lemma fetchInode_seen img blockBuffer (n : nat) pos :
  fetchInode img n (bufferAt img blockBuffer n) pos =
  (inodeSeen img blockBuffer n, bufferAt img blockBuffer (S n),
   snd (readBlock img (inode_blockNum n) (bufferAt img blockBuffer n) 0)).
Proof.
  rewrite fetchInode_eq. unfold inodeSeen.
  rewrite bufferAt_S. reflexivity.
Qed.

(** ** Fields read from bytes are unsigned *)

Lemma byte_val_nonneg (b : byte) : 0 <= byte_val b.
Proof. unfold byte_val. lia. Qed.

Lemma le32_nonneg (buf : list byte) (off : nat) : 0 <= le32 buf off.
Proof.
  unfold le32, at_.
  repeat first [ apply Z.lor_nonneg; split
               | apply Z.shiftl_nonneg
               | apply byte_val_nonneg ].
Qed.

(** ** Pass 1 *)

Lemma checkInodes_body_spec img buf0 (n : nat) (s : state) :
  let inode := inodeSeen img buf0 n in
  let d := Z.to_nat (direct inode) in
  let r := checkInodes_body img (s, bufferAt img buf0 n) n in
  snd r = bufferAt img buf0 (S n) /\
  inodeBitmap (fst r) = inodeBitmap s /\
  dataBitmap (fst r) = dataBitmap s /\
  inodeUsed (fst r) =
    (if isValid inode then <[n := true]> (inodeUsed s) else inodeUsed s) /\
  blockRefCount (fst r) =
    (if isValid inode && (direct inode <? Z.of_nat MAX_DATA_BLOCKS)
     then <[d := blockRefCount s !!! d + 1]> (blockRefCount s)
     else blockRefCount s) /\
  exists L, stdout (fst r) = stdout s ++ L /\
            Forall (fun l => is_error l = true) L.
Proof.
  intros inode d r. unfold r, checkInodes_body.
  rewrite fetchInode_seen. fold inode. cbv zeta.
  rewrite (Z.ltb_antisym (Z.of_nat MAX_DATA_BLOCKS) (direct inode)).
  destruct (isValid inode); [destruct (Z.of_nat MAX_DATA_BLOCKS <=? direct inode)|];
    cbn [negb andb fst snd];
    unfold print_if;
    repeat match goal with
           | |- context [if ?c then _ else _] => destruct c
           end;
    cbn [fst snd inodeBitmap dataBitmap inodeUsed blockRefCount stdout
         printf set_fpos set_inodeUsed set_dataBlockUsed set_blockRefCount];
    repeat split; try reflexivity;
    eexists; (split; [rewrite <- ?app_assoc; try reflexivity;
                      symmetry; apply app_nil_r |]);
    repeat constructor.
Qed.

Lemma filter_seq_S (P : nat -> Prop) `{forall i, Decision (P i)} (n : nat) :
  length (filter P (seq 0 (S n))) =
  (length (filter P (seq 0 n)) + (if decide (P n) then 1 else 0))%nat.
Proof.
  rewrite seq_S, filter_app, length_app. simpl.
  rewrite filter_cons, filter_nil. destruct (decide (P n)); reflexivity.
Qed.

Lemma checkInodes_loop img buf0 (s : state) (n : nat) :
  let r := foldl (checkInodes_body img) (s, buf0) (seq 0 n) in
  snd r = bufferAt img buf0 n /\
  inodeBitmap (fst r) = inodeBitmap s /\
  dataBitmap (fst r) = dataBitmap s /\
  (forall j : nat,
     inodeUsed (fst r) !! j =
     if decide ((j < n)%nat /\ isValid (inodeSeen img buf0 j) = true)
     then (fun _ => true) <$> inodeUsed s !! j
     else inodeUsed s !! j) /\
  (forall b : nat, (b < MAX_DATA_BLOCKS)%nat ->
     blockRefCount (fst r) !! b =
     (fun c => c + Z.of_nat (length (filter (references img buf0 b) (seq 0 n))))
       <$> blockRefCount s !! b) /\
  exists L, stdout (fst r) = stdout s ++ L /\
            Forall (fun l => is_error l = true) L.
Proof.
  induction n as [|n IH].
  - simpl. repeat split.
    + intros b _. destruct (blockRefCount s !! b) as [c|]; simpl;
        [f_equal; lia | reflexivity].
    + exists []. split; [symmetry; apply app_nil_r | constructor].
  - cbv zeta. rewrite foldl_seq_S.
    destruct (foldl (checkInodes_body img) (s, buf0) (seq 0 n)) as [s1 b1].
    cbv zeta in IH. cbn [fst snd] in IH.
    destruct IH as (Hb & Hib & Hdb & Hused & Hrc & L & HL & HLerr).
    subst b1.
    destruct (checkInodes_body_spec img buf0 n s1)
      as (Hb' & Hib' & Hdb' & Hused' & Hrc' & L' & HL' & HLerr').
    cbv zeta in *.
    set (r := checkInodes_body img (s1, bufferAt img buf0 n) n) in *.
    split; [exact Hb'|]. split; [congruence|]. split; [congruence|].
    split; [|split].
    + intros j. rewrite Hused'.
      destruct (isValid (inodeSeen img buf0 n)) eqn:Hv.
      * destruct (decide (j = n)) as [->|Hne].
        -- rewrite decide_True by (split; [lia | exact Hv]).
           destruct (decide (n < length (inodeUsed s1))%nat) as [Hlt|Hge].
           ++ rewrite list_lookup_insert_eq by exact Hlt.
              destruct (lookup_lt_is_Some_2 _ _ Hlt) as [x Hx].
              rewrite Hused in Hx.
              destruct (inodeUsed s !! n); [reflexivity|].
              destruct (decide _); discriminate.
           ++ rewrite list_insert_ge by lia.
              rewrite Hused.
              assert (Hn : inodeUsed s1 !! n = None)
                by (apply lookup_ge_None_2; lia).
              rewrite Hused in Hn.
              destruct (decide _);
                destruct (inodeUsed s !! n); try discriminate; reflexivity.
        -- rewrite list_lookup_insert_ne by congruence. rewrite Hused.
           destruct (decide ((j < n)%nat /\ _)) as [[H1 H2]|N].
           ++ rewrite decide_True by (split; [lia | exact H2]). reflexivity.
           ++ rewrite decide_False; [reflexivity|].
              intros [H1 H2]. apply N. split; [lia | exact H2].
      * rewrite Hused.
        destruct (decide ((j < n)%nat /\ _)) as [[H1 H2]|N].
        -- rewrite decide_True by (split; [lia | exact H2]). reflexivity.
        -- rewrite decide_False; [reflexivity|].
           intros [H1 H2]. apply N. split; [|exact H2].
           destruct (decide (j = n)) as [->|]; [congruence | lia].
    + intros b Hlt. rewrite Hrc'. rewrite filter_seq_S.
      pose proof (le32_nonneg (bufferAt img buf0 (S n)) (inode_offset n + 40))
        as Hnn.
      change (le32 _ _) with (direct (inodeSeen img buf0 n)) in Hnn.
      destruct (isValid (inodeSeen img buf0 n)) eqn:Hv;
        [destruct (Z.ltb_spec (direct (inodeSeen img buf0 n))
                              (Z.of_nat MAX_DATA_BLOCKS)) as [Hd|Hd]|];
        cbn [andb].
      * destruct (decide (Z.to_nat (direct (inodeSeen img buf0 n)) = b))
          as [Heq|Hne].
        -- rewrite decide_True by (split; [exact Hv | lia]).
           rewrite Heq.
           destruct (decide (b < length (blockRefCount s1))%nat) as [Hl|Hl].
           ++ rewrite list_lookup_insert_eq by exact Hl.
              destruct (lookup_lt_is_Some_2 _ _ Hl) as [x Hx].
              rewrite (list_lookup_total_correct _ _ _ Hx).
              rewrite (Hrc b Hlt) in Hx.
              destruct (blockRefCount s !! b) as [c|]; [|discriminate].
              simpl in Hx. injection Hx as <-. simpl. f_equal. lia.
           ++ rewrite list_insert_ge by lia.
              assert (Hn : blockRefCount s1 !! b = None)
                by (apply lookup_ge_None_2; lia).
              rewrite Hn. rewrite (Hrc b Hlt) in Hn.
              destruct (blockRefCount s !! b); [discriminate | reflexivity].
        -- rewrite list_lookup_insert_ne by exact Hne.
           rewrite decide_False by (intros [_ H2]; lia).
           rewrite (Hrc b Hlt), Nat.add_0_r. reflexivity.
      * rewrite decide_False by (intros [_ H2]; lia).
        rewrite (Hrc b Hlt), Nat.add_0_r. reflexivity.
      * rewrite decide_False by (intros [H1 _]; congruence).
        rewrite (Hrc b Hlt), Nat.add_0_r. reflexivity.
    + exists (L ++ L'). split.
      * rewrite HL', HL, app_assoc. reflexivity.
      * apply Forall_app. split; assumption.
Qed.

(** ** Passes that only print *)

Lemma same_arrays_refl s : same_arrays s s.
Proof. repeat split. Qed.

Lemma same_arrays_trans s1 s2 s3 :
  same_arrays s1 s2 -> same_arrays s2 s3 -> same_arrays s1 s3.
Proof. unfold same_arrays. intuition congruence. Qed.

Lemma same_arrays_printf l s : same_arrays s (printf l s).
Proof. repeat split. Qed.

Lemma same_arrays_print_if c l s : same_arrays s (print_if c l s).
Proof. destruct c; repeat split. Qed.

Lemma same_arrays_set_fpos p s : same_arrays s (set_fpos p s).
Proof. repeat split. Qed.

Lemma fpos_print_if c l s : fpos (print_if c l s) = fpos s.
Proof. destruct c; reflexivity. Qed.

Lemma In_cond (c : bool) (x l : line) :
  In l (if c then [x] else []) <-> c = true /\ l = x.
Proof.
  destruct c; simpl; split.
  - intros [H|[]]. split; [reflexivity | congruence].
  - intros [_ H]. left. congruence.
  - intros [].
  - intros [H _]. discriminate.
Qed.

(** *** Pass 2 *)

Lemma checkDataBitmap_body_spec (s : state) (i : nat) :
  let r := checkDataBitmap_body s i in
  same_arrays s r /\ fpos r = fpos s /\
  exists L, stdout r = stdout s ++ L /\
            forall l, In l L <-> pass2_finding s i l.
Proof.
  cbv zeta. unfold checkDataBitmap_body.
  set (c1 := dataBitmap s !!! i && negb (dataBlockUsed s !!! i)).
  set (s1 := print_if c1 (ErrDataMarkedUnref i) s).
  pose proof (same_arrays_print_if c1 (ErrDataMarkedUnref i) s) as A1.
  fold s1 in A1. destruct A1 as (E1 & E2 & E3 & E4 & E5).
  rewrite E1, E2.
  set (c2 := negb (dataBitmap s !!! i) && dataBlockUsed s !!! i).
  set (s2 := print_if c2 (ErrDataUsedUnmarked i) s1).
  pose proof (same_arrays_print_if c2 (ErrDataUsedUnmarked i) s1) as A2.
  fold s2 in A2. destruct A2 as (F1 & F2 & F3 & F4 & F5).
  rewrite F3, E3.
  set (c3 := 1 <? blockRefCount s !!! i).
  split; [|split].
  - eapply same_arrays_trans; [|apply same_arrays_print_if].
    eapply same_arrays_trans; [|apply same_arrays_print_if].
    apply same_arrays_print_if.
  - unfold s2, s1. rewrite !fpos_print_if. reflexivity.
  - exists ((if c1 then [ErrDataMarkedUnref i] else [])
            ++ (if c2 then [ErrDataUsedUnmarked i] else [])
            ++ (if c3 then [ErrDataMultiRef i] else [])).
    split.
    + rewrite !stdout_print_if. unfold s2, s1. rewrite !stdout_print_if.
      rewrite <- !app_assoc. reflexivity.
    + intros l. rewrite !in_app_iff, !In_cond. unfold pass2_finding, c1, c2, c3.
      rewrite !andb_true_iff, !negb_true_iff, Z.ltb_lt.
      destruct (dataBitmap s !!! i), (dataBlockUsed s !!! i); intuition congruence.
Qed.

Lemma checkDataBitmap_loop (s : state) (n : nat) :
  let r := foldl checkDataBitmap_body s (seq 0 n) in
  same_arrays s r /\ fpos r = fpos s /\
  exists L, stdout r = stdout s ++ L /\
            forall l, In l L <-> exists i, (i < n)%nat /\ pass2_finding s i l.
Proof.
  induction n as [|n IH].
  - simpl. split; [apply same_arrays_refl|]. split; [reflexivity|].
    exists []. split; [symmetry; apply app_nil_r|].
    intros l. split; [intros [] | intros (i & Hi & _); lia].
  - cbv zeta. rewrite foldl_seq_S.
    set (r := foldl checkDataBitmap_body s (seq 0 n)) in *.
    destruct IH as (HA & HP & L & HL & HIn).
    destruct (checkDataBitmap_body_spec r n) as (HA' & HP' & L' & HL' & HIn').
    split; [eapply same_arrays_trans; eassumption|].
    split; [congruence|].
    exists (L ++ L'). split; [rewrite HL', HL, app_assoc; reflexivity|].
    intros l. rewrite in_app_iff, HIn, HIn'.
    assert (Hsame : pass2_finding r n l <-> pass2_finding s n l).
    { unfold pass2_finding. destruct HA as (-> & -> & -> & _). reflexivity. }
    rewrite Hsame. split.
    + intros [(i & Hi & Hf) | Hf]; [exists i | exists n]; (split; [lia | exact Hf]).
    + intros (i & Hi & Hf). destruct (decide (i = n)) as [->|Hne].
      * right. exact Hf.
      * left. exists i. split; [lia | exact Hf].
Qed.

Lemma checkDataBitmap_spec (s : state) :
  let r := checkDataBitmap s in
  same_arrays s r /\ fpos r = fpos s /\
  exists L, stdout r = stdout s ++ L /\
            forall l, In l L <->
                      exists i, (i < MAX_DATA_BLOCKS)%nat /\ pass2_finding s i l.
Proof. exact (checkDataBitmap_loop s MAX_DATA_BLOCKS). Qed.

(** *** Pass 3 *)

Lemma checkInodeBitmap_body_spec (s : state) (errorCount : Z) (i : nat) :
  let r := checkInodeBitmap_body (s, errorCount) i in
  same_arrays s (fst r) /\ fpos (fst r) = fpos s /\
  exists L, stdout (fst r) = stdout s ++ L /\
            snd r = errorCount + Z.of_nat (length L) /\
            forall l, In l L <-> pass3_finding s i l.
Proof.
  cbv zeta. unfold checkInodeBitmap_body.
  pose (c1 := inodeBitmap s !!! i && negb (inodeUsed s !!! i)).
  pose (c2 := negb (inodeBitmap s !!! i) && inodeUsed s !!! i).
  assert (Hmem : forall l,
             In l ((if c1 then [ErrInodeMarkedUnused i] else [])
                   ++ (if c2 then [ErrInodeUsedUnmarked i] else []))
             <-> pass3_finding s i l).
  { intros l. rewrite in_app_iff, !In_cond. unfold pass3_finding, c1, c2.
    rewrite !andb_true_iff, !negb_true_iff.
    destruct (inodeBitmap s !!! i), (inodeUsed s !!! i); intuition congruence. }
  fold c1. destruct c1;
    cbn [inodeBitmap inodeUsed printf]; fold c2; destruct c2;
    cbn [fst snd]; (split; [repeat split|]); (split; [reflexivity|]);
    eexists; (split; [cbn [stdout printf]; rewrite <- ?app_assoc;
                      first [reflexivity | symmetry; apply app_nil_r]|]);
    (split; [cbn [length app]; lia | exact Hmem]).
Qed.

Lemma checkInodeBitmap_loop (s : state) (n : nat) :
  let r := foldl checkInodeBitmap_body (s, 0) (seq 0 n) in
  same_arrays s (fst r) /\ fpos (fst r) = fpos s /\
  exists L, stdout (fst r) = stdout s ++ L /\
            snd r = Z.of_nat (length L) /\
            forall l, In l L <-> exists i, (i < n)%nat /\ pass3_finding s i l.
Proof.
  induction n as [|n IH].
  - simpl. split; [apply same_arrays_refl|]. split; [reflexivity|].
    exists []. split; [symmetry; apply app_nil_r|]. split; [reflexivity|].
    intros l. split; [intros [] | intros (i & Hi & _); lia].
  - cbv zeta. rewrite foldl_seq_S.
    destruct (foldl checkInodeBitmap_body (s, 0) (seq 0 n)) as [r ec].
    cbv zeta in IH. cbn [fst snd] in IH.
    destruct IH as (HA & HP & L & HL & Hec & HIn).
    destruct (checkInodeBitmap_body_spec r ec n)
      as (HA' & HP' & L' & HL' & Hec' & HIn').
    cbv zeta in *.
    split; [eapply same_arrays_trans; eassumption|].
    split; [congruence|].
    exists (L ++ L'). split; [rewrite HL', HL, app_assoc; reflexivity|].
    split; [rewrite Hec', Hec, length_app; lia|].
    intros l. rewrite in_app_iff, HIn, HIn'.
    assert (Hsame : pass3_finding r n l <-> pass3_finding s n l).
    { unfold pass3_finding. destruct HA as (_ & _ & _ & -> & ->). reflexivity. }
    rewrite Hsame. split.
    + intros [(i & Hi & Hf) | Hf]; [exists i | exists n]; (split; [lia | exact Hf]).
    + intros (i & Hi & Hf). destruct (decide (i = n)) as [->|Hne].
      * right. exact Hf.
      * left. exists i. split; [lia | exact Hf].
Qed.

(** Pass 3 prints its findings, or the success line when there are none. *)
Lemma checkInodeBitmap_spec (s : state) :
  let r := checkInodeBitmap s in
  same_arrays s r /\ fpos r = fpos s /\
  exists L, stdout r = stdout s ++ L ++ (if L is [] then [OkInodeBitmap] else [])
            /\ forall l, In l L <->
                         exists i, (i < MAX_INODES)%nat /\ pass3_finding s i l.
Proof.
  cbv zeta. unfold checkInodeBitmap.
  destruct (checkInodeBitmap_loop s MAX_INODES) as (HA & HP & L & HL & Hec & HIn).
  destruct (foldl checkInodeBitmap_body (s, 0) (seq 0 MAX_INODES)) as [r ec].
  cbn [fst snd] in *.
  split; [eapply same_arrays_trans; [exact HA | apply same_arrays_print_if]|].
  split; [rewrite fpos_print_if; exact HP|].
  exists L. split; [|exact HIn].
  rewrite stdout_print_if, HL, <- app_assoc. do 2 f_equal.
  rewrite Hec. destruct L; reflexivity.
Qed.

(** *** Pass 4 *)

Lemma checkDuplicateBlocks_body_spec (s : state) (duplicateFound : bool)
    (i : nat) :
  let r := checkDuplicateBlocks_body (s, duplicateFound) i in
  same_arrays s (fst r) /\ fpos (fst r) = fpos s /\
  exists L, stdout (fst r) = stdout s ++ L /\
            snd r = (if L is [] then duplicateFound else true) /\
            forall l, In l L <-> pass4_finding s i l.
Proof.
  cbv zeta. unfold checkDuplicateBlocks_body, pass4_finding.
  destruct (Z.ltb_spec 1 (blockRefCount s !!! i)) as [H|H]; cbn [fst snd].
  - split; [repeat split|]. split; [reflexivity|].
    exists [ErrDataMultiRef i]. split; [reflexivity|]. split; [reflexivity|].
    intros l. simpl. intuition congruence.
  - split; [repeat split|]. split; [reflexivity|].
    exists []. split; [symmetry; apply app_nil_r|]. split; [reflexivity|].
    intros l. simpl. intuition lia.
Qed.

Lemma checkDuplicateBlocks_loop (s : state) (n : nat) :
  let r := foldl checkDuplicateBlocks_body (s, false) (seq 0 n) in
  same_arrays s (fst r) /\ fpos (fst r) = fpos s /\
  exists L, stdout (fst r) = stdout s ++ L /\
            snd r = (if L is [] then false else true) /\
            forall l, In l L <-> exists i, (i < n)%nat /\ pass4_finding s i l.
Proof.
  induction n as [|n IH].
  - simpl. split; [apply same_arrays_refl|]. split; [reflexivity|].
    exists []. split; [symmetry; apply app_nil_r|]. split; [reflexivity|].
    intros l. split; [intros [] | intros (i & Hi & _); lia].
  - cbv zeta. rewrite foldl_seq_S.
    destruct (foldl checkDuplicateBlocks_body (s, false) (seq 0 n)) as [r df].
    cbv zeta in IH. cbn [fst snd] in IH.
    destruct IH as (HA & HP & L & HL & Hdf & HIn).
    destruct (checkDuplicateBlocks_body_spec r df n)
      as (HA' & HP' & L' & HL' & Hdf' & HIn').
    cbv zeta in *.
    split; [eapply same_arrays_trans; eassumption|].
    split; [congruence|].
    exists (L ++ L'). split; [rewrite HL', HL, app_assoc; reflexivity|].
    split; [rewrite Hdf', Hdf; destruct L, L'; reflexivity|].
    intros l. rewrite in_app_iff, HIn, HIn'.
    assert (Hsame : pass4_finding r n l <-> pass4_finding s n l).
    { unfold pass4_finding. destruct HA as (_ & _ & -> & _). reflexivity. }
    rewrite Hsame. split.
    + intros [(i & Hi & Hf) | Hf]; [exists i | exists n]; (split; [lia | exact Hf]).
    + intros (i & Hi & Hf). destruct (decide (i = n)) as [->|Hne].
      * right. exact Hf.
      * left. exists i. split; [lia | exact Hf].
Qed.

(** Pass 4 prints its findings, or the success line when there are none. *)
Lemma checkDuplicateBlocks_spec (s : state) :
  let r := checkDuplicateBlocks s in
  same_arrays s r /\ fpos r = fpos s /\
  exists L, stdout r = stdout s ++ L ++ (if L is [] then [OkNoDuplicates] else [])
            /\ forall l, In l L <->
                         exists i, (i < MAX_DATA_BLOCKS)%nat /\
                                   pass4_finding s i l.
Proof.
  cbv zeta. unfold checkDuplicateBlocks.
  destruct (checkDuplicateBlocks_loop s MAX_DATA_BLOCKS)
    as (HA & HP & L & HL & Hdf & HIn).
  destruct (foldl checkDuplicateBlocks_body (s, false) (seq 0 MAX_DATA_BLOCKS))
    as [r df].
  cbn [fst snd] in *.
  split; [eapply same_arrays_trans; [exact HA | apply same_arrays_print_if]|].
  split; [rewrite fpos_print_if; exact HP|].
  exists L. split; [|exact HIn].
  rewrite stdout_print_if, HL, <- app_assoc. do 2 f_equal.
  rewrite Hdf. destruct L; reflexivity.
Qed.

(** *** Pass 5 *)

Lemma checkBadBlocks_body_spec img buf0 (s : state) (badBlockFound : bool)
    (n : nat) :
  let r := checkBadBlocks_body img (s, bufferAt img buf0 n, badBlockFound) n in
  snd (fst r) = bufferAt img buf0 (S n) /\
  same_arrays s (fst (fst r)) /\
  exists L, stdout (fst (fst r)) = stdout s ++ L /\
            snd r = (if L is [] then badBlockFound else true) /\
            forall l, In l L <-> pass5_finding (inodeSeen img buf0 n) n l.
Proof.
  cbv zeta. unfold checkBadBlocks_body. rewrite fetchInode_seen.
  set (inode := inodeSeen img buf0 n).
  pose (c1 := Z.of_nat MAX_DATA_BLOCKS <=? direct inode).
  pose (c2 := (Z.of_nat MAX_DATA_BLOCKS <=? indirect inode)
              && negb (indirect inode =? 0)).
  pose (c3 := (Z.of_nat MAX_DATA_BLOCKS <=? doubleIndirect inode)
              && negb (doubleIndirect inode =? 0)).
  pose (c4 := (Z.of_nat MAX_DATA_BLOCKS <=? tripleIndirect inode)
              && negb (tripleIndirect inode =? 0)).
  assert (Hmem : forall l,
             In l (if isValid inode then
                     (if c1 then [ErrInvalidDirect n (direct inode)] else [])
                     ++ (if c2 then [ErrInvalidIndirect n (indirect inode)] else [])
                     ++ (if c3 then [ErrInvalidDouble n (doubleIndirect inode)]
                         else [])
                     ++ (if c4 then [ErrInvalidTriple n (tripleIndirect inode)]
                         else [])
                   else [])
             <-> pass5_finding inode n l).
  { intros l. unfold pass5_finding. destruct (isValid inode).
    - rewrite !in_app_iff, !In_cond. unfold c1, c2, c3, c4.
      rewrite !andb_true_iff, !negb_true_iff, !Z.leb_le, !Z.eqb_neq.
      intuition congruence.
    - simpl. intuition congruence. }
  fold c1 c2 c3 c4. cbv zeta.
  destruct (isValid inode); cbn [negb].
  - destruct c1, c2, c3, c4; cbn [fst snd];
      (split; [reflexivity|]); (split; [repeat split|]);
      eexists; (split; [cbn [stdout printf set_fpos]; rewrite <- ?app_assoc;
                        first [reflexivity | symmetry; apply app_nil_r]|]);
      (split; [reflexivity | exact Hmem]).
  - cbn [fst snd]. split; [reflexivity|]. split; [repeat split|].
    exists []. split; [symmetry; apply app_nil_r|].
    split; [reflexivity | exact Hmem].
Qed.

Lemma checkBadBlocks_loop img buf0 (s : state) (n : nat) :
  let r := foldl (checkBadBlocks_body img) (s, buf0, false) (seq 0 n) in
  snd (fst r) = bufferAt img buf0 n /\
  same_arrays s (fst (fst r)) /\
  exists L, stdout (fst (fst r)) = stdout s ++ L /\
            snd r = (if L is [] then false else true) /\
            forall l, In l L <->
                      exists i, (i < n)%nat /\
                                pass5_finding (inodeSeen img buf0 i) i l.
Proof.
  induction n as [|n IH].
  - simpl. split; [reflexivity|]. split; [apply same_arrays_refl|].
    exists []. split; [symmetry; apply app_nil_r|]. split; [reflexivity|].
    intros l. split; [intros [] | intros (i & Hi & _); lia].
  - cbv zeta. rewrite foldl_seq_S.
    destruct (foldl (checkBadBlocks_body img) (s, buf0, false) (seq 0 n))
      as [[r b] bad].
    cbv zeta in IH. cbn [fst snd] in IH.
    destruct IH as (Hb & HA & L & HL & Hbad & HIn). subst b.
    destruct (checkBadBlocks_body_spec img buf0 r bad n)
      as (Hb' & HA' & L' & HL' & Hbad' & HIn').
    cbv zeta in *.
    split; [exact Hb'|].
    split; [eapply same_arrays_trans; eassumption|].
    exists (L ++ L'). split; [rewrite HL', HL, app_assoc; reflexivity|].
    split; [rewrite Hbad', Hbad; destruct L, L'; reflexivity|].
    intros l. rewrite in_app_iff, HIn, HIn'. split.
    + intros [(i & Hi & Hf) | Hf]; [exists i | exists n]; (split; [lia | exact Hf]).
    + intros (i & Hi & Hf). destruct (decide (i = n)) as [->|Hne].
      * right. exact Hf.
      * left. exists i. split; [lia | exact Hf].
Qed.

(** Pass 5 prints its findings, or the success line when there are none. *)
Lemma checkBadBlocks_spec img blockBuffer (s : state) :
  let r := checkBadBlocks img blockBuffer s in
  same_arrays s r /\
  exists L, stdout r = stdout s ++ L ++ (if L is [] then [OkNoBadBlocks] else [])
            /\ forall l, In l L <->
                         exists i, (i < MAX_INODES)%nat /\
                                   pass5_finding (inodeSeen img blockBuffer i) i l.
Proof.
  cbv zeta. unfold checkBadBlocks.
  destruct (checkBadBlocks_loop img blockBuffer s MAX_INODES)
    as (_ & HA & L & HL & Hbad & HIn).
  destruct (foldl (checkBadBlocks_body img) (s, blockBuffer, false)
                  (seq 0 MAX_INODES)) as [[r b] bad].
  cbn [fst snd] in *.
  split; [eapply same_arrays_trans; [exact HA | apply same_arrays_print_if]|].
  exists L. split; [|exact HIn].
  rewrite stdout_print_if, HL, <- app_assoc. do 2 f_equal.
  rewrite Hbad. destruct L; reflexivity.
Qed.

(** ** Superblock validation *)

Lemma sublist_cond (c : bool) (x : line) (l1 l2 : list line) :
  sublist l1 l2 -> sublist ((if c then [x] else []) ++ l1) (x :: l2).
Proof.
  intros H. destruct c; simpl.
  - apply sublist_skip. exact H.
  - apply sublist_cons. exact H.
Qed.

Lemma readSuperblock_spec img superblock (s : state) :
  let r := readSuperblock img superblock s in
  let sb := Superblock_at (fst r) in
  fst r = fst (readBlock img SUPERBLOCK_BLOCK_NO superblock (fpos s)) /\
  same_arrays s (snd r) /\
  exists L, stdout (snd r) = stdout s ++ L /\
    sublist L superblock_checks /\
    (In ErrMagic L <-> magic sb <> 0xD34D) /\
    (In ErrBlockSize L <-> blockSize sb <> Z.of_nat BLOCK_SIZE) /\
    (In ErrTotalBlocks L <-> totalBlocks sb <> Z.of_nat TOTAL_BLOCKS) /\
    (In ErrPointers L <->
       inodeBitmapBlock sb <> INODE_BITMAP_BLOCK_NO \/
       dataBitmapBlock sb <> DATA_BITMAP_BLOCK_NO \/
       inodeTableStart sb <> Z.of_nat INODE_TABLE_START_BLOCK \/
       dataBlockStart sb <> Z.of_nat DATA_BLOCK_START) /\
    (In ErrInodeSize L <-> inodeSize sb <> Z.of_nat INODE_SIZE) /\
    (In ErrInodeCount L <-> Z.of_nat MAX_INODES < inodeCount sb).
Proof.
  cbv zeta. unfold readSuperblock.
  destruct (readBlock img SUPERBLOCK_BLOCK_NO superblock (fpos s)) as [buf pos].
  cbn [fst snd]. set (sb := Superblock_at buf).
  split; [reflexivity|]. split.
  { repeat (eapply same_arrays_trans; [|apply same_arrays_print_if]).
    apply same_arrays_set_fpos. }
  eexists. split.
  { rewrite !stdout_print_if. cbn [stdout set_fpos].
    rewrite <- !app_assoc. reflexivity. }
  split.
  { unfold superblock_checks. repeat apply sublist_cond.
    destruct (_ <? _); [reflexivity|].
    apply sublist_cons. constructor. }
  rewrite !in_app_iff, !In_cond.
  rewrite !orb_true_iff, !negb_true_iff, !Z.eqb_neq, Z.ltb_lt.
  repeat match goal with |- _ /\ _ => split end;
    (split;
     [ intros H; repeat (destruct H as [H|H]); destruct H as [H E];
       first [discriminate E | tauto]
     | intros H;
       repeat first [ left; split; [tauto | reflexivity]
                    | split; [tauto | reflexivity]
                    | right ] ]).
Qed.

(** ** The phases of a run *)

Lemma stdout_emitted s s' :
  (exists L, stdout s' = stdout s ++ L) -> stdout s' = stdout s ++ emitted s s'.
Proof. intros [L H]. rewrite (emitted_app _ _ _ H). exact H. Qed.

Lemma after_readSuperblock_stdout img stk :
  stdout (after_readSuperblock img stk) =
  superblock_lines img stk ++ [BannerSuperblock].
Proof.
  unfold after_readSuperblock, superblock_lines. cbn [stdout printf].
  destruct (readSuperblock_spec img (stack_superblock stk) initial_state)
    as (_ & _ & L & HL & _).
  cbv zeta in HL. rewrite (emitted_app _ _ _ HL), HL. reflexivity.
Qed.

Lemma after_readSuperblock_arrays img stk :
  same_arrays initial_state (after_readSuperblock img stk).
Proof.
  unfold after_readSuperblock.
  destruct (readSuperblock_spec img (stack_superblock stk) initial_state)
    as (_ & HA & _).
  eapply same_arrays_trans; [exact HA | apply same_arrays_printf].
Qed.

Lemma main_loadBitmaps_spec img stk (s : state) :
  let r := main_loadBitmaps img stk s in
  dataBlockUsed r = dataBlockUsed s /\
  blockRefCount r = blockRefCount s /\
  inodeUsed r = inodeUsed s /\
  stdout r = stdout s ++ [BannerBitmaps].
Proof.
  cbv zeta. unfold main_loadBitmaps.
  destruct (loadBitmap img INODE_BITMAP_BLOCK_NO _ _ _ _) as [bm1 p1].
  destruct (loadBitmap img DATA_BITMAP_BLOCK_NO _ _ _ _) as [bm2 p2].
  repeat split.
Qed.

Lemma after_loadBitmaps_stdout img stk :
  stdout (after_loadBitmaps img stk) =
  superblock_lines img stk ++ [BannerSuperblock; BannerBitmaps].
Proof.
  unfold after_loadBitmaps.
  destruct (main_loadBitmaps_spec img stk (after_readSuperblock img stk))
    as (_ & _ & _ & H).
  rewrite H, after_readSuperblock_stdout, <- app_assoc. reflexivity.
Qed.

(** The bitmaps are loaded; the three arrays of observations are still as
    the loader zeroed them. *)
Lemma after_loadBitmaps_arrays img stk :
  dataBlockUsed (after_loadBitmaps img stk) = replicate MAX_DATA_BLOCKS false /\
  blockRefCount (after_loadBitmaps img stk) = replicate MAX_DATA_BLOCKS 0 /\
  inodeUsed (after_loadBitmaps img stk) = replicate MAX_INODES false.
Proof.
  unfold after_loadBitmaps.
  destruct (main_loadBitmaps_spec img stk (after_readSuperblock img stk))
    as (H1 & H2 & H3 & _).
  destruct (after_readSuperblock_arrays img stk) as (_ & E1 & E2 & _ & E3).
  rewrite H1, H2, H3, E1, E2, E3. repeat split.
Qed.

Lemma checkInodes_spec img blockBuffer (s : state) :
  let r := checkInodes img blockBuffer s in
  inodeBitmap r = inodeBitmap s /\
  dataBitmap r = dataBitmap s /\
  (forall j : nat,
     inodeUsed r !! j =
     if decide ((j < MAX_INODES)%nat /\
                isValid (inodeSeen img blockBuffer j) = true)
     then (fun _ => true) <$> inodeUsed s !! j
     else inodeUsed s !! j) /\
  (forall b : nat, (b < MAX_DATA_BLOCKS)%nat ->
     blockRefCount r !! b =
     (fun c => c + Z.of_nat (referrers img blockBuffer b))
       <$> blockRefCount s !! b) /\
  exists L, stdout r = stdout s ++ L /\
            Forall (fun l => is_error l = true) L.
Proof.
  cbv zeta. unfold checkInodes, referrers.
  destruct (checkInodes_loop img blockBuffer s MAX_INODES) as (_ & H).
  exact H.
Qed.

Lemma after_checkInodes_stdout img stk :
  stdout (after_checkInodes img stk) =
  stdout (after_loadBitmaps img stk) ++ pass1_lines img stk ++ [BannerInodes].
Proof.
  unfold after_checkInodes, pass1_lines. cbn [stdout printf].
  destruct (checkInodes_spec img (stack_checkInodes stk)
                             (after_loadBitmaps img stk))
    as (_ & _ & _ & _ & L & HL & _).
  cbv zeta in HL. rewrite (emitted_app _ _ _ HL), HL, <- app_assoc.
  reflexivity.
Qed.

Lemma after_checkInodeBitmap_stdout img stk :
  stdout (after_checkInodeBitmap img stk) =
  stdout (after_checkInodes img stk) ++ pass3_lines img stk.
Proof.
  unfold pass3_lines. apply stdout_emitted. unfold after_checkInodeBitmap.
  destruct (checkInodeBitmap_spec (after_checkInodes img stk))
    as (_ & _ & L & HL & _).
  eexists. exact HL.
Qed.

Lemma after_checkDataBitmap_stdout img stk :
  stdout (after_checkDataBitmap img stk) =
  stdout (after_checkInodeBitmap img stk) ++ pass2_lines img stk
    ++ [BannerBitmapChecks].
Proof.
  unfold after_checkDataBitmap, pass2_lines. cbn [stdout printf].
  destruct (checkDataBitmap_spec (after_checkInodeBitmap img stk))
    as (_ & _ & L & HL & _).
  cbv zeta in HL.
  rewrite (emitted_app _ _ _ HL), HL, <- app_assoc. reflexivity.
Qed.

Lemma after_checkDuplicateBlocks_stdout img stk :
  stdout (after_checkDuplicateBlocks img stk) =
  stdout (after_checkDataBitmap img stk) ++ pass4_lines img stk.
Proof.
  unfold pass4_lines. apply stdout_emitted. unfold after_checkDuplicateBlocks.
  destruct (checkDuplicateBlocks_spec (after_checkDataBitmap img stk))
    as (_ & _ & L & HL & _).
  eexists. exact HL.
Qed.

Lemma after_checkBadBlocks_stdout img stk :
  stdout (after_checkBadBlocks img stk) =
  stdout (after_checkDuplicateBlocks img stk) ++ pass5_lines img stk
    ++ [BannerBlockRefs].
Proof.
  unfold after_checkBadBlocks, pass5_lines. cbn [stdout printf].
  destruct (checkBadBlocks_spec img (stack_checkBadBlocks stk)
                                (after_checkDuplicateBlocks img stk))
    as (_ & L & HL & _).
  cbv zeta in HL. rewrite (emitted_app _ _ _ HL), HL, <- !app_assoc.
  reflexivity.
Qed.

(** The whole of standard output, phase by phase, in the order [main] calls
    the phases. *)
Lemma run_stdout img stk :
  stdout (after_checkBadBlocks img stk) =
  superblock_lines img stk ++ [BannerSuperblock; BannerBitmaps]
  ++ pass1_lines img stk ++ [BannerInodes]
  ++ pass3_lines img stk ++ pass2_lines img stk ++ [BannerBitmapChecks]
  ++ pass4_lines img stk ++ pass5_lines img stk ++ [BannerBlockRefs].
Proof.
  rewrite after_checkBadBlocks_stdout, after_checkDuplicateBlocks_stdout,
    after_checkDataBitmap_stdout, after_checkInodeBitmap_stdout,
    after_checkInodes_stdout, after_loadBitmaps_stdout.
  rewrite <- !app_assoc. reflexivity.
Qed.

(** ** Inodes of an image that holds the whole inode table *)

Lemma at_ext (buf1 buf2 : list byte) (k1 k2 : nat) :
  buf1 !! k1 = buf2 !! k2 -> at_ buf1 k1 = at_ buf2 k2.
Proof.
  intros H. unfold at_. rewrite !list_lookup_total_alt, H. reflexivity.
Qed.

Lemma le32_ext (buf1 buf2 : list byte) (off1 off2 : nat) :
  (forall k, (k < 4)%nat -> buf1 !! (off1 + k)%nat = buf2 !! (off2 + k)%nat) ->
  le32 buf1 off1 = le32 buf2 off2.
Proof.
  intros H. unfold le32.
  rewrite (at_ext buf1 buf2 off1 off2)
    by (rewrite <- (Nat.add_0_r off1), <- (Nat.add_0_r off2); apply H; lia).
  rewrite (at_ext buf1 buf2 (off1 + 1) (off2 + 1)) by (apply H; lia).
  rewrite (at_ext buf1 buf2 (off1 + 2) (off2 + 2)) by (apply H; lia).
  rewrite (at_ext buf1 buf2 (off1 + 3) (off2 + 3)) by (apply H; lia).
  reflexivity.
Qed.

Lemma memcpy_Inode_ext (buf1 buf2 : list byte) (off1 off2 : nat) :
  (forall k, (k < INODE_SIZE)%nat ->
             buf1 !! (off1 + k)%nat = buf2 !! (off2 + k)%nat) ->
  memcpy_Inode buf1 off1 = memcpy_Inode buf2 off2.
Proof.
  intros H. unfold memcpy_Inode.
  assert (F : forall a, (a + 4 <= INODE_SIZE)%nat ->
                        le32 buf1 (off1 + a) = le32 buf2 (off2 + a)).
  { intros a Ha. apply le32_ext. intros k Hk.
    rewrite <- !Nat.add_assoc. apply H. lia. }
  assert (R : take 156 (drop (off1 + 56) buf1) = take 156 (drop (off2 + 56) buf2)).
  { apply list_eq. intros j. rewrite !lookup_take.
    destruct (decide (j < 156)%nat) as [Hj|]; [|reflexivity].
    rewrite !lookup_drop, <- !Nat.add_assoc. apply H.
    unfold INODE_SIZE. lia. }
  rewrite R.
  rewrite (le32_ext buf1 buf2 off1 off2)
    by (intros k Hk; apply H; unfold INODE_SIZE; lia).
  rewrite !F by (unfold INODE_SIZE; lia).
  reflexivity.
Qed.

(** When the image holds blocks 0 to 7 in full, every iteration of an inode
    loop decodes the record stored in its slot of the table, whatever the
    local buffer held. *)
Lemma inodeSeen_complete img blockBuffer (i : nat) :
  (DATA_BLOCK_START * BLOCK_SIZE <= length img)%nat ->
  (i < MAX_INODES)%nat ->
  inodeSeen img blockBuffer i = inodeAt img i.
Proof.
  intros Hlen Hi. unfold inodeSeen, inodeAt.
  rewrite bufferAt_S. unfold inode_blockNum. rewrite readBlock_nonneg.
  cbv zeta. unfold fst.
  set (q := ((i * INODE_SIZE) / BLOCK_SIZE)%nat).
  assert (Hq : (q < INODE_TABLE_BLOCKS)%nat).
  { apply Nat.Div0.div_lt_upper_bound.
    unfold MAX_INODES, INODES_PER_BLOCK, INODE_TABLE_BLOCKS, INODE_SIZE,
      BLOCK_SIZE in *.
    change (4096 / 256)%nat with 16%nat in Hi. lia. }
  pose proof (Nat.div_mod_eq (i * INODE_SIZE) BLOCK_SIZE) as Hdm.
  fold q in Hdm. fold (inode_offset i) in Hdm.
  assert (Hoff : (inode_offset i + INODE_SIZE <= BLOCK_SIZE)%nat).
  { unfold inode_offset.
    change BLOCK_SIZE with (16 * INODE_SIZE)%nat.
    rewrite Nat.Div0.mul_mod_distr_r.
    pose proof (Nat.mod_upper_bound i 16).
    unfold INODE_SIZE. lia. }
  set (got := take BLOCK_SIZE (drop ((INODE_TABLE_START_BLOCK + q) * BLOCK_SIZE) img)).
  assert (Hgot : length got = BLOCK_SIZE).
  { unfold got. rewrite length_take, length_drop.
    unfold INODE_TABLE_START_BLOCK, INODE_TABLE_BLOCKS, DATA_BLOCK_START,
      BLOCK_SIZE in *. lia. }
  apply memcpy_Inode_ext. intros k Hk.
  rewrite lookup_app_l by lia.
  unfold got. rewrite lookup_take.
  destruct (decide (inode_offset i + k < BLOCK_SIZE)%nat) as [_|N]; [|lia].
  rewrite !lookup_drop. f_equal.
  unfold INODE_TABLE_START_BLOCK, BLOCK_SIZE in *. lia.
Qed.

Lemma filter_ext_in {A} (P Q : A -> Prop) `{forall x, Decision (P x)}
    `{forall x, Decision (Q x)} (l : list A) :
  (forall x, In x l -> (P x <-> Q x)) -> filter P l = filter Q l.
Proof.
  induction l as [|x l IH]; intros Hl; [reflexivity|].
  rewrite !filter_cons.
  rewrite IH by (intros y Hy; apply Hl; right; exact Hy).
  destruct (Hl x (or_introl eq_refl)) as [H1 H2].
  destruct (decide (P x)), (decide (Q x)); tauto || reflexivity.
Qed.

Lemma referrers_complete img blockBuffer (b : nat) :
  (DATA_BLOCK_START * BLOCK_SIZE <= length img)%nat ->
  referrers img blockBuffer b = referrers_at img b.
Proof.
  intros Hlen. unfold referrers, referrers_at. f_equal.
  apply filter_ext_in. intros i Hi. apply in_seq in Hi.
  unfold references, references_at.
  rewrite (inodeSeen_complete img blockBuffer i Hlen) by lia.
  reflexivity.
Qed.

(** ** Sizes of the concrete images *)

Lemma length_padded (n : nat) (prefix : list byte) :
  (length prefix <= n)%nat -> length (padded n prefix) = n.
Proof.
  intros H. unfold padded, zeros. rewrite length_app, length_replicate. lia.
Qed.

Lemma length_image (sb ibm dbm table : list byte) :
  (length sb <= BLOCK_SIZE)%nat -> (length ibm <= BLOCK_SIZE)%nat ->
  (length dbm <= BLOCK_SIZE)%nat ->
  (length table <= INODE_TABLE_BLOCKS * BLOCK_SIZE)%nat ->
  length (image sb ibm dbm table) = (TOTAL_BLOCKS * BLOCK_SIZE)%nat.
Proof.
  intros H1 H2 H3 H4. unfold image, zeros.
  rewrite !length_app, !length_padded, length_replicate by assumption.
  unfold MAX_DATA_BLOCKS, INODE_TABLE_BLOCKS, TOTAL_BLOCKS, DATA_BLOCK_START.
  lia.
Qed.

Lemma length_image_le (sb ibm dbm table : list byte) :
  (length sb <= BLOCK_SIZE)%nat -> (length ibm <= BLOCK_SIZE)%nat ->
  (length dbm <= BLOCK_SIZE)%nat ->
  (length table <= INODE_TABLE_BLOCKS * BLOCK_SIZE)%nat ->
  (DATA_BLOCK_START * BLOCK_SIZE <= TOTAL_BLOCKS * BLOCK_SIZE)%nat ->
  (DATA_BLOCK_START * BLOCK_SIZE <= length (image sb ibm dbm table))%nat.
Proof. intros H1 H2 H3 H4 H5. rewrite length_image; assumption. Qed.


(** ** Only blocks 0 to 7 are read *)

Section TwoImages.

Variables img1 img2 : list byte.
Hypothesis Hsame :
  take (DATA_BLOCK_START * BLOCK_SIZE) img1 =
  take (DATA_BLOCK_START * BLOCK_SIZE) img2.

Lemma block_of_prefix (img : list byte) (b : nat) :
  (b < DATA_BLOCK_START)%nat ->
  take BLOCK_SIZE (drop (b * BLOCK_SIZE) img) =
  drop (b * BLOCK_SIZE)
       (take (b * BLOCK_SIZE + BLOCK_SIZE)
             (take (DATA_BLOCK_START * BLOCK_SIZE) img)).
Proof.
  intros Hb. rewrite take_take, Nat.min_l.
  - apply take_drop_commute.
  - unfold DATA_BLOCK_START, BLOCK_SIZE in *. lia.
Qed.

Lemma readBlock_same (b : nat) buffer pos :
  (b < DATA_BLOCK_START)%nat ->
  readBlock img1 (Z.of_nat b) buffer pos = readBlock img2 (Z.of_nat b) buffer pos.
Proof.
  intros Hb. rewrite !readBlock_nonneg. cbv zeta.
  rewrite (block_of_prefix img1 b Hb), (block_of_prefix img2 b Hb), Hsame.
  reflexivity.
Qed.

Lemma inode_block_in_table (i : nat) :
  (i < MAX_INODES)%nat ->
  (INODE_TABLE_START_BLOCK + (i * INODE_SIZE) / BLOCK_SIZE < DATA_BLOCK_START)%nat.
Proof.
  intros Hi.
  assert ((i * INODE_SIZE) / BLOCK_SIZE < INODE_TABLE_BLOCKS)%nat.
  { apply Nat.Div0.div_lt_upper_bound.
    unfold MAX_INODES, INODES_PER_BLOCK, INODE_TABLE_BLOCKS, INODE_SIZE,
      BLOCK_SIZE in *.
    change (4096 / 256)%nat with 16%nat in Hi. lia. }
  unfold INODE_TABLE_START_BLOCK, INODE_TABLE_BLOCKS, DATA_BLOCK_START in *.
  lia.
Qed.

Lemma fetchInode_same (i : nat) blockBuffer pos :
  (i < MAX_INODES)%nat ->
  fetchInode img1 i blockBuffer pos = fetchInode img2 i blockBuffer pos.
Proof.
  intros Hi. unfold fetchInode, inode_blockNum.
  rewrite readBlock_same by (apply inode_block_in_table; exact Hi).
  reflexivity.
Qed.

Lemma In_seq_lt (i n : nat) : In i (seq 0 n) -> (i < n)%nat.
Proof. intros H. apply in_seq in H. lia. Qed.

Lemma readSuperblock_same superblock s :
  readSuperblock img1 superblock s = readSuperblock img2 superblock s.
Proof.
  unfold readSuperblock. change SUPERBLOCK_BLOCK_NO with (Z.of_nat 0).
  rewrite readBlock_same by (unfold DATA_BLOCK_START; lia). reflexivity.
Qed.

Lemma loadBitmap_same (b : nat) bitmap count rawBitmap pos :
  (b < DATA_BLOCK_START)%nat ->
  loadBitmap img1 (Z.of_nat b) bitmap count rawBitmap pos =
  loadBitmap img2 (Z.of_nat b) bitmap count rawBitmap pos.
Proof.
  intros Hb. unfold loadBitmap. rewrite readBlock_same by exact Hb.
  reflexivity.
Qed.

Lemma checkInodes_same blockBuffer s :
  checkInodes img1 blockBuffer s = checkInodes img2 blockBuffer s.
Proof.
  unfold checkInodes.
  rewrite (foldl_ext_in (checkInodes_body img1) (checkInodes_body img2));
    [reflexivity|].
  intros [s' buf] i Hi. unfold checkInodes_body.
  rewrite fetchInode_same by (apply In_seq_lt; exact Hi). reflexivity.
Qed.

Lemma checkBadBlocks_same blockBuffer s :
  checkBadBlocks img1 blockBuffer s = checkBadBlocks img2 blockBuffer s.
Proof.
  unfold checkBadBlocks.
  rewrite (foldl_ext_in (checkBadBlocks_body img1) (checkBadBlocks_body img2));
    [reflexivity|].
  intros [[s' buf] bad] i Hi. unfold checkBadBlocks_body.
  rewrite fetchInode_same by (apply In_seq_lt; exact Hi). reflexivity.
Qed.

Lemma main_loadBitmaps_same stk s :
  main_loadBitmaps img1 stk s = main_loadBitmaps img2 stk s.
Proof.
  unfold main_loadBitmaps.
  change INODE_BITMAP_BLOCK_NO with (Z.of_nat 1).
  change DATA_BITMAP_BLOCK_NO with (Z.of_nat 2).
  rewrite (loadBitmap_same 1) by (unfold DATA_BLOCK_START; lia).
  destruct (loadBitmap img2 (Z.of_nat 1) _ _ _ _) as [bm1 p1].
  rewrite (loadBitmap_same 2) by (unfold DATA_BLOCK_START; lia).
  reflexivity.
Qed.

Lemma run_same stk :
  after_checkBadBlocks img1 stk = after_checkBadBlocks img2 stk.
Proof.
  unfold after_checkBadBlocks, after_checkDuplicateBlocks,
    after_checkDataBitmap, after_checkInodeBitmap, after_checkInodes,
    after_loadBitmaps, after_readSuperblock.
  rewrite readSuperblock_same, main_loadBitmaps_same, checkInodes_same,
    checkBadBlocks_same.
  reflexivity.
Qed.

Lemma superblock_overrun_same stk :
  superblock_overrun img1 stk = superblock_overrun img2 stk.
Proof. unfold superblock_overrun. rewrite readSuperblock_same. reflexivity. Qed.

End TwoImages.

(** ** Lines and their kinds *)

Lemma error_not_success (l : line) : is_error l = true -> is_success l = false.
Proof. destruct l; simpl; congruence. Qed.

Lemma pass2_finding_error s i l : pass2_finding s i l -> is_error l = true.
Proof. intros [(-> & _) | [(-> & _) | (-> & _)]]; reflexivity. Qed.

Lemma pass3_finding_error s i l : pass3_finding s i l -> is_error l = true.
Proof. intros [(-> & _) | (-> & _)]; reflexivity. Qed.

Lemma pass4_finding_error s i l : pass4_finding s i l -> is_error l = true.
Proof. intros (-> & _); reflexivity. Qed.

Lemma pass5_finding_error inode i l : pass5_finding inode i l -> is_error l = true.
Proof.
  intros (_ & [(-> & _) | [(-> & _) | [(-> & _) | (-> & _)]]]); reflexivity.
Qed.

(** ** The arrays between the passes *)

Lemma after_checkInodes_arrays img stk :
  same_arrays (checkInodes img (stack_checkInodes stk) (after_loadBitmaps img stk))
              (after_checkInodes img stk).
Proof. apply same_arrays_printf. Qed.

Lemma after_checkInodeBitmap_arrays img stk :
  same_arrays (after_checkInodes img stk) (after_checkInodeBitmap img stk).
Proof.
  unfold after_checkInodeBitmap.
  destruct (checkInodeBitmap_spec (after_checkInodes img stk)) as (H & _).
  exact H.
Qed.

Lemma after_checkDataBitmap_arrays img stk :
  same_arrays (after_checkInodes img stk) (after_checkDataBitmap img stk).
Proof.
  eapply same_arrays_trans; [apply after_checkInodeBitmap_arrays|].
  unfold after_checkDataBitmap.
  destruct (checkDataBitmap_spec (after_checkInodeBitmap img stk)) as (H & _).
  eapply same_arrays_trans; [exact H | apply same_arrays_printf].
Qed.

Lemma pass2_lines_members img stk (l : line) :
  In l (pass2_lines img stk) <->
  exists i, (i < MAX_DATA_BLOCKS)%nat /\
            pass2_finding (after_checkInodes img stk) i l.
Proof.
  unfold pass2_lines.
  destruct (checkDataBitmap_spec (after_checkInodeBitmap img stk))
    as (_ & _ & L & HL & HIn).
  rewrite (emitted_app _ _ _ HL), HIn.
  destruct (after_checkInodeBitmap_arrays img stk) as (E1 & E2 & E3 & _).
  unfold pass2_finding. rewrite E1, E2, E3. reflexivity.
Qed.

Lemma pass3_lines_eq img stk :
  exists L,
    pass3_lines img stk = L ++ (if L is [] then [OkInodeBitmap] else []) /\
    forall l, In l L <->
              exists i, (i < MAX_INODES)%nat /\
                        pass3_finding (after_checkInodes img stk) i l.
Proof.
  unfold pass3_lines, after_checkInodeBitmap.
  destruct (checkInodeBitmap_spec (after_checkInodes img stk))
    as (_ & _ & L & HL & HIn).
  exists L. split; [apply emitted_app; exact HL | exact HIn].
Qed.

Lemma pass4_lines_eq img stk :
  exists L,
    pass4_lines img stk = L ++ (if L is [] then [OkNoDuplicates] else []) /\
    forall l, In l L <->
              exists i, (i < MAX_DATA_BLOCKS)%nat /\
                        pass4_finding (after_checkInodes img stk) i l.
Proof.
  unfold pass4_lines, after_checkDuplicateBlocks.
  destruct (checkDuplicateBlocks_spec (after_checkDataBitmap img stk))
    as (_ & _ & L & HL & HIn).
  exists L. split; [apply emitted_app; exact HL|].
  intros l. rewrite HIn.
  destruct (after_checkDataBitmap_arrays img stk) as (_ & _ & E3 & _).
  unfold pass4_finding. rewrite E3. reflexivity.
Qed.

Lemma pass5_lines_eq img stk :
  exists L,
    pass5_lines img stk = L ++ (if L is [] then [OkNoBadBlocks] else []) /\
    forall l, In l L <->
              exists i, (i < MAX_INODES)%nat /\
                        pass5_finding
                          (inodeSeen img (stack_checkBadBlocks stk) i) i l.
Proof.
  unfold pass5_lines.
  destruct (checkBadBlocks_spec img (stack_checkBadBlocks stk)
                                (after_checkDuplicateBlocks img stk))
    as (_ & L & HL & HIn).
  exists L. split; [apply emitted_app; exact HL | exact HIn].
Qed.

Lemma blockRefCount_after_checkInodes img stk (b : nat) :
  (b < MAX_DATA_BLOCKS)%nat ->
  blockRefCount (after_checkInodes img stk) !! b
  = Some (Z.of_nat (referrers img (stack_checkInodes stk) b)).
Proof.
  intros Hb.
  destruct (after_checkInodes_arrays img stk) as (_ & _ & -> & _).
  destruct (checkInodes_spec img (stack_checkInodes stk)
                             (after_loadBitmaps img stk))
    as (_ & _ & _ & Hrc & _).
  cbv zeta in Hrc. rewrite (Hrc b Hb).
  destruct (after_loadBitmaps_arrays img stk) as (_ & -> & _).
  rewrite lookup_replicate_2 by exact Hb. reflexivity.
Qed.

Lemma inodeUsed_after_checkInodes img stk (i : nat) :
  (i < MAX_INODES)%nat ->
  inodeUsed (after_checkInodes img stk) !! i
  = Some (isValid (inodeSeen img (stack_checkInodes stk) i)).
Proof.
  intros Hi.
  destruct (after_checkInodes_arrays img stk) as (_ & _ & _ & _ & ->).
  destruct (checkInodes_spec img (stack_checkInodes stk)
                             (after_loadBitmaps img stk))
    as (_ & _ & Hu & _).
  cbv zeta in Hu. rewrite (Hu i).
  destruct (after_loadBitmaps_arrays img stk) as (_ & _ & ->).
  rewrite lookup_replicate_2 by exact Hi.
  destruct (isValid _) eqn:Hv.
  - rewrite decide_True by (split; [exact Hi | reflexivity]). reflexivity.
  - rewrite decide_False by (intros [_ H]; discriminate). reflexivity.
Qed.

(** * The claims *)

(** C1: after the inode scan, for every data block index [b] below
    [MAX_DATA_BLOCKS], [blockRefCount[b]] is the number of inode indices
    whose decoded inode is valid and has [direct == b]; and when that count
    exceeds 1, pass 2 prints "referenced by multiple inodes" for [b] and
    pass 4 prints its duplicate-block line for the same [b].  The decoded
    inode is the one the scan decoded; when the image holds blocks 0 to 7
    in full it is the record in slot [i] of the inode table. *)
Theorem blockRefCount_counts_referrers img stk (b : nat) :
  (b < MAX_DATA_BLOCKS)%nat ->
  blockRefCount (after_checkInodes img stk) !! b
    = Some (Z.of_nat (referrers img (stack_checkInodes stk) b)) /\
  (1 < blockRefCount (after_checkInodes img stk) !!! b ->
   In (ErrDataMultiRef b) (pass2_lines img stk) /\
   In (ErrDataMultiRef b) (pass4_lines img stk)) /\
  ((DATA_BLOCK_START * BLOCK_SIZE <= length img)%nat ->
   referrers img (stack_checkInodes stk) b = referrers_at img b).
Proof.
  intros Hb. split; [apply blockRefCount_after_checkInodes; exact Hb|].
  split; [|apply referrers_complete].
  intros Hgt. split.
  - apply (proj2 (pass2_lines_members img stk _)). exists b. split; [exact Hb|].
    right. right. split; [reflexivity | exact Hgt].
  - destruct (pass4_lines_eq img stk) as (L & -> & HIn).
    apply in_or_app. left. apply (proj2 (HIn _)). exists b.
    split; [exact Hb | split; [reflexivity | exact Hgt]].
Qed.

(** Scenario C of the specification, on [shared_block_image]: inodes 0 and 1
    share block 10, the count is 2 and both passes report block 10. *)
Lemma blockRefCount_counts_referrers_witness :
  blockRefCount (after_checkInodes shared_block_image zero_stack) !! 10%nat
    = Some 2 /\
  In (ErrDataMultiRef 10) (pass2_lines shared_block_image zero_stack) /\
  In (ErrDataMultiRef 10) (pass4_lines shared_block_image zero_stack).
Proof.
  destruct (blockRefCount_counts_referrers shared_block_image zero_stack 10)
    as (H1 & H2 & _).
  - unfold MAX_DATA_BLOCKS, TOTAL_BLOCKS, DATA_BLOCK_START. lia.
  - split; [vm_compute; reflexivity|].
    apply H2. vm_compute. reflexivity.
Defined.

(** C2: the observed-usage flags are all false before pass 1, and after it
    [inodeUsed[i]] is true exactly when the inode decoded at index [i] has
    [links > 0] and [dtime == 0], for every [i] below [MAX_INODES].  The
    decoded inode is the one the scan decoded; when the image holds blocks
    0 to 7 in full it is the record in slot [i] of the inode table. *)
Theorem inodeUsed_iff_valid img stk (i : nat) :
  (i < MAX_INODES)%nat ->
  let inode := inodeSeen img (stack_checkInodes stk) i in
  inodeUsed (after_loadBitmaps img stk) !! i = Some false /\
  is_Some (inodeUsed (after_checkInodes img stk) !! i) /\
  (inodeUsed (after_checkInodes img stk) !! i = Some true <->
   0 < links inode /\ dtime inode = 0) /\
  ((DATA_BLOCK_START * BLOCK_SIZE <= length img)%nat -> inode = inodeAt img i).
Proof.
  intros Hi inode.
  destruct (after_loadBitmaps_arrays img stk) as (_ & _ & E).
  rewrite E, lookup_replicate_2 by exact Hi.
  rewrite (inodeUsed_after_checkInodes img stk i Hi). fold inode.
  split; [reflexivity|]. split; [eexists; reflexivity|].
  split; [|intros Hlen; apply inodeSeen_complete; assumption].
  unfold isValid. split.
  - intros H. injection H as H.
    apply (proj1 (andb_true_iff _ _)) in H. destruct H as [H1 H2].
    split; [apply Z.ltb_lt; exact H1 | apply Z.eqb_eq; exact H2].
  - intros [H1 H2]. f_equal. apply (proj2 (andb_true_iff _ _)).
    split; [apply Z.ltb_lt; exact H1 | apply Z.eqb_eq; exact H2].
Qed.

(** Inode 1 of [shared_block_image] is in use. *)
Lemma inodeUsed_iff_valid_witness :
  inodeUsed (after_loadBitmaps shared_block_image zero_stack) !! 1%nat
    = Some false /\
  inodeUsed (after_checkInodes shared_block_image zero_stack) !! 1%nat
    = Some true /\
  links (inodeAt shared_block_image 1) = 1 /\
  dtime (inodeAt shared_block_image 1) = 0.
Proof.
  destruct (inodeUsed_iff_valid shared_block_image zero_stack 1)
    as (H1 & _ & H3 & H4).
  - unfold MAX_INODES, INODES_PER_BLOCK, INODE_TABLE_BLOCKS.
    change (BLOCK_SIZE / INODE_SIZE)%nat with 16%nat. lia.
  - split; [exact H1|].
    assert (Hv : links (inodeAt shared_block_image 1) = 1 /\
                 dtime (inodeAt shared_block_image 1) = 0)
      by (vm_compute; split; reflexivity).
    split; [|exact Hv].
    apply (proj2 H3). rewrite H4.
    + destruct Hv as [-> ->]. split; [lia | reflexivity].
    + unfold shared_block_image. apply length_image_le.
      * unfold good_superblock, BLOCK_SIZE. cbn [length]. lia.
      * unfold BLOCK_SIZE. cbn [length]. lia.
      * unfold BLOCK_SIZE. cbn [length]. lia.
      * unfold inode_record, zeros. rewrite !length_app, !length_replicate.
        cbn [length]. unfold INODE_TABLE_BLOCKS, BLOCK_SIZE. lia.
      * unfold TOTAL_BLOCKS, DATA_BLOCK_START. lia.
Defined.

(** C3 (as the code has it): superblock validation makes six checks, none
    of which short-circuits another: magic, block size, total blocks, the
    four block locations together, inode record size, and inode count above
    the maximum.  Each check that fails prints its one fixed line, which
    names what is wrong and carries no values; the four locations share a
    single line however many of them are wrong.  The lines come in the order
    of the checks. *)
Theorem readSuperblock_findings img stk :
  let sb := superblock_read img stk in
  let L := superblock_lines img stk in
  sublist L superblock_checks /\
  (In ErrMagic L <-> magic sb <> 0xD34D) /\
  (In ErrBlockSize L <-> blockSize sb <> Z.of_nat BLOCK_SIZE) /\
  (In ErrTotalBlocks L <-> totalBlocks sb <> Z.of_nat TOTAL_BLOCKS) /\
  (In ErrPointers L <->
     inodeBitmapBlock sb <> INODE_BITMAP_BLOCK_NO \/
     dataBitmapBlock sb <> DATA_BITMAP_BLOCK_NO \/
     inodeTableStart sb <> Z.of_nat INODE_TABLE_START_BLOCK \/
     dataBlockStart sb <> Z.of_nat DATA_BLOCK_START) /\
  (In ErrInodeSize L <-> inodeSize sb <> Z.of_nat INODE_SIZE) /\
  (In ErrInodeCount L <-> Z.of_nat MAX_INODES < inodeCount sb).
Proof.
  cbv zeta. unfold superblock_read, superblock_lines.
  destruct (readSuperblock_spec img (stack_superblock stk) initial_state)
    as (_ & _ & L & HL & H).
  cbv zeta in *. rewrite (emitted_app _ _ _ HL). exact H.
Qed.

(** C3, the claim as stated fails: in [two_bad_pointers_image] two of the
    nine fields are wrong (both bitmap block numbers) and validation prints
    one line for the two. *)
Lemma readSuperblock_two_fields_one_finding :
  spec_mismatching_fields (superblock_read two_bad_pointers_image zero_stack)
    = 2%nat /\
  superblock_lines two_bad_pointers_image zero_stack = [ErrPointers] /\
  render ErrPointers = "ERROR: One or more superblock pointers are incorrect.".
Proof. vm_compute. repeat split. Qed.

Lemma isValid_spec (inode : Inode) :
  isValid inode = true <-> 0 < links inode /\ dtime inode = 0.
Proof.
  unfold isValid. rewrite andb_true_iff, Z.ltb_lt, Z.eqb_eq. reflexivity.
Qed.

(** C4: pass 5 checks the pointers of an inode only when it has
    [links > 0] and [dtime == 0].  For such an inode, and for no other, it
    prints the direct-block line when the direct pointer is at or above
    [MAX_DATA_BLOCKS], and the line of each of the three indirect pointers
    that is at or above [MAX_DATA_BLOCKS]; each line carries the pointer.
    The pointers are unsigned, so none is below the range, and no line is
    ever printed for a pointer 0: a direct pointer 0 is in range and an
    indirect pointer 0 is skipped.  The pass prints its findings, or the
    success line, once, when it has none, which is when every inode with
    [links > 0] and [dtime == 0] has its four pointers below
    [MAX_DATA_BLOCKS].  The inode is the one the loop decoded; when the
    image holds blocks 0 to 7 in full it is the record in slot [i] of the
    inode table. *)
Theorem checkBadBlocks_findings img stk (i : nat) :
  (i < MAX_INODES)%nat ->
  let inode := inodeSeen img (stack_checkBadBlocks stk) i in
  (0 <= direct inode /\ 0 <= indirect inode /\
   0 <= doubleIndirect inode /\ 0 <= tripleIndirect inode) /\
  (forall blk, In (ErrInvalidDirect i blk) (pass5_lines img stk) <->
     (0 < links inode /\ dtime inode = 0) /\
     blk = direct inode /\ Z.of_nat MAX_DATA_BLOCKS <= blk) /\
  (forall blk, In (ErrInvalidIndirect i blk) (pass5_lines img stk) <->
     (0 < links inode /\ dtime inode = 0) /\
     blk = indirect inode /\ Z.of_nat MAX_DATA_BLOCKS <= blk) /\
  (forall blk, In (ErrInvalidDouble i blk) (pass5_lines img stk) <->
     (0 < links inode /\ dtime inode = 0) /\
     blk = doubleIndirect inode /\ Z.of_nat MAX_DATA_BLOCKS <= blk) /\
  (forall blk, In (ErrInvalidTriple i blk) (pass5_lines img stk) <->
     (0 < links inode /\ dtime inode = 0) /\
     blk = tripleIndirect inode /\ Z.of_nat MAX_DATA_BLOCKS <= blk) /\
  (~ In (ErrInvalidDirect i 0) (pass5_lines img stk) /\
   ~ In (ErrInvalidIndirect i 0) (pass5_lines img stk) /\
   ~ In (ErrInvalidDouble i 0) (pass5_lines img stk) /\
   ~ In (ErrInvalidTriple i 0) (pass5_lines img stk)) /\
  (exists L,
     pass5_lines img stk = L ++ (if L is [] then [OkNoBadBlocks] else []) /\
     Forall (fun l => is_error l = true) L /\
     (L = [] <->
      forall j, (j < MAX_INODES)%nat ->
        0 < links (inodeSeen img (stack_checkBadBlocks stk) j) ->
        dtime (inodeSeen img (stack_checkBadBlocks stk) j) = 0 ->
        direct (inodeSeen img (stack_checkBadBlocks stk) j)
          < Z.of_nat MAX_DATA_BLOCKS /\
        indirect (inodeSeen img (stack_checkBadBlocks stk) j)
          < Z.of_nat MAX_DATA_BLOCKS /\
        doubleIndirect (inodeSeen img (stack_checkBadBlocks stk) j)
          < Z.of_nat MAX_DATA_BLOCKS /\
        tripleIndirect (inodeSeen img (stack_checkBadBlocks stk) j)
          < Z.of_nat MAX_DATA_BLOCKS)) /\
  ((DATA_BLOCK_START * BLOCK_SIZE <= length img)%nat -> inode = inodeAt img i).
Proof.
  intros Hi inode.
  destruct (pass5_lines_eq img stk) as (L & HL & HIn).
  assert (Hmem : forall l, is_success l = false ->
                   (In l (pass5_lines img stk) <-> In l L)).
  { intros l Hl. rewrite HL, in_app_iff. split; [|intros H; left; exact H].
    intros [H|H]; [exact H|]. destruct L; [|destruct H].
    destruct H as [<-|[]]. discriminate Hl. }
  assert (Hf : forall l,
             In l (pass5_lines img stk) -> is_success l = false ->
             exists j, (j < MAX_INODES)%nat /\
               pass5_finding (inodeSeen img (stack_checkBadBlocks stk) j) j l).
  { intros l H Hl. apply (proj1 (Hmem l Hl)) in H.
    apply (proj1 (HIn l)). exact H. }
  assert (Hb : forall l,
             is_success l = false ->
             pass5_finding inode i l -> In l (pass5_lines img stk)).
  { intros l Hl H. apply (proj2 (Hmem l Hl)). apply (proj2 (HIn l)).
    exists i. split; [exact Hi | exact H]. }
  assert (Hnn : 0 <= direct inode /\ 0 <= indirect inode /\
                0 <= doubleIndirect inode /\ 0 <= tripleIndirect inode)
    by (repeat split; apply le32_nonneg).
  assert (H56 : Z.of_nat MAX_DATA_BLOCKS = 56)
    by (rewrite MAX_DATA_BLOCKS_eq; reflexivity).
  assert (D1 : forall blk, In (ErrInvalidDirect i blk) (pass5_lines img stk) <->
     (0 < links inode /\ dtime inode = 0) /\
     blk = direct inode /\ Z.of_nat MAX_DATA_BLOCKS <= blk).
  { intros blk. rewrite <- isValid_spec. split.
    - intros H. destruct (Hf _ H eq_refl) as (j & _ & Hv & Hc).
      destruct Hc as [(E & H1) | [(E & _) | [(E & _) | (E & _)]]];
        try discriminate E.
      injection E as <- ->. fold inode in Hv, H1.
      split; [exact Hv|]. split; [reflexivity | exact H1].
    - intros (Hv & -> & H1). apply Hb; [reflexivity|].
      split; [exact Hv|]. left. split; [reflexivity | exact H1]. }
  assert (D2 : forall blk, In (ErrInvalidIndirect i blk) (pass5_lines img stk) <->
     (0 < links inode /\ dtime inode = 0) /\
     blk = indirect inode /\ Z.of_nat MAX_DATA_BLOCKS <= blk).
  { intros blk. rewrite <- isValid_spec. split.
    - intros H. destruct (Hf _ H eq_refl) as (j & _ & Hv & Hc).
      destruct Hc as [(E & _) | [(E & H1 & _) | [(E & _) | (E & _)]]];
        try discriminate E.
      injection E as <- ->. fold inode in Hv, H1.
      split; [exact Hv|]. split; [reflexivity | exact H1].
    - intros (Hv & -> & H1). apply Hb; [reflexivity|].
      split; [exact Hv|]. right. left.
      split; [reflexivity|]. split; [exact H1 | lia]. }
  assert (D3 : forall blk, In (ErrInvalidDouble i blk) (pass5_lines img stk) <->
     (0 < links inode /\ dtime inode = 0) /\
     blk = doubleIndirect inode /\ Z.of_nat MAX_DATA_BLOCKS <= blk).
  { intros blk. rewrite <- isValid_spec. split.
    - intros H. destruct (Hf _ H eq_refl) as (j & _ & Hv & Hc).
      destruct Hc as [(E & _) | [(E & _) | [(E & H1 & _) | (E & _)]]];
        try discriminate E.
      injection E as <- ->. fold inode in Hv, H1.
      split; [exact Hv|]. split; [reflexivity | exact H1].
    - intros (Hv & -> & H1). apply Hb; [reflexivity|].
      split; [exact Hv|]. right. right. left.
      split; [reflexivity|]. split; [exact H1 | lia]. }
  assert (D4 : forall blk, In (ErrInvalidTriple i blk) (pass5_lines img stk) <->
     (0 < links inode /\ dtime inode = 0) /\
     blk = tripleIndirect inode /\ Z.of_nat MAX_DATA_BLOCKS <= blk).
  { intros blk. rewrite <- isValid_spec. split.
    - intros H. destruct (Hf _ H eq_refl) as (j & _ & Hv & Hc).
      destruct Hc as [(E & _) | [(E & _) | [(E & _) | (E & H1 & _)]]];
        try discriminate E.
      injection E as <- ->. fold inode in Hv, H1.
      split; [exact Hv|]. split; [reflexivity | exact H1].
    - intros (Hv & -> & H1). apply Hb; [reflexivity|].
      split; [exact Hv|]. right. right. right.
      split; [reflexivity|]. split; [exact H1 | lia]. }
  split; [exact Hnn|]. split; [exact D1|]. split; [exact D2|].
  split; [exact D3|]. split; [exact D4|].
  split; [|split].
  - repeat split; intros H;
      [ apply (proj1 (D1 0)) in H | apply (proj1 (D2 0)) in H
      | apply (proj1 (D3 0)) in H | apply (proj1 (D4 0)) in H ];
      destruct H as (_ & _ & H); lia.
  - exists L. split; [exact HL|]. split.
    + apply List.Forall_forall. intros l Hl. apply (proj1 (HIn l)) in Hl.
      destruct Hl as (j & _ & H). eapply pass5_finding_error. exact H.
    + split.
      * intros -> j Hj Hlk Hdt.
        assert (Hv : isValid (inodeSeen img (stack_checkBadBlocks stk) j) = true)
          by (apply isValid_spec; split; assumption).
        assert (Hno : forall l,
                  ~ pass5_finding (inodeSeen img (stack_checkBadBlocks stk) j) j l).
        { intros l H. refine (proj2 (HIn l) _). exists j. split; assumption. }
        set (ino := inodeSeen img (stack_checkBadBlocks stk) j) in *.
        repeat split; apply Z.lt_nge; intros Hge.
        -- apply (Hno (ErrInvalidDirect j (direct ino))). split; [exact Hv|].
           left. split; [reflexivity | exact Hge].
        -- apply (Hno (ErrInvalidIndirect j (indirect ino))).
           split; [exact Hv|].
           right. left. split; [reflexivity|]. split; [exact Hge | lia].
        -- apply (Hno (ErrInvalidDouble j (doubleIndirect ino))).
           split; [exact Hv|].
           right. right. left. split; [reflexivity|]. split; [exact Hge | lia].
        -- apply (Hno (ErrInvalidTriple j (tripleIndirect ino))).
           split; [exact Hv|].
           right. right. right. split; [reflexivity|]. split; [exact Hge | lia].
      * intros Hall. destruct L as [|l L']; [reflexivity|]. exfalso.
        destruct (proj1 (HIn l) (or_introl eq_refl)) as (j & Hj & Hv & Hc).
        apply (proj1 (isValid_spec _)) in Hv. destruct Hv as [Hlk Hdt].
        destruct (Hall j Hj Hlk Hdt) as (B1 & B2 & B3 & B4).
        destruct Hc as [(_ & H) | [(_ & H & _) | [(_ & H & _) | (_ & H & _)]]];
          lia.
  - intros Hlen. apply inodeSeen_complete; assumption.
Qed.

(** Inode 2 of [shared_block_image] has one link, direct pointer 200 and
    single indirect pointer 99: pass 5 prints a line for each, and no
    success line. *)
Lemma checkBadBlocks_findings_witness :
  links (inodeAt shared_block_image 2) = 1 /\
  dtime (inodeAt shared_block_image 2) = 0 /\
  direct (inodeAt shared_block_image 2) = 200 /\
  indirect (inodeAt shared_block_image 2) = 99 /\
  In (ErrInvalidDirect 2 200) (pass5_lines shared_block_image zero_stack) /\
  In (ErrInvalidIndirect 2 99) (pass5_lines shared_block_image zero_stack) /\
  ~ In (ErrInvalidDouble 2 0) (pass5_lines shared_block_image zero_stack).
Proof.
  assert (Hv : links (inodeAt shared_block_image 2) = 1 /\
               dtime (inodeAt shared_block_image 2) = 0 /\
               direct (inodeAt shared_block_image 2) = 200 /\
               indirect (inodeAt shared_block_image 2) = 99)
    by (vm_compute; repeat split).
  destruct Hv as (V1 & V2 & V3 & V4).
  destruct (checkBadBlocks_findings shared_block_image zero_stack 2)
    as (_ & D1 & D2 & _ & _ & (_ & _ & Z3 & _) & _ & Heq).
  - unfold MAX_INODES, INODES_PER_BLOCK, INODE_TABLE_BLOCKS.
    change (BLOCK_SIZE / INODE_SIZE)%nat with 16%nat. lia.
  - assert (E : inodeSeen shared_block_image (stack_checkBadBlocks zero_stack) 2
                = inodeAt shared_block_image 2).
    { apply Heq. unfold shared_block_image. apply length_image_le.
      - unfold good_superblock, BLOCK_SIZE. cbn [length]. lia.
      - unfold BLOCK_SIZE. cbn [length]. lia.
      - unfold BLOCK_SIZE. cbn [length]. lia.
      - unfold inode_record, zeros. rewrite !length_app, !length_replicate.
        cbn [length]. unfold INODE_TABLE_BLOCKS, BLOCK_SIZE. lia.
      - unfold TOTAL_BLOCKS, DATA_BLOCK_START. lia. }
    split; [exact V1|]. split; [exact V2|]. split; [exact V3|].
    split; [exact V4|]. split; [|split; [|exact Z3]].
    + apply (proj2 (D1 200)). rewrite E, V1, V2, V3.
      rewrite MAX_DATA_BLOCKS_eq. repeat split; lia.
    + apply (proj2 (D2 99)). rewrite E, V1, V2, V4.
      rewrite MAX_DATA_BLOCKS_eq. repeat split; lia.
Defined.

(** C5 (as the code has it): a success line is printed by pass 3, by pass 4
    and by pass 5, each exactly when that pass has no finding, and once;
    superblock validation, pass 1 and pass 2 print findings only. *)
Theorem success_lines_by_pass img stk :
  Forall (fun l => is_success l = false) (superblock_lines img stk) /\
  Forall (fun l => is_success l = false) (pass1_lines img stk) /\
  Forall (fun l => is_success l = false) (pass2_lines img stk) /\
  (exists L, Forall (fun l => is_error l = true) L /\
     pass3_lines img stk = L ++ (if L is [] then [OkInodeBitmap] else [])) /\
  (exists L, Forall (fun l => is_error l = true) L /\
     pass4_lines img stk = L ++ (if L is [] then [OkNoDuplicates] else [])) /\
  (exists L, Forall (fun l => is_error l = true) L /\
     pass5_lines img stk = L ++ (if L is [] then [OkNoBadBlocks] else [])).
Proof.
  split; [|split; [|split; [|split; [|split]]]].
  - destruct (readSuperblock_spec img (stack_superblock stk) initial_state)
      as (_ & _ & L & HL & Hsub & _).
    cbv zeta in *. unfold superblock_lines. rewrite (emitted_app _ _ _ HL).
    apply List.Forall_forall. intros l Hl.
    apply (proj2 (list_elem_of_In _ _)) in Hl.
    pose proof (elem_of_sublist _ _ _ Hl Hsub) as Hc.
    apply (proj1 (list_elem_of_In _ _)) in Hc.
    unfold superblock_checks in Hc. simpl in Hc.
    intuition (subst; reflexivity).
  - destruct (checkInodes_spec img (stack_checkInodes stk)
                               (after_loadBitmaps img stk))
      as (_ & _ & _ & _ & L & HL & HE).
    cbv zeta in HL. unfold pass1_lines. rewrite (emitted_app _ _ _ HL).
    eapply Forall_impl; [exact HE|]. intros l. apply error_not_success.
  - apply List.Forall_forall. intros l Hl. apply (proj1 (pass2_lines_members _ _ _)) in Hl.
    destruct Hl as (i & _ & Hf). apply error_not_success.
    eapply pass2_finding_error. exact Hf.
  - destruct (pass3_lines_eq img stk) as (L & HL & HIn).
    exists L. split; [|exact HL].
    apply List.Forall_forall. intros l Hl. apply (proj1 (HIn l)) in Hl.
    destruct Hl as (i & _ & Hf). eapply pass3_finding_error. exact Hf.
  - destruct (pass4_lines_eq img stk) as (L & HL & HIn).
    exists L. split; [|exact HL].
    apply List.Forall_forall. intros l Hl. apply (proj1 (HIn l)) in Hl.
    destruct Hl as (i & _ & Hf). eapply pass4_finding_error. exact Hf.
  - destruct (pass5_lines_eq img stk) as (L & HL & HIn).
    exists L. split; [|exact HL].
    apply List.Forall_forall. intros l Hl. apply (proj1 (HIn l)) in Hl.
    destruct Hl as (i & _ & Hf). eapply pass5_finding_error. exact Hf.
Qed.

(** C5, the claim as stated fails: on [clean_image] pass 4 has no finding
    and prints a success line of its own. *)
Lemma pass4_prints_success_line :
  pass4_lines clean_image zero_stack = [OkNoDuplicates] /\
  is_success OkNoDuplicates = true /\
  render OkNoDuplicates = "No duplicate data block references found.".
Proof. vm_compute. repeat split. Qed.

(** C6 (as the code has it): [main] calls the inode-bitmap reconciliation
    before the data-bitmap reconciliation, so in standard output all the
    lines of pass 3 come first and the lines of pass 2 follow them
    directly. *)
Theorem pass3_lines_before_pass2_lines img stk :
  stdout (after_checkBadBlocks img stk) =
    stdout (after_checkInodes img stk)
    ++ pass3_lines img stk ++ pass2_lines img stk
    ++ [BannerBitmapChecks] ++ pass4_lines img stk ++ pass5_lines img stk
    ++ [BannerBlockRefs].
Proof.
  rewrite after_checkBadBlocks_stdout, after_checkDuplicateBlocks_stdout,
    after_checkDataBitmap_stdout, after_checkInodeBitmap_stdout.
  rewrite <- !app_assoc. reflexivity.
Qed.

(** C6, the claim as stated fails: on [stale_bitmaps_image] each of the two
    reconciliations has one finding, and the inode-bitmap one is printed
    first. *)
Lemma pass3_finding_precedes_pass2_finding :
  pass3_lines stale_bitmaps_image zero_stack = [ErrInodeMarkedUnused 0] /\
  pass2_lines stale_bitmaps_image zero_stack = [ErrDataMarkedUnref 0] /\
  stdout (after_checkBadBlocks stale_bitmaps_image zero_stack) =
    [BannerSuperblock; BannerBitmaps; ErrInodeMarkedInvalid 0; BannerInodes;
     ErrInodeMarkedUnused 0; ErrDataMarkedUnref 0; BannerBitmapChecks;
     OkNoDuplicates; OkNoBadBlocks; BannerBlockRefs].
Proof. vm_compute. repeat split. Qed.

(** C7 (as the code has it): the block reader reports no failure.  For a
    block number whose byte offset fits in an [int], the seek is refused
    exactly when the block number is negative, and the read then goes on
    from where the stream was; the read delivers a complete item exactly
    when a whole block lies ahead of the stream.  Whatever the two calls
    report, [readBlock] returns the buffer: the bytes the read delivered
    come first, the rest is what the buffer held, and a buffer with room
    for a block keeps its length. *)
Theorem readBlock_always_returns img (blockNum : Z) buffer pos :
  offset_fits_int blockNum ->
  let seek := fseek pos (blockNum * Z.of_nat BLOCK_SIZE) in
  let start := fst seek in
  let items := snd (fst (fread img buffer BLOCK_SIZE 1 start)) in
  (snd seek <> 0 <-> blockNum < 0) /\
  (blockNum < 0 -> start = pos) /\
  (0 <= blockNum -> start = (Z.to_nat blockNum * BLOCK_SIZE)%nat) /\
  (items = 1%nat <-> (start + BLOCK_SIZE <= length img)%nat) /\
  (items = 0%nat <-> (length img < start + BLOCK_SIZE)%nat) /\
  exists got,
    got = take BLOCK_SIZE (drop start img) /\
    readBlock img blockNum buffer pos =
      (got ++ drop (length got) buffer, (start + length got)%nat) /\
    (forall k, (k < length got)%nat ->
       fst (readBlock img blockNum buffer pos) !! k = img !! (start + k)%nat) /\
    (forall k, (length got <= k)%nat ->
       fst (readBlock img blockNum buffer pos) !! k = buffer !! k) /\
    ((BLOCK_SIZE <= length buffer)%nat ->
       length (fst (readBlock img blockNum buffer pos)) = length buffer).
Proof.
  intros _ seek start items.
  assert (Hseek : (blockNum < 0 /\ seek = (pos, -1)) \/
                  (0 <= blockNum /\
                   seek = ((Z.to_nat blockNum * BLOCK_SIZE)%nat, 0))).
  { unfold seek, fseek.
    destruct (Z.ltb_spec (blockNum * Z.of_nat BLOCK_SIZE) 0) as [H|H].
    - left. split; [unfold BLOCK_SIZE in H; lia | reflexivity].
    - right. split; [unfold BLOCK_SIZE in H; lia|].
      apply (f_equal (fun n => (n, 0))).
      rewrite Z2Nat.inj_mul, Nat2Z.id by (unfold BLOCK_SIZE in *; lia).
      reflexivity. }
  split; [|split; [|split]].
  - destruct Hseek as [[H ->] | [H ->]]; cbn [snd]; split; intros; lia.
  - intros H. destruct Hseek as [[_ E] | [H' _]]; [|lia].
    unfold start. rewrite E. reflexivity.
  - intros H. destruct Hseek as [[H' _] | [_ E]]; [lia|].
    unfold start. rewrite E. reflexivity.
  - set (got := take BLOCK_SIZE (drop start img)).
    assert (Hlen : length got = Nat.min BLOCK_SIZE (length img - start)).
    { unfold got. rewrite length_take, length_drop. reflexivity. }
    assert (Hitems : items = (length got / BLOCK_SIZE)%nat).
    { unfold items, fread. cbv beta iota zeta. unfold fst, snd.
      rewrite Nat.mul_1_r. reflexivity. }
    assert (Hrb : readBlock img blockNum buffer pos =
                  (got ++ drop (length got) buffer, (start + length got)%nat)).
    { rewrite readBlock_eq. reflexivity. }
    split; [|split].
    + rewrite Hitems, Hlen. split.
      * intros H.
        destruct (Nat.le_gt_cases (start + BLOCK_SIZE) (length img)) as [L|L];
          [exact L|].
        rewrite Nat.div_small in H by (unfold BLOCK_SIZE in *; lia).
        discriminate.
      * intros H. rewrite Nat.min_l by lia. apply Nat.div_same.
        unfold BLOCK_SIZE; lia.
    + rewrite Hitems, Hlen. split.
      * intros H.
        destruct (Nat.le_gt_cases (start + BLOCK_SIZE) (length img)) as [L|L];
          [|lia].
        rewrite Nat.min_l in H by lia.
        rewrite Nat.div_same in H by (unfold BLOCK_SIZE; lia). discriminate.
      * intros H. apply Nat.div_small. unfold BLOCK_SIZE in *; lia.
    + exists got. split; [reflexivity|]. split; [exact Hrb|].
      rewrite Hrb. unfold fst at 1 2 3.
      split; [|split].
      * intros k Hk. rewrite overlay_lookup_lt by exact Hk.
        unfold got. rewrite lookup_take. unfold got in Hk.
        rewrite length_take in Hk.
        destruct (decide (k < BLOCK_SIZE)%nat); [|lia].
        apply lookup_drop.
      * intros k Hk. apply overlay_lookup_ge. exact Hk.
      * intros Hb. rewrite length_app, length_drop. lia.
Qed.

(** A three-byte file.  Block -1 has a negative offset: the seek is refused
    and the read takes the two bytes from position 1 on; block 0 is read
    from the start.  Both reads are short and both return the five-byte
    buffer, its tail untouched. *)
Lemma readBlock_always_returns_witness :
  offset_fits_int (-1) /\ offset_fits_int 0 /\
  snd (fseek 1 (-1 * Z.of_nat BLOCK_SIZE)) <> 0 /\
  readBlock [x01; x02; x03] (-1) (replicate 5 xff) 1 =
    ([x02; x03; xff; xff; xff], 3%nat) /\
  readBlock [x01; x02; x03] 0 (replicate 5 xff) 1 =
    ([x01; x02; x03; xff; xff], 3%nat).
Proof.
  assert (F1 : offset_fits_int (-1))
    by (unfold offset_fits_int, INT_MIN, INT_MAX, BLOCK_SIZE; lia).
  assert (F0 : offset_fits_int 0)
    by (unfold offset_fits_int, INT_MIN, INT_MAX, BLOCK_SIZE; lia).
  split; [exact F1|]. split; [exact F0|].
  destruct (readBlock_always_returns [x01; x02; x03] (-1) (replicate 5 xff) 1 F1)
    as (H1 & H2 & _ & _ & _ & got1 & E1 & R1 & _).
  destruct (readBlock_always_returns [x01; x02; x03] 0 (replicate 5 xff) 1 F0)
    as (_ & _ & H3 & _ & _ & got0 & E0 & R0 & _).
  split; [apply (proj2 H1); lia|].
  split.
  - rewrite R1, E1, (H2 ltac:(lia)). reflexivity.
  - rewrite R0, E0, (H3 ltac:(lia)). reflexivity.
Defined.

(** C7, the claim as stated fails: on an empty image the read of block 0
    delivers no item, and a seek to a negative offset is refused; in both
    cases [readBlock] hands the buffer back as it was, and a run on that
    image goes through every phase, writes nothing to the error stream and
    exits with [EXIT_SUCCESS]. *)
Lemma readBlock_short_read_is_no_error :
  snd (fst (fread [] (zeros BLOCK_SIZE) BLOCK_SIZE 1 0)) = 0%nat /\
  readBlock [] 0 (zeros BLOCK_SIZE) 0 = (zeros BLOCK_SIZE, 0%nat) /\
  snd (fseek 0 (-1 * Z.of_nat BLOCK_SIZE)) = -1 /\
  readBlock [] (-1) (zeros BLOCK_SIZE) 0 = (zeros BLOCK_SIZE, 0%nat) /\
  main (only_file []) zero_stack ["fsck"; "vsfs.img"] =
    mkOutcome EXIT_SUCCESS
      [ErrMagic; ErrBlockSize; ErrTotalBlocks; ErrPointers; ErrInodeSize;
       BannerSuperblock; BannerBitmaps; BannerInodes; OkInodeBitmap;
       BannerBitmapChecks; OkNoDuplicates; OkNoBadBlocks; BannerBlockRefs]
      [] [].
Proof. vm_compute. repeat split. Qed.

(** The bytes stored past [main]'s [superblock] are those the file holds
    from offset [sizeof_Superblock] up to the end of its first block. *)
Lemma superblock_overrun_eq img stk :
  length (stack_superblock stk) = sizeof_Superblock ->
  superblock_overrun img stk =
  take (BLOCK_SIZE - sizeof_Superblock) (drop sizeof_Superblock img).
Proof.
  intros Hlen. unfold superblock_overrun.
  destruct (readSuperblock_spec img (stack_superblock stk) initial_state)
    as (H & _).
  cbv zeta in H. rewrite H.
  change SUPERBLOCK_BLOCK_NO with (Z.of_nat 0).
  rewrite readBlock_nonneg. cbv zeta. unfold fst.
  change (0 * BLOCK_SIZE)%nat with 0%nat. rewrite drop_0.
  rewrite drop_app, (drop_ge (drop _ (stack_superblock stk)))
    by (rewrite length_drop; lia).
  rewrite app_nil_r.
  rewrite take_drop_commute.
  apply (f_equal (fun n => drop sizeof_Superblock (take n img))).
  unfold sizeof_Superblock, BLOCK_SIZE. lia.
Qed.

(** C8: the failing input is every file of more than [sizeof_Superblock]
    bytes.  A wrong argument count and a file that does not open end the
    program with [EXIT_FAILURE], a message on the error stream and nothing
    on standard output.  When the file opens, the read of block 0 stores
    the bytes the file holds from offset [sizeof_Superblock] to the end of
    its first block past [main]'s [superblock]: none when the file has at
    most [sizeof_Superblock] bytes, and the run then ends with
    [EXIT_SUCCESS] whatever it printed; at least one, and up to four, for
    every longer file, a well-formed image among them, and C then promises
    nothing about the exit code. *)
Theorem main_superblock_overrun fs stk argv :
  stack_ok stk ->
  EXIT_FAILURE <> EXIT_SUCCESS /\
  (length argv <> 2%nat ->
     main fs stk argv = mkOutcome EXIT_FAILURE [] [Usage (argv !!! 0%nat)] []) /\
  (length argv = 2%nat -> fs (argv !!! 1%nat) = None ->
     main fs stk argv = mkOutcome EXIT_FAILURE [] [PerrorOpen] []) /\
  (forall img,
     length argv = 2%nat -> fs (argv !!! 1%nat) = Some img ->
     overrun (main fs stk argv) =
       take (BLOCK_SIZE - sizeof_Superblock) (drop sizeof_Superblock img) /\
     length (overrun (main fs stk argv)) =
       Nat.min (BLOCK_SIZE - sizeof_Superblock)
               (length img - sizeof_Superblock) /\
     ((length img <= sizeof_Superblock)%nat ->
      main fs stk argv =
        mkOutcome EXIT_SUCCESS (stdout (after_checkBadBlocks img stk)) [] []) /\
     ((sizeof_Superblock < length img)%nat ->
      overrun (main fs stk argv) <> [])).
Proof.
  intros (Hsb & _).
  split; [discriminate|].
  unfold main.
  destruct (Nat.eqb_spec (length argv) 2) as [Hlen|Hlen]; cbn [negb].
  - split; [intros H; congruence|]. split.
    + intros _ E. rewrite E. reflexivity.
    + intros img _ E. rewrite E. cbn [overrun].
      rewrite (superblock_overrun_eq img stk Hsb).
      assert (Hl : length (take (BLOCK_SIZE - sizeof_Superblock)
                                (drop sizeof_Superblock img)) =
                   Nat.min (BLOCK_SIZE - sizeof_Superblock)
                           (length img - sizeof_Superblock))
        by (rewrite length_take, length_drop; reflexivity).
      split; [reflexivity|]. split; [exact Hl|]. split.
      * intros Hshort. apply (f_equal (mkOutcome _ _ _)).
        apply nil_length_inv. rewrite Hl. lia.
      * intros Hlong Hnil. apply (f_equal length) in Hnil.
        rewrite Hl in Hnil. cbn [length] in Hnil.
        unfold sizeof_Superblock, BLOCK_SIZE in *. lia.
  - split; [intros _; reflexivity|]. split.
    + intros H. congruence.
    + intros img H. congruence.
Qed.

(** On [clean_image], a consistent 64-block image, the run stores the last
    four bytes of block 0 past the struct. *)
Lemma main_superblock_overrun_witness :
  stack_ok zero_stack /\
  length (overrun (main (only_file clean_image) zero_stack ["fsck"; "vsfs.img"]))
    = 4%nat /\
  overrun (main (only_file clean_image) zero_stack ["fsck"; "vsfs.img"]) <> [].
Proof.
  assert (Hok : stack_ok zero_stack).
  { unfold stack_ok, zero_stack, zeros. cbn [stack_superblock
      stack_rawBitmap_inode stack_rawBitmap_data stack_checkInodes
      stack_checkBadBlocks].
    rewrite !length_replicate. repeat split. }
  assert (Hlen : length clean_image = (TOTAL_BLOCKS * BLOCK_SIZE)%nat).
  { unfold clean_image. apply length_image.
    - unfold good_superblock, BLOCK_SIZE. cbn [length]. lia.
    - unfold BLOCK_SIZE. cbn [length]. lia.
    - unfold BLOCK_SIZE. cbn [length]. lia.
    - unfold INODE_TABLE_BLOCKS, BLOCK_SIZE. cbn [length]. lia. }
  split; [exact Hok|].
  destruct (main_superblock_overrun (only_file clean_image) zero_stack
              ["fsck"; "vsfs.img"] Hok) as (_ & _ & _ & H).
  destruct (H clean_image eq_refl eq_refl) as (_ & H2 & _ & H4).
  split.
  - rewrite H2, Hlen. unfold sizeof_Superblock, TOTAL_BLOCKS, BLOCK_SIZE. lia.
  - apply H4. rewrite Hlen.
    unfold sizeof_Superblock, TOTAL_BLOCKS, BLOCK_SIZE. lia.
Defined.

(** C9: a vector packed in the image format's bit order, stored at the start
    of block [b] and followed in its last byte (and beyond) by arbitrary
    further bits [junk], is decoded by [loadBitmap] with the vector's entry
    count back to the vector itself, whatever its length; the entries of the
    array past the count are left alone. *)
Theorem loadBitmap_pack_roundtrip (v junk : list bool) (pre post : list byte)
    (b : nat) (bitmap : list bool) (rawBitmap : list byte) (pos : nat) :
  length pre = (b * BLOCK_SIZE)%nat ->
  (length (v ++ junk) <= 8 * BLOCK_SIZE)%nat ->
  (length v <= length bitmap)%nat ->
  let decoded :=
    fst (loadBitmap (pre ++ pack (v ++ junk) ++ post) (Z.of_nat b)
                    bitmap (length v) rawBitmap pos) in
  take (length v) decoded = v /\
  drop (length v) decoded = drop (length v) bitmap.
Proof.
  intros Hpre Hlen Hbm decoded. unfold decoded.
  rewrite loadBitmap_eq by exact Hbm.
  set (w := v ++ junk) in *.
  set (raw := fst (readBlock _ _ _ _)).
  assert (Hsz : length v = length (bitmap_bit raw <$> seq 0 (length v)))
    by (rewrite length_fmap, length_seq; reflexivity).
  rewrite take_app_length' by exact Hsz.
  rewrite drop_app_length' by exact Hsz.
  split; [|reflexivity].
  assert (Hraw : forall j, (j < (length w + 7) / 8)%nat ->
                           raw !! j = Some (pack_byte w j)).
  { intros j Hj. unfold raw. rewrite readBlock_nonneg. cbv zeta. unfold fst.
    rewrite <- Hpre, drop_app_length.
    assert (Hp : (length (pack w) <= BLOCK_SIZE)%nat).
    { rewrite length_pack. apply Nat.lt_succ_r.
      apply Nat.Div0.div_lt_upper_bound. unfold BLOCK_SIZE in *. lia. }
    rewrite lookup_app_l.
    - rewrite lookup_take. destruct (decide (j < BLOCK_SIZE)%nat) as [_|N].
      + rewrite lookup_app_l by (rewrite length_pack; exact Hj).
        apply lookup_pack. exact Hj.
      + rewrite length_pack in Hp. lia.
    - rewrite length_pack in Hp.
      rewrite length_take, length_app, length_pack. lia. }
  apply list_eq. intros i. rewrite list_lookup_fmap.
  destruct (decide (i < length v)%nat) as [Hi|Hi].
  - rewrite (proj2 (lookup_seq 0 _ i i)) by (split; [reflexivity | exact Hi]).
    simpl. unfold bitmap_bit, at_.
    assert (Hj : (i / 8 < (length w + 7) / 8)%nat).
    { unfold w. rewrite length_app.
      apply Nat.Div0.div_lt_upper_bound.
      pose proof (Nat.Div0.div_mod (length v + length junk + 7) 8).
      pose proof (Nat.mod_upper_bound (length v + length junk + 7) 8).
      lia. }
    rewrite (list_lookup_total_correct _ _ _ (Hraw _ Hj)).
    rewrite pack_byte_bit by (apply Nat.mod_upper_bound; lia).
    rewrite <- Nat.div_mod_eq.
    unfold w. rewrite lookup_total_app_l by exact Hi.
    symmetry. apply list_lookup_lookup_total_lt. exact Hi.
  - rewrite lookup_ge_None_2 by (rewrite length_seq; lia).
    simpl. symmetry. apply lookup_ge_None_2. lia.
Qed.

(** [sample_bitmap], stored at the start of block 1 with two stray bits
    after it, and decoded into an 11-entry array. *)
Lemma loadBitmap_pack_roundtrip_witness :
  let decoded :=
    fst (loadBitmap (zeros BLOCK_SIZE ++ pack (sample_bitmap ++ [true; true]) ++ [])
                    (Z.of_nat 1) (replicate 11 false) (length sample_bitmap)
                    (zeros BLOCK_SIZE) 0) in
  take (length sample_bitmap) decoded = sample_bitmap /\
  drop (length sample_bitmap) decoded
    = drop (length sample_bitmap) (replicate 11 false).
Proof.
  refine (loadBitmap_pack_roundtrip sample_bitmap [true; true]
            (zeros BLOCK_SIZE) [] 1 (replicate 11 false) (zeros BLOCK_SIZE) 0
            _ _ _).
  - unfold zeros. rewrite length_replicate. lia.
  - unfold sample_bitmap. cbn [length app]. unfold BLOCK_SIZE. lia.
  - unfold sample_bitmap. cbn [length replicate]. lia.
Defined.

(** C10: the checker reads blocks 0 to 7 only.  Two files that agree on
    their first eight blocks (and are both present or both absent) give the
    same outcome: the same standard output, the same error stream and the
    same exit code (and the same bytes stored past [main]'s [superblock]),
    whatever their data regions hold. *)
Theorem data_region_never_read (fs1 fs2 : string -> option (list byte))
    stk argv :
  (forall path,
     match fs1 path, fs2 path with
     | Some img1, Some img2 =>
         take (DATA_BLOCK_START * BLOCK_SIZE) img1 =
         take (DATA_BLOCK_START * BLOCK_SIZE) img2
     | None, None => True
     | _, _ => False
     end) ->
  main fs1 stk argv = main fs2 stk argv.
Proof.
  intros H. unfold main. destruct (negb _); [reflexivity|].
  specialize (H (argv !!! 1%nat)).
  destruct (fs1 (argv !!! 1%nat)) as [img1|],
           (fs2 (argv !!! 1%nat)) as [img2|]; try contradiction.
  - rewrite (run_same img1 img2 H stk),
      (superblock_overrun_same img1 img2 H stk).
    reflexivity.
  - reflexivity.
Qed.

Lemma dirty_data_image_prefix :
  take (DATA_BLOCK_START * BLOCK_SIZE) clean_image =
  take (DATA_BLOCK_START * BLOCK_SIZE) dirty_data_image.
Proof.
  unfold dirty_data_image. symmetry. apply take_app_length'.
  rewrite length_take. unfold clean_image.
  rewrite length_image;
    [ unfold TOTAL_BLOCKS, DATA_BLOCK_START; lia
    | unfold good_superblock, BLOCK_SIZE; cbn [length]; lia
    | cbn [length]; lia .. ].
Qed.

(** [clean_image] and [dirty_data_image] differ in every byte of the data
    region and give the same outcome. *)
Lemma data_region_never_read_witness :
  clean_image !! (DATA_BLOCK_START * BLOCK_SIZE)%nat
    <> dirty_data_image !! (DATA_BLOCK_START * BLOCK_SIZE)%nat /\
  main (only_file clean_image) zero_stack ["fsck"; "vsfs.img"] =
  main (only_file dirty_data_image) zero_stack ["fsck"; "vsfs.img"].
Proof.
  split.
  - vm_compute. discriminate.
  - refine (data_region_never_read (only_file clean_image)
                                   (only_file dirty_data_image)
                                   zero_stack ["fsck"; "vsfs.img"] _).
    intros path. exact dirty_data_image_prefix.
Defined.

(** * Scenarios of the specification, run on the embedding *)

(** Scenario A: a wrong magic number gives exactly one line about it, and
    every later phase still runs. *)
Example scenario_bad_magic :
  map render (stdout (after_checkBadBlocks bad_magic_image zero_stack)) =
  ["ERROR: Invalid magic number in superblock.";
   "Superblock validation completed."; "Bitmaps loaded successfully.";
   "Inode checks completed."; "Inode bitmap is consistent.";
   "Bitmap consistency checks completed.";
   "No duplicate data block references found.";
   "No invalid block references found in inodes.";
   "Block reference checks completed."].
Proof. vm_compute. reflexivity. Qed.

(** Scenarios B and C: an out-of-range direct pointer is reported by pass 1
    and again by pass 5 and counts for no block; a block shared by two
    inodes is reported by pass 2 and again by pass 4. *)
Example scenario_shared_block :
  map render (stdout (after_checkBadBlocks shared_block_image zero_stack)) =
  ["Superblock validation completed."; "Bitmaps loaded successfully.";
   "ERROR: Inode 2 has invalid direct block 200.";
   "Inode checks completed."; "Inode bitmap is consistent.";
   "ERROR: Data block 10 is referenced by multiple inodes.";
   "Bitmap consistency checks completed.";
   "ERROR: Data block 10 is referenced by multiple inodes.";
   "ERROR: Inode 2 has invalid direct block 200.";
   "ERROR: Inode 2 has invalid single indirect block 99.";
   "Block reference checks completed."] /\
  blockRefCount (after_checkBadBlocks shared_block_image zero_stack)
    = <[10%nat := 2]> (replicate MAX_DATA_BLOCKS 0).
Proof. vm_compute. split; reflexivity. Qed.

(** Scenario D: a block marked used that no valid inode references gives the
    "marked used but not referenced" line and nothing else in pass 2. *)
Example scenario_unreferenced_block :
  pass2_lines unreferenced_block_image zero_stack = [ErrDataMarkedUnref 5].
Proof. vm_compute. reflexivity. Qed.

(** Scenario E: when the inode bitmap agrees with what was observed, pass 3
    prints its success line and nothing else. *)
Example scenario_consistent_inode_bitmap :
  pass3_lines clean_image zero_stack = [OkInodeBitmap].
Proof. vm_compute. reflexivity. Qed.

(** * Further properties of the code *)

(** ** The lines of each pass, in order *)

Lemma flat_map_seq_S {A} (f : nat -> list A) (n : nat) :
  flat_map f (seq 0 (S n)) = flat_map f (seq 0 n) ++ f n.
Proof. rewrite seq_S, flat_map_app. simpl. rewrite app_nil_r. reflexivity. Qed.

Lemma flat_map_ext_in {A B} (f g : A -> list B) (l : list A) :
  (forall x, In x l -> f x = g x) -> flat_map f l = flat_map g l.
Proof.
  induction l as [|x l IH]; intros H; [reflexivity|]. simpl.
  rewrite (H x) by (left; reflexivity).
  rewrite IH by (intros y Hy; apply H; right; exact Hy). reflexivity.
Qed.

Lemma dataBitmap_print_if c l s : dataBitmap (print_if c l s) = dataBitmap s.
Proof. destruct c; reflexivity. Qed.

Lemma dataBlockUsed_print_if c l s :
  dataBlockUsed (print_if c l s) = dataBlockUsed s.
Proof. destruct c; reflexivity. Qed.

Lemma blockRefCount_print_if c l s :
  blockRefCount (print_if c l s) = blockRefCount s.
Proof. destruct c; reflexivity. Qed.

Lemma inodeBitmap_print_if c l s : inodeBitmap (print_if c l s) = inodeBitmap s.
Proof. destruct c; reflexivity. Qed.

Lemma inodeUsed_print_if c l s : inodeUsed (print_if c l s) = inodeUsed s.
Proof. destruct c; reflexivity. Qed.

Lemma checkDataBitmap_body_out (s : state) (i : nat) :
  stdout (checkDataBitmap_body s i) =
  stdout s ++ pass2_report (dataBitmap s !!! i) (dataBlockUsed s !!! i)
                           (blockRefCount s !!! i) i.
Proof.
  unfold checkDataBitmap_body, pass2_report.
  rewrite !stdout_print_if, !blockRefCount_print_if, !dataBitmap_print_if,
    !dataBlockUsed_print_if, <- !app_assoc.
  reflexivity.
Qed.

Lemma checkDataBitmap_out (s : state) :
  stdout (checkDataBitmap s) =
  stdout s ++ flat_map (fun b => pass2_report (dataBitmap s !!! b)
                                              (dataBlockUsed s !!! b)
                                              (blockRefCount s !!! b) b)
                       (seq 0 MAX_DATA_BLOCKS).
Proof.
  unfold checkDataBitmap. generalize MAX_DATA_BLOCKS. intros n.
  induction n as [|n IH]; [simpl; symmetry; apply app_nil_r|].
  rewrite foldl_seq_S, flat_map_seq_S, checkDataBitmap_body_out, IH.
  destruct (checkDataBitmap_loop s n) as ((E1 & E2 & E3 & _) & _).
  cbv zeta in *. rewrite E1, E2, E3, <- app_assoc. reflexivity.
Qed.

Lemma checkInodeBitmap_body_out (s : state) (errorCount : Z) (i : nat) :
  let rep := pass3_report (inodeBitmap s !!! i) (inodeUsed s !!! i) i in
  stdout (fst (checkInodeBitmap_body (s, errorCount) i)) = stdout s ++ rep /\
  snd (checkInodeBitmap_body (s, errorCount) i) = errorCount + Z.of_nat (length rep).
Proof.
  cbv zeta. unfold checkInodeBitmap_body, pass3_report.
  destruct (inodeBitmap s !!! i) eqn:E1, (inodeUsed s !!! i) eqn:E2;
    cbn [negb andb fst snd stdout printf inodeBitmap inodeUsed app length];
    rewrite ?E1, ?E2;
    cbn [negb andb fst snd stdout printf inodeBitmap inodeUsed app length];
    rewrite ?app_nil_r; (split; [reflexivity | lia]).
Qed.

Lemma checkInodeBitmap_loop_out (s : state) (n : nat) :
  let F := flat_map (fun i => pass3_report (inodeBitmap s !!! i)
                                           (inodeUsed s !!! i) i) (seq 0 n) in
  let r := foldl checkInodeBitmap_body (s, 0) (seq 0 n) in
  stdout (fst r) = stdout s ++ F /\ snd r = Z.of_nat (length F).
Proof.
  induction n as [|n IH]; [simpl; split; [symmetry; apply app_nil_r | reflexivity]|].
  cbv zeta in *. rewrite foldl_seq_S, flat_map_seq_S.
  destruct (checkInodeBitmap_loop s n) as ((_ & _ & _ & E4 & E5) & _).
  cbv zeta in E4, E5.
  destruct (foldl checkInodeBitmap_body (s, 0) (seq 0 n)) as [r ec].
  cbn [fst snd] in *. destruct IH as [IH1 IH2].
  destruct (checkInodeBitmap_body_out r ec n) as [H1 H2]. cbv zeta in H1, H2.
  rewrite H1, H2, IH1, IH2, E4, E5, <- app_assoc, length_app.
  split; [reflexivity | lia].
Qed.

Lemma checkInodeBitmap_out (s : state) :
  stdout (checkInodeBitmap s) =
  stdout s ++ or_success OkInodeBitmap
    (flat_map (fun i => pass3_report (inodeBitmap s !!! i) (inodeUsed s !!! i) i)
              (seq 0 MAX_INODES)).
Proof.
  unfold checkInodeBitmap, or_success.
  destruct (checkInodeBitmap_loop_out s MAX_INODES) as [H1 H2].
  cbv zeta in H1, H2.
  destruct (foldl checkInodeBitmap_body (s, 0) (seq 0 MAX_INODES)) as [r ec].
  cbn [fst snd] in *. rewrite stdout_print_if, H1, H2, <- app_assoc.
  do 2 f_equal. destruct (flat_map _ _); reflexivity.
Qed.

Lemma checkDuplicateBlocks_loop_out (s : state) (n : nat) :
  let F := flat_map (fun b => pass4_report (blockRefCount s !!! b) b) (seq 0 n) in
  let r := foldl checkDuplicateBlocks_body (s, false) (seq 0 n) in
  stdout (fst r) = stdout s ++ F /\ snd r = (if F is [] then false else true).
Proof.
  induction n as [|n IH]; [simpl; split; [symmetry; apply app_nil_r | reflexivity]|].
  cbv zeta in *. rewrite foldl_seq_S, flat_map_seq_S.
  destruct (checkDuplicateBlocks_loop s n) as ((_ & _ & E3 & _) & _).
  cbv zeta in E3.
  destruct (foldl checkDuplicateBlocks_body (s, false) (seq 0 n)) as [r df].
  cbn [fst snd] in *. destruct IH as [IH1 IH2].
  unfold checkDuplicateBlocks_body, pass4_report. rewrite E3.
  destruct (1 <? blockRefCount s !!! n); cbn [fst snd stdout printf].
  - rewrite IH1, <- app_assoc. split; [reflexivity|].
    destruct (flat_map _ _); reflexivity.
  - rewrite !app_nil_r. split; [exact IH1 | exact IH2].
Qed.

Lemma checkDuplicateBlocks_out (s : state) :
  stdout (checkDuplicateBlocks s) =
  stdout s ++ or_success OkNoDuplicates
    (flat_map (fun b => pass4_report (blockRefCount s !!! b) b)
              (seq 0 MAX_DATA_BLOCKS)).
Proof.
  unfold checkDuplicateBlocks, or_success.
  destruct (checkDuplicateBlocks_loop_out s MAX_DATA_BLOCKS) as [H1 H2].
  cbv zeta in H1, H2.
  destruct (foldl checkDuplicateBlocks_body (s, false) (seq 0 MAX_DATA_BLOCKS))
    as [r df].
  cbn [fst snd] in *. rewrite stdout_print_if, H1, H2, <- app_assoc.
  do 2 f_equal. destruct (flat_map _ _); reflexivity.
Qed.

Lemma checkBadBlocks_body_out img buf0 (s : state) (badBlockFound : bool)
    (n : nat) :
  let rep := pass5_report (inodeSeen img buf0 n) n in
  let r := checkBadBlocks_body img (s, bufferAt img buf0 n, badBlockFound) n in
  stdout (fst (fst r)) = stdout s ++ rep /\
  snd r = (if rep is [] then badBlockFound else true).
Proof.
  cbv zeta. unfold checkBadBlocks_body, pass5_report.
  rewrite fetchInode_seen.
  set (inode := inodeSeen img buf0 n).
  destruct (isValid inode); cbn [negb fst snd stdout set_fpos];
    [|split; [symmetry; apply app_nil_r | reflexivity]].
  destruct (Z.of_nat MAX_DATA_BLOCKS <=? direct inode);
    destruct ((Z.of_nat MAX_DATA_BLOCKS <=? indirect inode)
              && negb (indirect inode =? 0));
    destruct ((Z.of_nat MAX_DATA_BLOCKS <=? doubleIndirect inode)
              && negb (doubleIndirect inode =? 0));
    destruct ((Z.of_nat MAX_DATA_BLOCKS <=? tripleIndirect inode)
              && negb (tripleIndirect inode =? 0));
    cbn [fst snd stdout printf set_fpos app]; rewrite <- ?app_assoc;
    rewrite ?app_nil_r; split; reflexivity.
Qed.

Lemma checkBadBlocks_loop_out img buf0 (s : state) (n : nat) :
  let F := flat_map (fun i => pass5_report (inodeSeen img buf0 i) i) (seq 0 n) in
  let r := foldl (checkBadBlocks_body img) (s, buf0, false) (seq 0 n) in
  stdout (fst (fst r)) = stdout s ++ F /\
  snd r = (if F is [] then false else true).
Proof.
  induction n as [|n IH]; [simpl; split; [symmetry; apply app_nil_r | reflexivity]|].
  cbv zeta in *. rewrite foldl_seq_S, flat_map_seq_S.
  destruct (checkBadBlocks_loop img buf0 s n) as (Hb & _). cbv zeta in Hb.
  destruct (foldl (checkBadBlocks_body img) (s, buf0, false) (seq 0 n))
    as [[r b] bad].
  cbn [fst snd] in *. subst b. destruct IH as [IH1 IH2].
  destruct (checkBadBlocks_body_out img buf0 r bad n) as [H1 H2].
  cbv zeta in H1, H2. rewrite H1, H2, IH1, IH2, <- app_assoc.
  split; [reflexivity|].
  destruct (flat_map _ _), (pass5_report _ _); reflexivity.
Qed.

Lemma checkBadBlocks_out img blockBuffer (s : state) :
  stdout (checkBadBlocks img blockBuffer s) =
  stdout s ++ or_success OkNoBadBlocks
    (flat_map (fun i => pass5_report (inodeSeen img blockBuffer i) i)
              (seq 0 MAX_INODES)).
Proof.
  unfold checkBadBlocks, or_success.
  destruct (checkBadBlocks_loop_out img blockBuffer s MAX_INODES) as [H1 H2].
  cbv zeta in H1, H2.
  destruct (foldl (checkBadBlocks_body img) (s, blockBuffer, false)
                  (seq 0 MAX_INODES)) as [[r b] bad].
  cbn [fst snd] in *. rewrite stdout_print_if, H1, H2, <- app_assoc.
  do 2 f_equal. destruct (flat_map _ _); reflexivity.
Qed.

Lemma checkInodes_body_out img buf0 (n : nat) (s : state) :
  let inode := inodeSeen img buf0 n in
  let d := Z.to_nat (direct inode) in
  let r := checkInodes_body img (s, bufferAt img buf0 n) n in
  stdout (fst r) =
    stdout s ++ pass1_report (inodeBitmap s !!! n)
                             (fun d => dataBitmap s !!! d) inode n /\
  dataBlockUsed (fst r) =
    (if isValid inode && (direct inode <? Z.of_nat MAX_DATA_BLOCKS)
     then <[d := true]> (dataBlockUsed s) else dataBlockUsed s).
Proof.
  intros inode d r. unfold r, checkInodes_body, pass1_report.
  rewrite fetchInode_seen. fold inode. cbv zeta.
  rewrite (Z.ltb_antisym (Z.of_nat MAX_DATA_BLOCKS) (direct inode)).
  destruct (isValid inode);
    [destruct (Z.of_nat MAX_DATA_BLOCKS <=? direct inode)|];
    cbn [negb andb fst snd];
    rewrite ?stdout_print_if, ?inodeBitmap_print_if;
    cbn [stdout dataBlockUsed dataBitmap inodeBitmap printf set_fpos
         set_inodeUsed set_dataBlockUsed set_blockRefCount];
    rewrite ?stdout_print_if, ?inodeBitmap_print_if, ?dataBlockUsed_print_if,
      ?dataBitmap_print_if;
    cbn [stdout dataBlockUsed dataBitmap inodeBitmap printf set_fpos
         set_inodeUsed set_dataBlockUsed set_blockRefCount];
    rewrite ?andb_true_r, ?andb_false_r, <- ?app_assoc, ?app_nil_r;
    (split; [|reflexivity]).
  - reflexivity.
  - fold d. destruct (dataBitmap s !!! d); reflexivity.
  - reflexivity.
Qed.

Lemma checkInodes_loop_out img buf0 (s : state) (n : nat) :
  let r := foldl (checkInodes_body img) (s, buf0) (seq 0 n) in
  stdout (fst r) =
    stdout s ++ flat_map (fun i => pass1_report (inodeBitmap s !!! i)
                                                (fun d => dataBitmap s !!! d)
                                                (inodeSeen img buf0 i) i)
                         (seq 0 n) /\
  (forall b : nat, (b < MAX_DATA_BLOCKS)%nat ->
     dataBlockUsed (fst r) !! b =
     (fun u => u || (0 <? Z.of_nat (length (filter (references img buf0 b)
                                                   (seq 0 n)))))
       <$> dataBlockUsed s !! b).
Proof.
  induction n as [|n IH].
  - simpl. split; [symmetry; apply app_nil_r|].
    intros b _. destruct (dataBlockUsed s !! b) as [u|]; simpl;
      [rewrite orb_false_r|]; reflexivity.
  - cbv zeta in *. rewrite foldl_seq_S, flat_map_seq_S.
    destruct (checkInodes_loop img buf0 s n) as (Hb & Hib & Hdb & _).
    cbv zeta in Hb, Hib, Hdb.
    destruct (foldl (checkInodes_body img) (s, buf0) (seq 0 n)) as [s1 b1].
    cbn [fst snd] in *. subst b1. destruct IH as [IH1 IH2].
    destruct (checkInodes_body_out img buf0 n s1) as [H1 H2].
    cbv zeta in H1, H2. split.
    + rewrite H1, IH1, Hib, Hdb, <- app_assoc. reflexivity.
    + intros b Hlt. rewrite H2, filter_seq_S.
      pose proof (le32_nonneg (bufferAt img buf0 (S n)) (inode_offset n + 40))
        as Hnn.
      change (le32 _ _) with (direct (inodeSeen img buf0 n)) in Hnn.
      destruct (isValid (inodeSeen img buf0 n)) eqn:Hv;
        [destruct (Z.ltb_spec (direct (inodeSeen img buf0 n))
                              (Z.of_nat MAX_DATA_BLOCKS)) as [Hd|Hd]|];
        cbn [andb].
      * destruct (decide (Z.to_nat (direct (inodeSeen img buf0 n)) = b))
          as [Heq|Hne].
        -- rewrite decide_True by (split; [exact Hv | lia]).
           rewrite Heq.
           destruct (decide (b < length (dataBlockUsed s1))%nat) as [Hl|Hl].
           ++ rewrite list_lookup_insert_eq by exact Hl.
              destruct (lookup_lt_is_Some_2 _ _ Hl) as [x Hx].
              rewrite (IH2 b Hlt) in Hx.
              destruct (dataBlockUsed s !! b) as [u|]; [|discriminate].
              simpl. f_equal. symmetry. apply orb_true_iff. right.
              apply Z.ltb_lt. lia.
           ++ rewrite list_insert_ge by lia.
              assert (Hn : dataBlockUsed s1 !! b = None)
                by (apply lookup_ge_None_2; lia).
              rewrite Hn. rewrite (IH2 b Hlt) in Hn.
              destruct (dataBlockUsed s !! b); [discriminate | reflexivity].
        -- rewrite list_lookup_insert_ne by exact Hne.
           rewrite decide_False by (intros [_ H2']; lia).
           rewrite (IH2 b Hlt), Nat.add_0_r. reflexivity.
      * rewrite decide_False by (intros [_ H2']; lia).
        rewrite (IH2 b Hlt), Nat.add_0_r. reflexivity.
      * rewrite decide_False by (intros [H1' _]; congruence).
        rewrite (IH2 b Hlt), Nat.add_0_r. reflexivity.
Qed.

(** ** The arrays of a run, entry by entry *)

Lemma lookup_total_fmap_seq {A} `{Inhabited A} (f : nat -> A) (n i : nat) :
  (i < n)%nat -> (f <$> seq 0 n) !!! i = f i.
Proof.
  intros Hi. apply list_lookup_total_correct.
  rewrite list_lookup_fmap.
  rewrite (proj2 (lookup_seq 0 n i i)) by (split; [reflexivity | exact Hi]).
  reflexivity.
Qed.

Lemma main_loadBitmaps_bitmaps img stk (s : state) :
  length (inodeBitmap s) = MAX_INODES ->
  length (dataBitmap s) = MAX_DATA_BLOCKS ->
  inodeBitmap (main_loadBitmaps img stk s) = inode_marked img stk <$> seq 0 MAX_INODES /\
  dataBitmap (main_loadBitmaps img stk s) = block_marked img stk <$> seq 0 MAX_DATA_BLOCKS.
Proof.
  intros H1 H2. unfold main_loadBitmaps.
  assert (D1 : drop MAX_INODES (inodeBitmap s) = [])
    by (apply drop_ge; lia).
  assert (D2 : drop MAX_DATA_BLOCKS (dataBitmap s) = [])
    by (apply drop_ge; lia).
  pose proof (loadBitmap_eq img 1 (inodeBitmap s) MAX_INODES
                (stack_rawBitmap_inode stk) (fpos s)) as L1.
  rewrite readBlock_pos_irrelevant, D1, app_nil_r in L1.
  change (Z.of_nat 1) with INODE_BITMAP_BLOCK_NO in L1.
  destruct (loadBitmap img INODE_BITMAP_BLOCK_NO _ _ _ _) as [bm1 p1].
  cbn [fst] in L1. specialize (L1 ltac:(lia)).
  cbn [dataBitmap fpos set_fpos set_inodeBitmap].
  pose proof (loadBitmap_eq img 2 (dataBitmap s) MAX_DATA_BLOCKS
                (stack_rawBitmap_data stk) p1) as L2.
  rewrite readBlock_pos_irrelevant, D2, app_nil_r in L2.
  change (Z.of_nat 2) with DATA_BITMAP_BLOCK_NO in L2.
  destruct (loadBitmap img DATA_BITMAP_BLOCK_NO _ _ _ _) as [bm2 p2].
  cbn [fst] in L2. specialize (L2 ltac:(lia)).
  cbn [inodeBitmap dataBitmap printf set_fpos set_dataBitmap set_inodeBitmap].
  split; assumption.
Qed.

Lemma after_loadBitmaps_bitmaps img stk :
  inodeBitmap (after_loadBitmaps img stk) = inode_marked img stk <$> seq 0 MAX_INODES /\
  dataBitmap (after_loadBitmaps img stk) = block_marked img stk <$> seq 0 MAX_DATA_BLOCKS.
Proof.
  unfold after_loadBitmaps. apply main_loadBitmaps_bitmaps.
  - destruct (after_readSuperblock_arrays img stk) as (_ & _ & _ & E & _).
    rewrite E. apply length_replicate.
  - destruct (after_readSuperblock_arrays img stk) as (E & _).
    rewrite E. apply length_replicate.
Qed.

Lemma after_checkInodes_bitmaps img stk :
  inodeBitmap (after_checkInodes img stk) = inode_marked img stk <$> seq 0 MAX_INODES /\
  dataBitmap (after_checkInodes img stk) = block_marked img stk <$> seq 0 MAX_DATA_BLOCKS.
Proof.
  destruct (after_loadBitmaps_bitmaps img stk) as [E1 E2].
  destruct (after_checkInodes_arrays img stk) as (F1 & _ & _ & F4 & _).
  destruct (checkInodes_spec img (stack_checkInodes stk)
                             (after_loadBitmaps img stk)) as (G1 & G2 & _).
  cbv zeta in G1, G2. rewrite F1, F4, G1, G2. split; assumption.
Qed.

Lemma inodeBitmap_entry img stk (i : nat) :
  (i < MAX_INODES)%nat ->
  inodeBitmap (after_checkInodes img stk) !!! i = inode_marked img stk i.
Proof.
  intros Hi. destruct (after_checkInodes_bitmaps img stk) as [-> _].
  apply lookup_total_fmap_seq. exact Hi.
Qed.

Lemma dataBitmap_entry img stk (b : nat) :
  (b < MAX_DATA_BLOCKS)%nat ->
  dataBitmap (after_checkInodes img stk) !!! b = block_marked img stk b.
Proof.
  intros Hb. destruct (after_checkInodes_bitmaps img stk) as [_ ->].
  apply lookup_total_fmap_seq. exact Hb.
Qed.

Lemma inodeUsed_entry img stk (i : nat) :
  (i < MAX_INODES)%nat ->
  inodeUsed (after_checkInodes img stk) !!! i = isValid (scan_inode img stk i).
Proof.
  intros Hi. apply list_lookup_total_correct.
  apply inodeUsed_after_checkInodes. exact Hi.
Qed.

Lemma blockRefCount_entry img stk (b : nat) :
  (b < MAX_DATA_BLOCKS)%nat ->
  blockRefCount (after_checkInodes img stk) !!! b = refs img stk b.
Proof.
  intros Hb. apply list_lookup_total_correct.
  apply blockRefCount_after_checkInodes. exact Hb.
Qed.

Lemma dataBlockUsed_lookup img stk (b : nat) :
  (b < MAX_DATA_BLOCKS)%nat ->
  dataBlockUsed (after_checkInodes img stk) !! b = Some (0 <? refs img stk b).
Proof.
  intros Hb.
  destruct (after_checkInodes_arrays img stk) as (_ & -> & _).
  unfold checkInodes.
  destruct (checkInodes_loop_out img (stack_checkInodes stk)
                                 (after_loadBitmaps img stk) MAX_INODES)
    as (_ & H).
  cbv zeta in H. rewrite (H b Hb).
  destruct (after_loadBitmaps_arrays img stk) as (-> & _).
  rewrite lookup_replicate_2 by exact Hb.
  unfold refs, referrers. cbn [fmap option_fmap option_map orb]. reflexivity.
Qed.

Lemma dataBlockUsed_entry img stk (b : nat) :
  (b < MAX_DATA_BLOCKS)%nat ->
  dataBlockUsed (after_checkInodes img stk) !!! b = (0 <? refs img stk b).
Proof.
  intros Hb. apply list_lookup_total_correct.
  apply dataBlockUsed_lookup. exact Hb.
Qed.

(** ** The lines of a run, pass by pass, from what the run decoded *)

Lemma pass1_report_ext (marked : bool) (dbm1 dbm2 : nat -> bool)
    (inode : Inode) (i : nat) :
  0 <= direct inode ->
  (forall d, (d < MAX_DATA_BLOCKS)%nat -> dbm1 d = dbm2 d) ->
  pass1_report marked dbm1 inode i = pass1_report marked dbm2 inode i.
Proof.
  intros Hnn H. unfold pass1_report. do 2 f_equal.
  destruct (isValid inode); [|reflexivity].
  destruct (Z.leb_spec (Z.of_nat MAX_DATA_BLOCKS) (direct inode)) as [Hd|Hd];
    [reflexivity|].
  rewrite (H (Z.to_nat (direct inode))) by lia. reflexivity.
Qed.

Lemma superblock_lines_out img stk :
  superblock_lines img stk = superblock_report (superblock_read img stk).
Proof.
  unfold superblock_lines, superblock_read. apply emitted_app.
  unfold readSuperblock, superblock_report.
  destruct (readBlock img SUPERBLOCK_BLOCK_NO _ _) as [buf pos].
  cbn [fst snd]. rewrite !stdout_print_if. cbn [stdout set_fpos].
  rewrite <- !app_assoc. reflexivity.
Qed.

Lemma pass1_lines_out img stk :
  pass1_lines img stk =
  flat_map (fun i => pass1_report (inode_marked img stk i) (block_marked img stk)
                                  (scan_inode img stk i) i)
           (seq 0 MAX_INODES).
Proof.
  unfold pass1_lines, checkInodes.
  destruct (checkInodes_loop_out img (stack_checkInodes stk)
                                 (after_loadBitmaps img stk) MAX_INODES)
    as (H & _).
  cbv zeta in H. rewrite (emitted_app _ _ _ H).
  destruct (after_loadBitmaps_bitmaps img stk) as [E1 E2].
  apply flat_map_ext_in. intros i Hi. apply in_seq in Hi.
  rewrite E1, lookup_total_fmap_seq by lia.
  apply pass1_report_ext; [apply le32_nonneg|].
  intros d Hd. rewrite E2. apply lookup_total_fmap_seq. exact Hd.
Qed.

Lemma pass2_lines_out img stk :
  pass2_lines img stk =
  flat_map (fun b => pass2_report (block_marked img stk b) (0 <? refs img stk b)
                                  (refs img stk b) b)
           (seq 0 MAX_DATA_BLOCKS).
Proof.
  unfold pass2_lines. rewrite (emitted_app _ _ _ (checkDataBitmap_out _)).
  destruct (after_checkInodeBitmap_arrays img stk) as (E1 & E2 & E3 & _).
  rewrite E1, E2, E3.
  apply flat_map_ext_in. intros b Hb. apply in_seq in Hb.
  rewrite dataBitmap_entry, dataBlockUsed_entry, blockRefCount_entry by lia.
  reflexivity.
Qed.

Lemma pass3_lines_out img stk :
  pass3_lines img stk =
  or_success OkInodeBitmap
    (flat_map (fun i => pass3_report (inode_marked img stk i)
                                     (isValid (scan_inode img stk i)) i)
              (seq 0 MAX_INODES)).
Proof.
  unfold pass3_lines, after_checkInodeBitmap.
  rewrite (emitted_app _ _ _ (checkInodeBitmap_out _)). f_equal.
  apply flat_map_ext_in. intros i Hi. apply in_seq in Hi.
  rewrite inodeBitmap_entry, inodeUsed_entry by lia. reflexivity.
Qed.

Lemma pass4_lines_out img stk :
  pass4_lines img stk =
  or_success OkNoDuplicates
    (flat_map (fun b => pass4_report (refs img stk b) b) (seq 0 MAX_DATA_BLOCKS)).
Proof.
  unfold pass4_lines, after_checkDuplicateBlocks.
  rewrite (emitted_app _ _ _ (checkDuplicateBlocks_out _)). f_equal.
  destruct (after_checkDataBitmap_arrays img stk) as (_ & _ & E3 & _).
  rewrite E3.
  apply flat_map_ext_in. intros b Hb. apply in_seq in Hb.
  rewrite blockRefCount_entry by lia. reflexivity.
Qed.

Lemma pass5_lines_out img stk :
  pass5_lines img stk =
  or_success OkNoBadBlocks
    (flat_map (fun i => pass5_report (rescan_inode img stk i) i)
              (seq 0 MAX_INODES)).
Proof.
  unfold pass5_lines. apply emitted_app. apply checkBadBlocks_out.
Qed.

(** ** Membership in the reports *)

Lemma In_flat_map_seq {A} (f : nat -> list A) (n : nat) (x : A) :
  In x (flat_map f (seq 0 n)) <-> exists i, (i < n)%nat /\ In x (f i).
Proof.
  rewrite in_flat_map. split.
  - intros (i & Hi & Hx). exists i. split; [|exact Hx].
    apply (proj1 (in_seq _ _ _)) in Hi. lia.
  - intros (i & Hi & Hx). exists i. split; [|exact Hx].
    apply (proj2 (in_seq _ _ _)). lia.
Qed.

Lemma In_or_success (ok l : line) (L : list line) :
  In l (or_success ok L) <-> In l L \/ (L = [] /\ l = ok).
Proof.
  unfold or_success. rewrite in_app_iff. destruct L as [|x L]; simpl.
  - split; [intros [[]|[H|[]]]; right; split; congruence
           | intros [[]|[_ H]]; right; left; congruence].
  - split; [intros [H|[]]; left; exact H | intros [H|[H _]]; [left; exact H | discriminate]].
Qed.

Lemma In_pass1_report (marked : bool) (dbm : nat -> bool) (inode : Inode)
    (j : nat) (l : line) :
  In l (pass1_report marked dbm inode j) <->
  (l = ErrInodeMarkedInvalid j /\ marked = true /\ isValid inode = false) \/
  (l = ErrInodeValidUnmarked j /\ marked = false /\ isValid inode = true) \/
  (l = ErrInvalidDirect j (direct inode) /\ isValid inode = true /\
   Z.of_nat MAX_DATA_BLOCKS <= direct inode) \/
  (l = ErrRefNotMarked j (direct inode) /\ isValid inode = true /\
   direct inode < Z.of_nat MAX_DATA_BLOCKS /\
   dbm (Z.to_nat (direct inode)) = false).
Proof.
  unfold pass1_report.
  destruct marked, (isValid inode);
    destruct (Z.leb_spec (Z.of_nat MAX_DATA_BLOCKS) (direct inode));
    destruct (dbm (Z.to_nat (direct inode)));
    simpl; intuition (try congruence; try lia).
Qed.

Lemma In_pass2_report (marked used : bool) (r : Z) (j : nat) (l : line) :
  In l (pass2_report marked used r j) <->
  (l = ErrDataMarkedUnref j /\ marked = true /\ used = false) \/
  (l = ErrDataUsedUnmarked j /\ marked = false /\ used = true) \/
  (l = ErrDataMultiRef j /\ 1 < r).
Proof.
  unfold pass2_report.
  destruct marked, used; destruct (Z.ltb_spec 1 r);
    simpl; intuition (try congruence; try lia).
Qed.

Lemma In_pass3_report (marked used : bool) (j : nat) (l : line) :
  In l (pass3_report marked used j) <->
  (l = ErrInodeMarkedUnused j /\ marked = true /\ used = false) \/
  (l = ErrInodeUsedUnmarked j /\ marked = false /\ used = true).
Proof.
  unfold pass3_report.
  destruct marked, used; simpl; intuition (try congruence).
Qed.

Lemma In_pass4_report (r : Z) (j : nat) (l : line) :
  In l (pass4_report r j) <-> l = ErrDataMultiRef j /\ 1 < r.
Proof.
  unfold pass4_report. destruct (Z.ltb_spec 1 r); simpl;
    intuition (try congruence; try lia).
Qed.

Lemma In_pass5_report (inode : Inode) (j : nat) (l : line) :
  In l (pass5_report inode j) <->
  isValid inode = true /\
  ((l = ErrInvalidDirect j (direct inode) /\
    Z.of_nat MAX_DATA_BLOCKS <= direct inode) \/
   (l = ErrInvalidIndirect j (indirect inode) /\
    Z.of_nat MAX_DATA_BLOCKS <= indirect inode) \/
   (l = ErrInvalidDouble j (doubleIndirect inode) /\
    Z.of_nat MAX_DATA_BLOCKS <= doubleIndirect inode) \/
   (l = ErrInvalidTriple j (tripleIndirect inode) /\
    Z.of_nat MAX_DATA_BLOCKS <= tripleIndirect inode)).
Proof.
  unfold pass5_report. rewrite MAX_DATA_BLOCKS_eq.
  destruct (isValid inode); [|simpl; intuition congruence].
  rewrite !in_app_iff.
  destruct (Z.leb_spec (Z.of_nat 56) (direct inode));
    destruct (Z.leb_spec (Z.of_nat 56) (indirect inode));
    destruct (Z.leb_spec (Z.of_nat 56) (doubleIndirect inode));
    destruct (Z.leb_spec (Z.of_nat 56) (tripleIndirect inode));
    destruct (Z.eqb_spec (indirect inode) 0);
    destruct (Z.eqb_spec (doubleIndirect inode) 0);
    destruct (Z.eqb_spec (tripleIndirect inode) 0);
    simpl; try lia; intuition (try congruence; try lia).
Qed.

(** ** What the passes report, and how their reports relate *)

Lemma In_pass1_lines img stk (l : line) :
  In l (pass1_lines img stk) <->
  exists i, (i < MAX_INODES)%nat /\
    In l (pass1_report (inode_marked img stk i) (block_marked img stk)
                       (scan_inode img stk i) i).
Proof. rewrite pass1_lines_out. apply In_flat_map_seq. Qed.

Lemma In_pass2_lines img stk (l : line) :
  In l (pass2_lines img stk) <->
  exists b, (b < MAX_DATA_BLOCKS)%nat /\
    In l (pass2_report (block_marked img stk b) (0 <? refs img stk b)
                       (refs img stk b) b).
Proof. rewrite pass2_lines_out. apply In_flat_map_seq. Qed.

Lemma refs_nonneg img stk b : 0 <= refs img stk b.
Proof. unfold refs. lia. Qed.

(** X1: what pass 1 prints about inode [i].  The two bitmap lines appear
    exactly when the inode bitmap and the validity of the decoded inode
    disagree, in the direction the line names; the invalid-direct line
    exactly for a valid inode whose direct pointer is at or above
    [MAX_DATA_BLOCKS], with that pointer; the not-marked line exactly for a
    valid inode whose direct pointer is in range and whose block is clear in
    the data bitmap.  Nothing is printed about indices from [MAX_INODES]
    on. *)
Theorem checkInodes_findings img stk (i : nat) :
  let inode := scan_inode img stk i in
  (In (ErrInodeMarkedInvalid i) (pass1_lines img stk) <->
     (i < MAX_INODES)%nat /\ inode_marked img stk i = true /\
     isValid inode = false) /\
  (In (ErrInodeValidUnmarked i) (pass1_lines img stk) <->
     (i < MAX_INODES)%nat /\ inode_marked img stk i = false /\
     isValid inode = true) /\
  (forall blk, In (ErrInvalidDirect i blk) (pass1_lines img stk) <->
     (i < MAX_INODES)%nat /\ isValid inode = true /\ blk = direct inode /\
     Z.of_nat MAX_DATA_BLOCKS <= blk) /\
  (forall blk, In (ErrRefNotMarked i blk) (pass1_lines img stk) <->
     (i < MAX_INODES)%nat /\ isValid inode = true /\ blk = direct inode /\
     blk < Z.of_nat MAX_DATA_BLOCKS /\
     block_marked img stk (Z.to_nat blk) = false).
Proof.
  intros inode.
  repeat match goal with |- _ /\ _ => split end; intros;
    rewrite In_pass1_lines;
    (split;
     [ intros (j & Hj & H); apply (proj1 (In_pass1_report _ _ _ _ _)) in H;
       destruct H as [(E & H) | [(E & H) | [(E & H) | (E & H)]]];
       try discriminate E;
       injection E as <-; subst; fold inode in H; tauto
     | intros H; exists i; split; [tauto|];
       apply (proj2 (In_pass1_report _ _ _ _ _)); fold inode;
       destruct H as (_ & H); try (destruct H as (Hv & -> & H));
       tauto ]).
Qed.

(** X2: what pass 2 prints about data block [b], in terms of the data
    bitmap and of the number of valid inodes whose direct pointer is [b]:
    "marked used but not referenced" exactly when the block is marked and
    that number is 0, "used but not marked" exactly when it is clear and the
    number is positive, "referenced by multiple inodes" exactly when the
    number exceeds 1.  The first two lines never both appear for one block,
    and the first never appears with the third. *)
Theorem checkDataBitmap_findings img stk (b : nat) :
  (In (ErrDataMarkedUnref b) (pass2_lines img stk) <->
     (b < MAX_DATA_BLOCKS)%nat /\ block_marked img stk b = true /\
     refs img stk b = 0) /\
  (In (ErrDataUsedUnmarked b) (pass2_lines img stk) <->
     (b < MAX_DATA_BLOCKS)%nat /\ block_marked img stk b = false /\
     0 < refs img stk b) /\
  (In (ErrDataMultiRef b) (pass2_lines img stk) <->
     (b < MAX_DATA_BLOCKS)%nat /\ 1 < refs img stk b) /\
  ~ (In (ErrDataMarkedUnref b) (pass2_lines img stk) /\
     In (ErrDataUsedUnmarked b) (pass2_lines img stk)) /\
  ~ (In (ErrDataMarkedUnref b) (pass2_lines img stk) /\
     In (ErrDataMultiRef b) (pass2_lines img stk)).
Proof.
  pose proof (refs_nonneg img stk b) as Hnn.
  assert (H1 : In (ErrDataMarkedUnref b) (pass2_lines img stk) <->
               (b < MAX_DATA_BLOCKS)%nat /\ block_marked img stk b = true /\
               refs img stk b = 0).
  { rewrite In_pass2_lines. split.
    - intros (j & Hj & H). apply (proj1 (In_pass2_report _ _ _ _ _)) in H.
      destruct H as [(E & H1 & H2) | [(E & _) | (E & _)]]; try discriminate E.
      injection E as <-. apply (proj1 (Z.ltb_ge _ _)) in H2.
      split; [exact Hj|]. split; [exact H1|]. lia.
    - intros (Hb & Hm & Hr). exists b. split; [exact Hb|].
      apply (proj2 (In_pass2_report _ _ _ _ _)). left.
      split; [reflexivity|]. split; [exact Hm|]. apply Z.ltb_ge. lia. }
  assert (H2 : In (ErrDataUsedUnmarked b) (pass2_lines img stk) <->
               (b < MAX_DATA_BLOCKS)%nat /\ block_marked img stk b = false /\
               0 < refs img stk b).
  { rewrite In_pass2_lines. split.
    - intros (j & Hj & H). apply (proj1 (In_pass2_report _ _ _ _ _)) in H.
      destruct H as [(E & _) | [(E & H1' & H2') | (E & _)]]; try discriminate E.
      injection E as <-. apply (proj1 (Z.ltb_lt _ _)) in H2'. tauto.
    - intros (Hb & Hm & Hr). exists b. split; [exact Hb|].
      apply (proj2 (In_pass2_report _ _ _ _ _)). right. left.
      split; [reflexivity|]. split; [exact Hm|]. apply Z.ltb_lt. exact Hr. }
  assert (H3 : In (ErrDataMultiRef b) (pass2_lines img stk) <->
               (b < MAX_DATA_BLOCKS)%nat /\ 1 < refs img stk b).
  { rewrite In_pass2_lines. split.
    - intros (j & Hj & H). apply (proj1 (In_pass2_report _ _ _ _ _)) in H.
      destruct H as [(E & _) | [(E & _) | (E & H)]]; try discriminate E.
      injection E as <-. tauto.
    - intros (Hb & Hr). exists b. split; [exact Hb|].
      apply (proj2 (In_pass2_report _ _ _ _ _)). right. right.
      split; [reflexivity | exact Hr]. }
  split; [exact H1|]. split; [exact H2|]. split; [exact H3|].
  rewrite H1, H2, H3. split; intros [A B]; destruct A as (_ & A1 & A2).
  - destruct B as (_ & B1 & _). congruence.
  - destruct B as (_ & B1). lia.
Qed.

(** X3: pass 3 repeats the bitmap findings of pass 1.  It reports inode [i]
    as "marked used but not actually used" exactly when pass 1 reported it
    as "marked used in bitmap but is invalid", and as "used but not marked"
    exactly when pass 1 reported it as "valid but not marked used"; it
    prints its success line exactly when the inode bitmap agrees with the
    validity of every decoded inode. *)
Theorem checkInodeBitmap_repeats_checkInodes img stk :
  (forall i, In (ErrInodeMarkedUnused i) (pass3_lines img stk) <->
             In (ErrInodeMarkedInvalid i) (pass1_lines img stk)) /\
  (forall i, In (ErrInodeUsedUnmarked i) (pass3_lines img stk) <->
             In (ErrInodeValidUnmarked i) (pass1_lines img stk)) /\
  (In OkInodeBitmap (pass3_lines img stk) <->
   forall i, (i < MAX_INODES)%nat ->
             inode_marked img stk i = isValid (scan_inode img stk i)).
Proof.
  assert (H3 : forall l,
             In l (flat_map (fun i => pass3_report (inode_marked img stk i)
                                        (isValid (scan_inode img stk i)) i)
                            (seq 0 MAX_INODES)) <->
             exists i, (i < MAX_INODES)%nat /\
               ((l = ErrInodeMarkedUnused i /\ inode_marked img stk i = true /\
                 isValid (scan_inode img stk i) = false) \/
                (l = ErrInodeUsedUnmarked i /\ inode_marked img stk i = false /\
                 isValid (scan_inode img stk i) = true))).
  { intros l. rewrite In_flat_map_seq. split; intros (i & Hi & H); exists i;
      (split; [exact Hi|]);
      [apply (proj1 (In_pass3_report _ _ _ _)) | apply (proj2 (In_pass3_report _ _ _ _))];
      exact H. }
  rewrite pass3_lines_out. split; [|split].
  - intros i. rewrite In_or_success, H3, In_pass1_lines. split.
    + intros [(j & Hj & [(E & H) | (E & H)]) | [_ E]]; try discriminate E.
      injection E as <-. exists i. split; [exact Hj|].
      apply (proj2 (In_pass1_report _ _ _ _ _)). left. tauto.
    + intros (j & Hj & H). apply (proj1 (In_pass1_report _ _ _ _ _)) in H.
      destruct H as [(E & H) | [(E & H) | [(E & H) | (E & H)]]];
        try discriminate E.
      injection E as <-. left. exists i. split; [exact Hj|]. left. tauto.
  - intros i. rewrite In_or_success, H3, In_pass1_lines. split.
    + intros [(j & Hj & [(E & H) | (E & H)]) | [_ E]]; try discriminate E.
      injection E as <-. exists i. split; [exact Hj|].
      apply (proj2 (In_pass1_report _ _ _ _ _)). right. left. tauto.
    + intros (j & Hj & H). apply (proj1 (In_pass1_report _ _ _ _ _)) in H.
      destruct H as [(E & H) | [(E & H) | [(E & H) | (E & H)]]];
        try discriminate E.
      injection E as <-. left. exists i. split; [exact Hj|]. right. tauto.
  - rewrite In_or_success, H3. split.
    + intros [(j & _ & [(E & _) | (E & _)]) | [Hnil _]]; try discriminate E.
      intros i Hi.
      destruct (inode_marked img stk i) eqn:Hm,
               (isValid (scan_inode img stk i)) eqn:Hv; try reflexivity;
        exfalso;
        assert (Hin : In (if inode_marked img stk i
                          then ErrInodeMarkedUnused i
                          else ErrInodeUsedUnmarked i)
                         (flat_map (fun i => pass3_report (inode_marked img stk i)
                                      (isValid (scan_inode img stk i)) i)
                                   (seq 0 MAX_INODES)))
          by (apply (proj2 (H3 _)); exists i; split; [exact Hi|];
              rewrite Hm; tauto);
        rewrite Hnil in Hin; exact Hin.
    + intros H. right. split; [|reflexivity].
      destruct (flat_map _ _) as [|l L] eqn:E; [reflexivity|]. exfalso.
      assert (Hin : In l (l :: L)) by (left; reflexivity).
      apply (proj1 (H3 l)) in Hin.
      destruct Hin as (i & Hi & [(_ & Hm & Hv) | (_ & Hm & Hv)]);
        specialize (H i Hi); congruence.
Qed.

Lemma refs_pos img stk (b : nat) :
  0 < refs img stk b <->
  exists i, (i < MAX_INODES)%nat /\ isValid (scan_inode img stk i) = true /\
            direct (scan_inode img stk i) = Z.of_nat b.
Proof.
  unfold refs, referrers, scan_inode.
  set (L := filter (references img (stack_checkInodes stk) b) (seq 0 MAX_INODES)).
  assert (HL : forall i, i ∈ L <->
                 references img (stack_checkInodes stk) b i /\ (i < MAX_INODES)%nat).
  { intros i. unfold L. rewrite list_elem_of_filter, elem_of_seq.
    split; intros [H1 H2]; (split; [exact H1 | lia]). }
  split.
  - intros Hpos. destruct L as [|i L'] eqn:E; [simpl in Hpos; lia|].
    destruct (proj1 (HL i) ltac:(left)) as [[Hv Hd] Hi].
    exists i. split; [exact Hi|]. split; assumption.
  - intros (i & Hi & Hv & Hd).
    assert (Hin : i ∈ L) by (apply (proj2 (HL i)); split; [split; assumption | exact Hi]).
    destruct L; [inversion Hin | simpl; lia].
Qed.

Lemma refs_le img stk (b : nat) : refs img stk b <= Z.of_nat MAX_INODES.
Proof.
  unfold refs, referrers.
  pose proof (length_filter (references img (stack_checkInodes stk) b)
                            (seq 0 MAX_INODES)) as H.
  rewrite length_seq in H. lia.
Qed.

Lemma after_checkBadBlocks_arrays img stk :
  same_arrays (after_checkInodes img stk) (after_checkBadBlocks img stk).
Proof.
  eapply same_arrays_trans; [apply after_checkDataBitmap_arrays|].
  unfold after_checkBadBlocks, after_checkDuplicateBlocks.
  destruct (checkDuplicateBlocks_spec (after_checkDataBitmap img stk)) as (H & _).
  destruct (checkBadBlocks_spec img (stack_checkBadBlocks stk)
              (checkDuplicateBlocks (after_checkDataBitmap img stk))) as (H' & _).
  eapply same_arrays_trans; [exact H|].
  eapply same_arrays_trans; [exact H' | apply same_arrays_printf].
Qed.

(** X4: a data block is reported "used but not marked" by pass 2 exactly
    when pass 1 reported, for some inode, that the inode references that
    block and the block is not marked in the data bitmap. *)
Theorem used_unmarked_iff_reference_unmarked img stk (b : nat) :
  In (ErrDataUsedUnmarked b) (pass2_lines img stk) <->
  exists i, In (ErrRefNotMarked i (Z.of_nat b)) (pass1_lines img stk).
Proof.
  rewrite In_pass2_lines. split.
  - intros (j & Hj & H). apply (proj1 (In_pass2_report _ _ _ _ _)) in H.
    destruct H as [(E & _) | [(E & Hm & Hu) | (E & _)]]; try discriminate E.
    injection E as <-. apply (proj1 (Z.ltb_lt _ _)) in Hu.
    apply (proj1 (refs_pos _ _ _)) in Hu. destruct Hu as (i & Hi & Hv & Hd).
    exists i. apply (proj2 (In_pass1_lines _ _ _)). exists i.
    split; [exact Hi|]. apply (proj2 (In_pass1_report _ _ _ _ _)).
    right. right. right. rewrite Hd, Nat2Z.id.
    split; [reflexivity|]. split; [exact Hv|]. split; [lia | exact Hm].
  - intros (i & H). apply (proj1 (In_pass1_lines _ _ _)) in H.
    destruct H as (j & Hj & H). apply (proj1 (In_pass1_report _ _ _ _ _)) in H.
    destruct H as [(E & _) | [(E & _) | [(E & _) | (E & Hv & Hd & Hm)]]];
      try discriminate E.
    assert (Hdir : direct (scan_inode img stk j) = Z.of_nat b)
      by (injection E; intros E2 _; symmetry; exact E2).
    rewrite Hdir, Nat2Z.id in Hm. rewrite Hdir in Hd.
    assert (Hb : (b < MAX_DATA_BLOCKS)%nat) by lia.
    exists b. split; [exact Hb|]. apply (proj2 (In_pass2_report _ _ _ _ _)).
    right. left. split; [reflexivity|]. split; [exact Hm|].
    apply Z.ltb_lt. apply (proj2 (refs_pos _ _ _)). exists j.
    split; [exact Hj|]. split; [exact Hv | exact Hdir].
Qed.

(** X5: at the end of a run the two arrays of observations about data
    blocks agree: [dataBlockUsed[b]] is set exactly when [blockRefCount[b]]
    is positive, that is, when some valid inode has direct pointer [b]; and
    the count lies between 0 and [MAX_INODES], so the [int] never
    overflows. *)
Theorem dataBlockUsed_iff_blockRefCount_positive img stk (b : nat) :
  (b < MAX_DATA_BLOCKS)%nat ->
  exists c : Z,
    blockRefCount (after_checkBadBlocks img stk) !! b = Some c /\
    0 <= c <= Z.of_nat MAX_INODES /\
    dataBlockUsed (after_checkBadBlocks img stk) !! b = Some (0 <? c) /\
    (0 < c <->
     exists i, (i < MAX_INODES)%nat /\ isValid (scan_inode img stk i) = true /\
               direct (scan_inode img stk i) = Z.of_nat b).
Proof.
  intros Hb. exists (refs img stk b).
  destruct (after_checkBadBlocks_arrays img stk) as (_ & E2 & E3 & _).
  rewrite E2, E3.
  split; [apply blockRefCount_after_checkInodes; exact Hb|].
  split; [split; [apply refs_nonneg | apply refs_le]|].
  split; [apply dataBlockUsed_lookup; exact Hb | apply refs_pos].
Qed.

Lemma dataBlockUsed_iff_blockRefCount_positive_witness :
  exists c : Z,
    blockRefCount (after_checkBadBlocks shared_block_image zero_stack) !! 10%nat
      = Some c /\
    0 <= c <= Z.of_nat MAX_INODES /\
    dataBlockUsed (after_checkBadBlocks shared_block_image zero_stack) !! 10%nat
      = Some (0 <? c) /\
    (0 < c <->
     exists i, (i < MAX_INODES)%nat /\
               isValid (scan_inode shared_block_image zero_stack i) = true /\
               direct (scan_inode shared_block_image zero_stack i) = Z.of_nat 10).
Proof.
  refine (dataBlockUsed_iff_blockRefCount_positive shared_block_image
            zero_stack 10 _).
  unfold MAX_DATA_BLOCKS, TOTAL_BLOCKS, DATA_BLOCK_START. lia.
Defined.

Lemma filter_flat_map {A B} (P : B -> Prop) `{forall x, Decision (P x)}
    (f : A -> list B) (l : list A) :
  filter P (flat_map f l) = flat_map (fun x => filter P (f x)) l.
Proof.
  induction l as [|x l IH]; [reflexivity|].
  simpl. rewrite filter_app, IH. reflexivity.
Qed.

Lemma filter_multi_ref_pass2_report (marked used : bool) (r : Z) (b : nat) :
  filter (fun l => is_multi_ref l = true) (pass2_report marked used r b)
  = pass4_report r b.
Proof.
  unfold pass2_report, pass4_report.
  destruct marked, used, (1 <? r); reflexivity.
Qed.

(** X6: the findings of pass 4 are the "referenced by multiple inodes" lines
    of pass 2, the same lines in the same order; pass 4 prints them again,
    or its success line when pass 2 printed none. *)
Theorem checkDuplicateBlocks_repeats_checkDataBitmap img stk :
  pass4_lines img stk =
  or_success OkNoDuplicates
    (filter (fun l => is_multi_ref l = true) (pass2_lines img stk)).
Proof.
  rewrite pass4_lines_out, pass2_lines_out, filter_flat_map. f_equal.
  apply flat_map_ext_in. intros b _.
  symmetry. apply filter_multi_ref_pass2_report.
Qed.

Lemma flat_map_nil_iff {A B} (f : A -> list B) (l : list A) :
  flat_map f l = [] <-> forall x, In x l -> f x = [].
Proof.
  induction l as [|x l IH]; simpl.
  - split; [intros _ y [] | reflexivity].
  - split.
    + intros H y [<-|Hy]; apply app_eq_nil in H; destruct H as [H1 H2];
        [exact H1 | apply (proj1 IH H2); exact Hy].
    + intros H. rewrite (H x) by (left; reflexivity).
      apply (proj2 IH). intros y Hy. apply H. right; exact Hy.
Qed.

Lemma In_success_or_success (ok : line) (L : list line) :
  is_success ok = true -> Forall (fun l => is_error l = true) L ->
  (In ok (or_success ok L) <-> L = []).
Proof.
  intros Hok HL. rewrite In_or_success. split.
  - intros [Hin | [H _]]; [|exact H].
    apply (proj1 (List.Forall_forall _ _) HL) in Hin.
    destruct ok; discriminate.
  - intros ->. right. split; reflexivity.
Qed.

Lemma pass4_report_errors r b :
  Forall (fun l => is_error l = true) (pass4_report r b).
Proof. unfold pass4_report. destruct (1 <? r); repeat constructor. Qed.

Lemma pass5_report_errors inode i :
  Forall (fun l => is_error l = true) (pass5_report inode i).
Proof.
  unfold pass5_report. destruct (isValid inode); [|constructor].
  repeat (apply Forall_app; split);
    match goal with |- Forall _ (if ?c then _ else _) => destruct c end;
    repeat constructor.
Qed.

Lemma Forall_flat_map_seq {A} (P : A -> Prop) (f : nat -> list A) (n : nat) :
  (forall i, Forall P (f i)) -> Forall P (flat_map f (seq 0 n)).
Proof.
  intros H. apply List.Forall_forall. intros x Hx.
  apply (proj1 (In_flat_map_seq _ _ _)) in Hx. destruct Hx as (i & _ & Hx).
  exact (proj1 (List.Forall_forall _ _) (H i) x Hx).
Qed.

Lemma pass4_report_nil r b : pass4_report r b = [] <-> r <= 1.
Proof.
  unfold pass4_report. destruct (Z.ltb_spec 1 r); split; intros;
    try reflexivity; try discriminate; lia.
Qed.

Lemma pass5_report_nil inode i :
  0 <= indirect inode -> 0 <= doubleIndirect inode -> 0 <= tripleIndirect inode ->
  (pass5_report inode i = [] <->
   (isValid inode = true ->
    direct inode < Z.of_nat MAX_DATA_BLOCKS /\
    indirect inode < Z.of_nat MAX_DATA_BLOCKS /\
    doubleIndirect inode < Z.of_nat MAX_DATA_BLOCKS /\
    tripleIndirect inode < Z.of_nat MAX_DATA_BLOCKS)).
Proof.
  intros H1 H2 H3. unfold pass5_report. rewrite MAX_DATA_BLOCKS_eq.
  destruct (isValid inode); [|split; [intros _ H; discriminate | reflexivity]].
  destruct (Z.leb_spec (Z.of_nat 56) (direct inode));
    destruct (Z.leb_spec (Z.of_nat 56) (indirect inode));
    destruct (Z.leb_spec (Z.of_nat 56) (doubleIndirect inode));
    destruct (Z.leb_spec (Z.of_nat 56) (tripleIndirect inode));
    destruct (Z.eqb_spec (indirect inode) 0);
    destruct (Z.eqb_spec (doubleIndirect inode) 0);
    destruct (Z.eqb_spec (tripleIndirect inode) 0);
    simpl; try lia;
    (split; [intros E; try discriminate E; intros _; lia
            | intros E; try reflexivity; specialize (E eq_refl); lia]).
Qed.

Lemma memcpy_Inode_pointers_nonneg buf off :
  0 <= direct (memcpy_Inode buf off) /\ 0 <= indirect (memcpy_Inode buf off) /\
  0 <= doubleIndirect (memcpy_Inode buf off) /\
  0 <= tripleIndirect (memcpy_Inode buf off).
Proof. repeat split; apply le32_nonneg. Qed.

(** X7: when pass 4 and pass 5 print their success lines.  Pass 4 prints
    "No duplicate data block references found." exactly when no data block
    is the direct pointer of more than one valid inode; pass 5 prints "No
    invalid block references found in inodes." exactly when every valid
    inode it decodes has its four pointers below [MAX_DATA_BLOCKS]. *)
Theorem success_line_conditions img stk :
  (In OkNoDuplicates (pass4_lines img stk) <->
   forall b, (b < MAX_DATA_BLOCKS)%nat -> refs img stk b <= 1) /\
  (In OkNoBadBlocks (pass5_lines img stk) <->
   forall i, (i < MAX_INODES)%nat ->
     isValid (rescan_inode img stk i) = true ->
     direct (rescan_inode img stk i) < Z.of_nat MAX_DATA_BLOCKS /\
     indirect (rescan_inode img stk i) < Z.of_nat MAX_DATA_BLOCKS /\
     doubleIndirect (rescan_inode img stk i) < Z.of_nat MAX_DATA_BLOCKS /\
     tripleIndirect (rescan_inode img stk i) < Z.of_nat MAX_DATA_BLOCKS).
Proof.
  split.
  - rewrite pass4_lines_out.
    rewrite In_success_or_success;
      [|reflexivity | apply Forall_flat_map_seq; intros; apply pass4_report_errors].
    rewrite flat_map_nil_iff. split.
    + intros H b Hb. apply (proj1 (pass4_report_nil _ b)). apply H.
      apply (proj2 (in_seq _ _ _)). lia.
    + intros H b Hb. apply (proj2 (pass4_report_nil _ b)). apply H.
      apply (proj1 (in_seq _ _ _)) in Hb. lia.
  - rewrite pass5_lines_out.
    rewrite In_success_or_success;
      [|reflexivity | apply Forall_flat_map_seq; intros; apply pass5_report_errors].
    rewrite flat_map_nil_iff. split.
    + intros H i Hi.
      destruct (memcpy_Inode_pointers_nonneg
                  (bufferAt img (stack_checkBadBlocks stk) (S i))
                  (inode_offset i)) as (_ & N1 & N2 & N3).
      apply (proj1 (pass5_report_nil (rescan_inode img stk i) i N1 N2 N3)).
      apply H. apply (proj2 (in_seq _ _ _)). lia.
    + intros H i Hi.
      destruct (memcpy_Inode_pointers_nonneg
                  (bufferAt img (stack_checkBadBlocks stk) (S i))
                  (inode_offset i)) as (_ & N1 & N2 & N3).
      apply (proj2 (pass5_report_nil (rescan_inode img stk i) i N1 N2 N3)).
      apply H. apply (proj1 (in_seq _ _ _)) in Hi. lia.
Qed.

(** ** Where the decoded values come from *)

Lemma readBlock_lookup img (b : nat) buffer pos (k : nat) :
  (k < BLOCK_SIZE)%nat ->
  fst (readBlock img (Z.of_nat b) buffer pos) !! k =
  if decide (b * BLOCK_SIZE + k < length img)%nat
  then img !! (b * BLOCK_SIZE + k)%nat
  else buffer !! k.
Proof.
  intros Hk. rewrite readBlock_nonneg. cbv zeta. unfold fst.
  set (got := take BLOCK_SIZE (drop (b * BLOCK_SIZE) img)).
  assert (Hlen : length got = Nat.min BLOCK_SIZE (length img - b * BLOCK_SIZE))
    by (unfold got; rewrite length_take, length_drop; reflexivity).
  destruct (decide (b * BLOCK_SIZE + k < length img)%nat) as [Hin|Hout].
  - rewrite lookup_app_l by lia. unfold got.
    rewrite lookup_take. destruct (decide (k < BLOCK_SIZE)%nat); [|lia].
    apply lookup_drop.
  - rewrite lookup_app_r by lia. rewrite lookup_drop. f_equal. lia.
Qed.

Lemma bitmap_bit_testbit (rawBitmap : list byte) (i : nat) :
  bitmap_bit rawBitmap i =
  Z.testbit (at_ rawBitmap (i / 8)) (Z.of_nat (i mod 8)).
Proof.
  unfold bitmap_bit.
  set (x := at_ rawBitmap (i / 8)). set (k := Z.of_nat (i mod 8)).
  assert (Hk : 0 <= k) by (unfold k; lia).
  replace (Z.testbit x k) with (Z.testbit (Z.shiftr x k) 0)
    by (rewrite Z.shiftr_spec by lia; f_equal; lia).
  change 1 with (Z.ones 1) at 1. rewrite Z.land_ones by lia.
  change (2 ^ 1) with 2. rewrite <- Z.bit0_mod.
  destruct (Z.testbit (Z.shiftr x k) 0); reflexivity.
Qed.

Lemma bitmap_bit_ext (raw1 raw2 : list byte) (k1 k2 i : nat) :
  raw1 !! (k1 + i / 8)%nat = raw2 !! (k2 + i / 8)%nat ->
  Z.testbit (at_ raw1 (k1 + i / 8)) (Z.of_nat (i mod 8)) =
  Z.testbit (at_ raw2 (k2 + i / 8)) (Z.of_nat (i mod 8)).
Proof. intros H. rewrite (at_ext raw1 raw2 _ _ H). reflexivity. Qed.

Lemma inode_marked_source img stk (i : nat) :
  (i < MAX_INODES)%nat ->
  inode_marked img stk i =
  Z.testbit
    (byte_val (if decide (BLOCK_SIZE + i / 8 < length img)%nat
               then img !!! (BLOCK_SIZE + i / 8)%nat
               else stack_rawBitmap_inode stk !!! (i / 8)%nat))
    (Z.of_nat (i mod 8)).
Proof.
  intros Hi. unfold inode_marked. rewrite bitmap_bit_testbit.
  assert (Hk : (i / 8 < BLOCK_SIZE)%nat).
  { apply Nat.Div0.div_lt_upper_bound. unfold MAX_INODES, INODES_PER_BLOCK,
      INODE_TABLE_BLOCKS in Hi.
    change (BLOCK_SIZE / INODE_SIZE)%nat with 16%nat in Hi.
    unfold BLOCK_SIZE. lia. }
  pose proof (readBlock_lookup img 1 (stack_rawBitmap_inode stk) 0 (i / 8) Hk)
    as H.
  rewrite Nat.mul_1_l in H.
  unfold at_, inodeBitmap_raw. rewrite list_lookup_total_alt.
  change INODE_BITMAP_BLOCK_NO with (Z.of_nat 1). rewrite H.
  destruct (decide _); rewrite list_lookup_total_alt; reflexivity.
Qed.

Lemma block_marked_source img stk (b : nat) :
  (b < MAX_DATA_BLOCKS)%nat ->
  block_marked img stk b =
  Z.testbit
    (byte_val (if decide (2 * BLOCK_SIZE + b / 8 < length img)%nat
               then img !!! (2 * BLOCK_SIZE + b / 8)%nat
               else stack_rawBitmap_data stk !!! (b / 8)%nat))
    (Z.of_nat (b mod 8)).
Proof.
  intros Hb. unfold block_marked. rewrite bitmap_bit_testbit.
  assert (Hk : (b / 8 < BLOCK_SIZE)%nat).
  { apply Nat.Div0.div_lt_upper_bound.
    unfold MAX_DATA_BLOCKS, TOTAL_BLOCKS, DATA_BLOCK_START in Hb.
    unfold BLOCK_SIZE. lia. }
  pose proof (readBlock_lookup img 2 (stack_rawBitmap_data stk) 0 (b / 8) Hk)
    as H.
  unfold at_, dataBitmap_raw. rewrite list_lookup_total_alt.
  change DATA_BITMAP_BLOCK_NO with (Z.of_nat 2). rewrite H.
  destruct (decide _); rewrite list_lookup_total_alt; reflexivity.
Qed.

(** X9: the bitmaps a run works with.  For [i] below [MAX_INODES], entry
    [i] of [inodeBitmap] is bit [i mod 8] of byte [i div 8] of block 1 of
    the image, and for [b] below [MAX_DATA_BLOCKS] entry [b] of
    [dataBitmap] is bit [b mod 8] of byte [b div 8] of block 2; a byte the
    file is too short to hold is taken from what the local buffer
    [rawBitmap] held.  The bitmaps are loaded once and no pass changes
    them. *)
Theorem loaded_bitmaps_are_image_bits img stk :
  (forall i, (i < MAX_INODES)%nat ->
     inodeBitmap (after_checkBadBlocks img stk) !! i =
     Some (Z.testbit
             (byte_val (if decide (BLOCK_SIZE + i / 8 < length img)%nat
                        then img !!! (BLOCK_SIZE + i / 8)%nat
                        else stack_rawBitmap_inode stk !!! (i / 8)%nat))
             (Z.of_nat (i mod 8)))) /\
  (forall b, (b < MAX_DATA_BLOCKS)%nat ->
     dataBitmap (after_checkBadBlocks img stk) !! b =
     Some (Z.testbit
             (byte_val (if decide (2 * BLOCK_SIZE + b / 8 < length img)%nat
                        then img !!! (2 * BLOCK_SIZE + b / 8)%nat
                        else stack_rawBitmap_data stk !!! (b / 8)%nat))
             (Z.of_nat (b mod 8)))) /\
  inodeBitmap (after_checkBadBlocks img stk)
    = inodeBitmap (after_loadBitmaps img stk) /\
  dataBitmap (after_checkBadBlocks img stk)
    = dataBitmap (after_loadBitmaps img stk) /\
  length (inodeBitmap (after_checkBadBlocks img stk)) = MAX_INODES /\
  length (dataBitmap (after_checkBadBlocks img stk)) = MAX_DATA_BLOCKS.
Proof.
  destruct (after_checkBadBlocks_arrays img stk) as (E1 & _ & _ & E4 & _).
  destruct (after_checkInodes_bitmaps img stk) as [F1 F2].
  destruct (after_loadBitmaps_bitmaps img stk) as [G1 G2].
  rewrite E1, E4, F1, F2, G1, G2.
  split; [|split; [|split; [reflexivity|split; [reflexivity|split]]]].
  - intros i Hi. rewrite list_lookup_fmap.
    rewrite (proj2 (lookup_seq 0 _ i i)) by (split; [reflexivity | exact Hi]).
    simpl. f_equal. apply inode_marked_source. exact Hi.
  - intros b Hb. rewrite list_lookup_fmap.
    rewrite (proj2 (lookup_seq 0 _ b b)) by (split; [reflexivity | exact Hb]).
    simpl. f_equal. apply block_marked_source. exact Hb.
  - rewrite length_fmap, length_seq. reflexivity.
  - rewrite length_fmap, length_seq. reflexivity.
Qed.

Lemma inode_slot_split (i : nat) :
  ((i * INODE_SIZE) / BLOCK_SIZE * BLOCK_SIZE + inode_offset i
   = i * INODE_SIZE)%nat /\
  (inode_offset i + INODE_SIZE <= BLOCK_SIZE)%nat.
Proof.
  split.
  - unfold inode_offset.
    pose proof (Nat.div_mod_eq (i * INODE_SIZE) BLOCK_SIZE). lia.
  - unfold inode_offset. change BLOCK_SIZE with (16 * INODE_SIZE)%nat.
    rewrite Nat.Div0.mul_mod_distr_r.
    pose proof (Nat.mod_upper_bound i 16). unfold INODE_SIZE. lia.
Qed.

Lemma inodeSeen_in_file img blockBuffer (i : nat) :
  (INODE_TABLE_START_BLOCK * BLOCK_SIZE + (i + 1) * INODE_SIZE
   <= length img)%nat ->
  inodeSeen img blockBuffer i = inodeAt img i.
Proof.
  intros Hlen. unfold inodeSeen, inodeAt. rewrite bufferAt_S.
  destruct (inode_slot_split i) as [Hsplit Hoff].
  apply memcpy_Inode_ext. intros k Hk. unfold inode_blockNum.
  rewrite readBlock_lookup by lia.
  rewrite decide_True by lia.
  rewrite lookup_drop. f_equal. lia.
Qed.

Lemma bufferAt_no_table img blockBuffer (n : nat) :
  (length img <= INODE_TABLE_START_BLOCK * BLOCK_SIZE)%nat ->
  bufferAt img blockBuffer n = blockBuffer.
Proof.
  intros Hlen. induction n as [|n IH]; [reflexivity|].
  rewrite bufferAt_S, IH. unfold inode_blockNum. rewrite readBlock_nonneg.
  cbv zeta. unfold fst. rewrite drop_ge by lia. reflexivity.
Qed.

(** X10: where an inode loop takes inode [i] from.  When the 256 bytes of
    slot [i] of the inode table lie within the file, both loops decode that
    record, whatever their local buffer held.  When the file ends at or
    before the start of the inode table, no read delivers anything and both
    loops decode every inode from what their local buffer [blockBuffer]
    held on entry. *)
Theorem decoded_inode_source img stk (i : nat) :
  (i < MAX_INODES)%nat ->
  ((INODE_TABLE_START_BLOCK * BLOCK_SIZE + (i + 1) * INODE_SIZE
    <= length img)%nat ->
   scan_inode img stk i = inodeAt img i /\
   rescan_inode img stk i = inodeAt img i) /\
  ((length img <= INODE_TABLE_START_BLOCK * BLOCK_SIZE)%nat ->
   scan_inode img stk i = memcpy_Inode (stack_checkInodes stk) (inode_offset i) /\
   rescan_inode img stk i
     = memcpy_Inode (stack_checkBadBlocks stk) (inode_offset i)).
Proof.
  intros Hi. split; intros Hlen; unfold scan_inode, rescan_inode.
  - split; apply inodeSeen_in_file; exact Hlen.
  - unfold inodeSeen. rewrite !bufferAt_no_table by exact Hlen.
    split; reflexivity.
Qed.

(** Inode 2 of [shared_block_image] has direct pointer 200 in both loops. *)
Lemma decoded_inode_source_witness :
  direct (scan_inode shared_block_image zero_stack 2) = 200 /\
  direct (rescan_inode shared_block_image zero_stack 2) = 200.
Proof.
  destruct (decoded_inode_source shared_block_image zero_stack 2) as [H _].
  - unfold MAX_INODES, INODES_PER_BLOCK, INODE_TABLE_BLOCKS.
    change (BLOCK_SIZE / INODE_SIZE)%nat with 16%nat. lia.
  - destruct H as [H1 H2].
    + unfold shared_block_image. rewrite length_image.
      * unfold INODE_TABLE_START_BLOCK, TOTAL_BLOCKS, INODE_SIZE, BLOCK_SIZE.
        lia.
      * unfold good_superblock, BLOCK_SIZE. cbn [length]. lia.
      * unfold BLOCK_SIZE. cbn [length]. lia.
      * unfold BLOCK_SIZE. cbn [length]. lia.
      * unfold inode_record, zeros. rewrite !length_app, !length_replicate.
        cbn [length]. unfold INODE_TABLE_BLOCKS, BLOCK_SIZE. lia.
    + rewrite H1, H2. split; vm_compute; reflexivity.
Defined.

(** X11: the block reader on a block the file holds in full, and on a
    block past the end of the file.  For a block number whose byte offset
    fits in an [int] and a buffer of [BLOCK_SIZE] bytes, a block that lies
    within the file is returned exactly, byte for byte, with the stream left
    at the end of the block, whatever the buffer held and wherever the
    stream was; for a block that starts at or after the end of the file the
    buffer comes back unchanged. *)
Theorem readBlock_whole_block_or_nothing img (b : nat) buffer pos :
  offset_fits_int (Z.of_nat b) ->
  length buffer = BLOCK_SIZE ->
  (((b + 1) * BLOCK_SIZE <= length img)%nat ->
   readBlock img (Z.of_nat b) buffer pos =
   (take BLOCK_SIZE (drop (b * BLOCK_SIZE) img), ((b + 1) * BLOCK_SIZE)%nat)) /\
  ((length img <= b * BLOCK_SIZE)%nat ->
   readBlock img (Z.of_nat b) buffer pos = (buffer, (b * BLOCK_SIZE)%nat)).
Proof.
  intros _ Hbuf. split; intros Hlen; rewrite readBlock_nonneg; cbv zeta.
  - assert (Hgot : length (take BLOCK_SIZE (drop (b * BLOCK_SIZE) img))
                   = BLOCK_SIZE)
      by (rewrite length_take, length_drop; lia).
    rewrite Hgot, (drop_ge buffer), app_nil_r by lia. f_equal. lia.
  - rewrite drop_ge by lia. rewrite take_nil. simpl. rewrite drop_0.
    f_equal. lia.
Qed.

(** Block 0 of [clean_image] read into a buffer of 0xFF bytes with the
    stream at 7, and block 64, the first past the end of that image. *)
Lemma readBlock_whole_block_or_nothing_witness :
  take 4 (fst (readBlock clean_image (Z.of_nat 0) (replicate BLOCK_SIZE xff) 7))
    = [x4d; xd3; x00; x10] /\
  snd (readBlock clean_image (Z.of_nat 0) (replicate BLOCK_SIZE xff) 7)
    = BLOCK_SIZE /\
  readBlock clean_image (Z.of_nat TOTAL_BLOCKS) (replicate BLOCK_SIZE xff) 7
    = (replicate BLOCK_SIZE xff, (TOTAL_BLOCKS * BLOCK_SIZE)%nat).
Proof.
  assert (Hlen : length clean_image = (TOTAL_BLOCKS * BLOCK_SIZE)%nat).
  { unfold clean_image. apply length_image.
    - unfold good_superblock, BLOCK_SIZE. cbn [length]. lia.
    - unfold BLOCK_SIZE. cbn [length]. lia.
    - unfold BLOCK_SIZE. cbn [length]. lia.
    - cbn [length]. lia. }
  destruct (readBlock_whole_block_or_nothing clean_image 0
              (replicate BLOCK_SIZE xff) 7) as [H _].
  - unfold offset_fits_int, INT_MIN, INT_MAX, BLOCK_SIZE. lia.
  - apply length_replicate.
  - destruct (readBlock_whole_block_or_nothing clean_image TOTAL_BLOCKS
                (replicate BLOCK_SIZE xff) 7) as [_ H'].
    + unfold offset_fits_int, INT_MIN, INT_MAX, TOTAL_BLOCKS, BLOCK_SIZE. lia.
    + apply length_replicate.
    + rewrite H by (rewrite Hlen; unfold TOTAL_BLOCKS; lia).
      split; [vm_compute; reflexivity|]. split; [reflexivity|].
      apply H'. rewrite Hlen. lia.
Defined.

(** ** What the output does not depend on *)

Lemma le16_ext (buf1 buf2 : list byte) (off1 off2 : nat) :
  (forall k, (k < 2)%nat -> buf1 !! (off1 + k)%nat = buf2 !! (off2 + k)%nat) ->
  le16 buf1 off1 = le16 buf2 off2.
Proof.
  intros H. unfold le16.
  rewrite (at_ext buf1 buf2 off1 off2)
    by (rewrite <- (Nat.add_0_r off1), <- (Nat.add_0_r off2); apply H; lia).
  rewrite (at_ext buf1 buf2 (off1 + 1) (off2 + 1)) by (apply H; lia).
  reflexivity.
Qed.

Lemma Superblock_at_ext (buf1 buf2 : list byte) :
  (forall k, (k < BLOCK_SIZE)%nat -> buf1 !! k = buf2 !! k) ->
  Superblock_at buf1 = Superblock_at buf2.
Proof.
  intros H. unfold Superblock_at.
  assert (F : forall a, (a + 4 <= BLOCK_SIZE)%nat -> le32 buf1 a = le32 buf2 a).
  { intros a Ha. apply le32_ext. intros k Hk. apply H. lia. }
  assert (R : take 4058 (drop 34 buf1) = take 4058 (drop 34 buf2)).
  { apply list_eq. intros j. rewrite !lookup_take.
    destruct (decide (j < 4058)%nat) as [Hj|]; [|reflexivity].
    rewrite !lookup_drop. apply H. unfold BLOCK_SIZE. lia. }
  rewrite R.
  rewrite (le16_ext buf1 buf2 0 0)
    by (intros k Hk; apply H; unfold BLOCK_SIZE; lia).
  rewrite !F by (unfold BLOCK_SIZE; lia).
  reflexivity.
Qed.

Lemma superblock_read_eq img stk :
  superblock_read img stk =
  Superblock_at (fst (readBlock img (Z.of_nat 0) (stack_superblock stk) 0)).
Proof.
  unfold superblock_read.
  destruct (readSuperblock_spec img (stack_superblock stk) initial_state)
    as (H & _).
  cbv zeta in H. rewrite H. reflexivity.
Qed.

Section CompleteImage.

Variable img : list byte.
Hypothesis Hcomplete : (DATA_BLOCK_START * BLOCK_SIZE <= length img)%nat.

Lemma superblock_read_complete stk : superblock_read img stk = Superblock_at img.
Proof.
  rewrite superblock_read_eq. apply Superblock_at_ext. intros k Hk.
  rewrite readBlock_lookup by exact Hk.
  rewrite decide_True; [reflexivity|].
  unfold DATA_BLOCK_START in Hcomplete. lia.
Qed.

Lemma inode_marked_complete stk (i : nat) :
  (i < MAX_INODES)%nat ->
  inode_marked img stk i =
  Z.testbit (byte_val (img !!! (BLOCK_SIZE + i / 8)%nat)) (Z.of_nat (i mod 8)).
Proof.
  intros Hi. rewrite inode_marked_source by exact Hi.
  rewrite decide_True; [reflexivity|].
  assert (i / 8 < BLOCK_SIZE)%nat.
  { apply Nat.Div0.div_lt_upper_bound.
    unfold MAX_INODES, INODES_PER_BLOCK, INODE_TABLE_BLOCKS in Hi.
    change (BLOCK_SIZE / INODE_SIZE)%nat with 16%nat in Hi.
    unfold BLOCK_SIZE. lia. }
  unfold DATA_BLOCK_START in Hcomplete. lia.
Qed.

Lemma block_marked_complete stk (b : nat) :
  (b < MAX_DATA_BLOCKS)%nat ->
  block_marked img stk b =
  Z.testbit (byte_val (img !!! (2 * BLOCK_SIZE + b / 8)%nat))
            (Z.of_nat (b mod 8)).
Proof.
  intros Hb. rewrite block_marked_source by exact Hb.
  rewrite decide_True; [reflexivity|].
  assert (b / 8 < BLOCK_SIZE)%nat.
  { apply Nat.Div0.div_lt_upper_bound.
    unfold MAX_DATA_BLOCKS, TOTAL_BLOCKS, DATA_BLOCK_START in Hb.
    unfold BLOCK_SIZE. lia. }
  unfold DATA_BLOCK_START in Hcomplete. lia.
Qed.

Lemma refs_complete stk (b : nat) :
  refs img stk b = Z.of_nat (referrers_at img b).
Proof. unfold refs. rewrite referrers_complete by exact Hcomplete. reflexivity. Qed.

Lemma scan_inode_complete stk (i : nat) :
  (i < MAX_INODES)%nat -> scan_inode img stk i = inodeAt img i.
Proof. intros Hi. apply inodeSeen_complete; assumption. Qed.

Lemma rescan_inode_complete stk (i : nat) :
  (i < MAX_INODES)%nat -> rescan_inode img stk i = inodeAt img i.
Proof. intros Hi. apply inodeSeen_complete; assumption. Qed.

Lemma run_stdout_complete stk1 stk2 :
  stdout (after_checkBadBlocks img stk1) = stdout (after_checkBadBlocks img stk2).
Proof.
  rewrite !run_stdout.
  rewrite !superblock_lines_out, !pass1_lines_out, !pass2_lines_out,
    !pass3_lines_out, !pass4_lines_out, !pass5_lines_out.
  rewrite !superblock_read_complete.
  rewrite (flat_map_ext_in
             (fun i => pass1_report (inode_marked img stk1 i) (block_marked img stk1)
                                    (scan_inode img stk1 i) i)
             (fun i => pass1_report (inode_marked img stk2 i) (block_marked img stk2)
                                    (scan_inode img stk2 i) i)).
  2:{ intros i Hi. apply (proj1 (in_seq _ _ _)) in Hi.
      rewrite !inode_marked_complete, !scan_inode_complete by lia.
      apply pass1_report_ext; [apply le32_nonneg|].
      intros d Hd. rewrite !block_marked_complete by exact Hd. reflexivity. }
  rewrite (flat_map_ext_in
             (fun b => pass2_report (block_marked img stk1 b)
                         (0 <? refs img stk1 b) (refs img stk1 b) b)
             (fun b => pass2_report (block_marked img stk2 b)
                         (0 <? refs img stk2 b) (refs img stk2 b) b)).
  2:{ intros b Hb. apply (proj1 (in_seq _ _ _)) in Hb.
      rewrite !block_marked_complete, !refs_complete by lia. reflexivity. }
  rewrite (flat_map_ext_in
             (fun i => pass3_report (inode_marked img stk1 i)
                         (isValid (scan_inode img stk1 i)) i)
             (fun i => pass3_report (inode_marked img stk2 i)
                         (isValid (scan_inode img stk2 i)) i)).
  2:{ intros i Hi. apply (proj1 (in_seq _ _ _)) in Hi.
      rewrite !inode_marked_complete, !scan_inode_complete by lia.
      reflexivity. }
  rewrite (flat_map_ext_in (fun b => pass4_report (refs img stk1 b) b)
                           (fun b => pass4_report (refs img stk2 b) b)).
  2:{ intros b Hb. rewrite !refs_complete. reflexivity. }
  rewrite (flat_map_ext_in (fun i => pass5_report (rescan_inode img stk1 i) i)
                           (fun i => pass5_report (rescan_inode img stk2 i) i)).
  2:{ intros i Hi. apply (proj1 (in_seq _ _ _)) in Hi.
      rewrite !rescan_inode_complete by lia. reflexivity. }
  reflexivity.
Qed.

End CompleteImage.

(** X12: uninitialised memory plays no part on a complete image.  When the
    file that opens holds blocks 0 to 7 in full, two runs whose local
    objects have the declared sizes and hold different bytes end alike:
    the same standard output, error stream and exit code, and the same
    bytes stored past [main]'s [superblock]; every decoded value then comes
    from the file. *)
Theorem outcome_independent_of_stack (fs : string -> option (list byte))
    (stk1 stk2 : stack) (argv : list string) :
  stack_ok stk1 -> stack_ok stk2 ->
  (forall img, fs (argv !!! 1%nat) = Some img ->
               (DATA_BLOCK_START * BLOCK_SIZE <= length img)%nat) ->
  main fs stk1 argv = main fs stk2 argv.
Proof.
  intros (H1 & _) (H2 & _) H. unfold main. destruct (negb _); [reflexivity|].
  destruct (fs (argv !!! 1%nat)) as [img|]; [|reflexivity].
  rewrite (run_stdout_complete img (H img eq_refl) stk1 stk2).
  rewrite (superblock_overrun_eq img stk1 H1),
    (superblock_overrun_eq img stk2 H2).
  reflexivity.
Qed.

(** On [shared_block_image] zeroed objects and objects of 0xFF bytes give
    the same outcome; on an empty file they do not, so the hypothesis on
    the file is needed. *)
Lemma outcome_independent_of_stack_witness :
  stack_ok zero_stack /\ stack_ok ff_stack /\
  main (only_file shared_block_image) zero_stack ["fsck"; "vsfs.img"] =
  main (only_file shared_block_image) ff_stack ["fsck"; "vsfs.img"] /\
  main (only_file []) zero_stack ["fsck"; "vsfs.img"] <>
  main (only_file []) ff_stack ["fsck"; "vsfs.img"].
Proof.
  assert (Hz : stack_ok zero_stack).
  { unfold stack_ok, zero_stack, zeros.
    cbn [stack_superblock stack_rawBitmap_inode stack_rawBitmap_data
         stack_checkInodes stack_checkBadBlocks].
    rewrite !length_replicate. repeat split. }
  assert (Hf : stack_ok ff_stack).
  { unfold stack_ok, ff_stack.
    cbn [stack_superblock stack_rawBitmap_inode stack_rawBitmap_data
         stack_checkInodes stack_checkBadBlocks].
    rewrite !length_replicate. repeat split. }
  split; [exact Hz|]. split; [exact Hf|]. split.
  - refine (outcome_independent_of_stack (only_file shared_block_image)
              zero_stack ff_stack ["fsck"; "vsfs.img"] Hz Hf _).
    intros img E. injection E as <-.
    unfold shared_block_image. apply length_image_le.
    + unfold good_superblock, BLOCK_SIZE. cbn [length]. lia.
    + unfold BLOCK_SIZE. cbn [length]. lia.
    + unfold BLOCK_SIZE. cbn [length]. lia.
    + unfold inode_record, zeros. rewrite !length_app, !length_replicate.
      cbn [length]. unfold INODE_TABLE_BLOCKS, BLOCK_SIZE. lia.
    + unfold TOTAL_BLOCKS, DATA_BLOCK_START. lia.
  - intros E. apply (f_equal (fun o => length (out o))) in E.
    vm_compute in E. discriminate E.
Defined.

Section TwoSuperblocks.

Variables sb1 sb2 rest : list byte.
Hypothesis Hsb1 : length sb1 = BLOCK_SIZE.
Hypothesis Hsb2 : length sb2 = BLOCK_SIZE.

Lemma readBlock_past_superblock (b : nat) buffer pos :
  (1 <= b)%nat ->
  readBlock (sb1 ++ rest) (Z.of_nat b) buffer pos =
  readBlock (sb2 ++ rest) (Z.of_nat b) buffer pos.
Proof.
  intros Hb. rewrite !readBlock_nonneg. cbv zeta.
  rewrite !drop_app_ge by (rewrite ?Hsb1, ?Hsb2; unfold BLOCK_SIZE; lia).
  rewrite Hsb1, Hsb2. reflexivity.
Qed.

Lemma bufferAt_past_superblock blockBuffer (n : nat) :
  bufferAt (sb1 ++ rest) blockBuffer n = bufferAt (sb2 ++ rest) blockBuffer n.
Proof.
  unfold bufferAt. apply foldl_ext_in. intros buf i _.
  unfold inode_blockNum. rewrite readBlock_past_superblock; [reflexivity|].
  unfold INODE_TABLE_START_BLOCK. lia.
Qed.

Lemma inodeSeen_past_superblock blockBuffer (i : nat) :
  inodeSeen (sb1 ++ rest) blockBuffer i = inodeSeen (sb2 ++ rest) blockBuffer i.
Proof. unfold inodeSeen. rewrite bufferAt_past_superblock. reflexivity. Qed.

Lemma inode_marked_past_superblock stk (i : nat) :
  inode_marked (sb1 ++ rest) stk i = inode_marked (sb2 ++ rest) stk i.
Proof.
  unfold inode_marked, inodeBitmap_raw.
  change INODE_BITMAP_BLOCK_NO with (Z.of_nat 1).
  rewrite readBlock_past_superblock by lia. reflexivity.
Qed.

Lemma block_marked_past_superblock stk (b : nat) :
  block_marked (sb1 ++ rest) stk b = block_marked (sb2 ++ rest) stk b.
Proof.
  unfold block_marked, dataBitmap_raw.
  change DATA_BITMAP_BLOCK_NO with (Z.of_nat 2).
  rewrite readBlock_past_superblock by lia. reflexivity.
Qed.

Lemma refs_past_superblock stk (b : nat) :
  refs (sb1 ++ rest) stk b = refs (sb2 ++ rest) stk b.
Proof.
  unfold refs, referrers.
  rewrite (filter_ext_in (references (sb1 ++ rest) (stack_checkInodes stk) b)
                         (references (sb2 ++ rest) (stack_checkInodes stk) b));
    [reflexivity|].
  intros i _. unfold references.
  rewrite inodeSeen_past_superblock. reflexivity.
Qed.

Lemma pass1_past_superblock stk :
  pass1_lines (sb1 ++ rest) stk = pass1_lines (sb2 ++ rest) stk.
Proof.
  rewrite !pass1_lines_out. apply flat_map_ext_in. intros i _.
  unfold scan_inode.
  rewrite inode_marked_past_superblock, inodeSeen_past_superblock.
  apply pass1_report_ext; [apply le32_nonneg|].
  intros d _. apply block_marked_past_superblock.
Qed.

Lemma pass2_past_superblock stk :
  pass2_lines (sb1 ++ rest) stk = pass2_lines (sb2 ++ rest) stk.
Proof.
  rewrite !pass2_lines_out. apply flat_map_ext_in. intros b _.
  rewrite block_marked_past_superblock, refs_past_superblock. reflexivity.
Qed.

Lemma pass3_past_superblock stk :
  pass3_lines (sb1 ++ rest) stk = pass3_lines (sb2 ++ rest) stk.
Proof.
  rewrite !pass3_lines_out. apply (f_equal (or_success OkInodeBitmap)).
  apply flat_map_ext_in. intros i _. unfold scan_inode.
  rewrite inode_marked_past_superblock, inodeSeen_past_superblock.
  reflexivity.
Qed.

Lemma pass4_past_superblock stk :
  pass4_lines (sb1 ++ rest) stk = pass4_lines (sb2 ++ rest) stk.
Proof.
  rewrite !pass4_lines_out. apply (f_equal (or_success OkNoDuplicates)).
  apply flat_map_ext_in. intros b _.
  rewrite refs_past_superblock. reflexivity.
Qed.

Lemma pass5_past_superblock stk :
  pass5_lines (sb1 ++ rest) stk = pass5_lines (sb2 ++ rest) stk.
Proof.
  rewrite !pass5_lines_out. apply (f_equal (or_success OkNoBadBlocks)).
  apply flat_map_ext_in. intros i _. unfold rescan_inode.
  rewrite inodeSeen_past_superblock. reflexivity.
Qed.

End TwoSuperblocks.

(** X13: the superblock has no say in the later phases.  Two images whose
    first block is present in full and which differ only in the
    [sizeof_Superblock] bytes of the superblock struct are checked alike
    from the bitmaps on: every pass prints the same lines for both, so the
    two outputs differ in the lines of superblock validation only, and the
    bytes stored past [main]'s [superblock] are the same.  The passes
    locate the bitmaps and the inode table by the compiled constants, never
    by what the superblock says. *)
Theorem superblock_does_not_steer_the_passes (s1 s2 rest : list byte) stk :
  length s1 = sizeof_Superblock -> length s2 = sizeof_Superblock ->
  (BLOCK_SIZE - sizeof_Superblock <= length rest)%nat ->
  stack_ok stk ->
  pass1_lines (s1 ++ rest) stk = pass1_lines (s2 ++ rest) stk /\
  pass2_lines (s1 ++ rest) stk = pass2_lines (s2 ++ rest) stk /\
  pass3_lines (s1 ++ rest) stk = pass3_lines (s2 ++ rest) stk /\
  pass4_lines (s1 ++ rest) stk = pass4_lines (s2 ++ rest) stk /\
  pass5_lines (s1 ++ rest) stk = pass5_lines (s2 ++ rest) stk /\
  drop (length (superblock_lines (s1 ++ rest) stk))
       (stdout (after_checkBadBlocks (s1 ++ rest) stk)) =
  drop (length (superblock_lines (s2 ++ rest) stk))
       (stdout (after_checkBadBlocks (s2 ++ rest) stk)) /\
  superblock_overrun (s1 ++ rest) stk = superblock_overrun (s2 ++ rest) stk.
Proof.
  intros L1 L2 Hrest (Hstk & _).
  set (pad := (BLOCK_SIZE - sizeof_Superblock)%nat) in *.
  assert (Hsplit : forall s, s ++ rest = (s ++ take pad rest) ++ drop pad rest)
    by (intros s; rewrite <- app_assoc, take_drop; reflexivity).
  assert (H1 : length (s1 ++ take pad rest) = BLOCK_SIZE).
  { rewrite length_app, length_take, L1. unfold pad in *.
    unfold sizeof_Superblock, BLOCK_SIZE in *. lia. }
  assert (H2 : length (s2 ++ take pad rest) = BLOCK_SIZE).
  { rewrite length_app, length_take, L2. unfold pad in *.
    unfold sizeof_Superblock, BLOCK_SIZE in *. lia. }
  assert (Hov : superblock_overrun (s1 ++ rest) stk
                = superblock_overrun (s2 ++ rest) stk).
  { rewrite !superblock_overrun_eq by exact Hstk.
    rewrite (drop_app_length' s1 rest sizeof_Superblock (eq_sym L1)),
      (drop_app_length' s2 rest sizeof_Superblock (eq_sym L2)).
    reflexivity. }
  rewrite (Hsplit s1), (Hsplit s2) in *.
  pose proof (pass1_past_superblock _ _ (drop pad rest) H1 H2 stk) as E1.
  pose proof (pass2_past_superblock _ _ (drop pad rest) H1 H2 stk) as E2.
  pose proof (pass3_past_superblock _ _ (drop pad rest) H1 H2 stk) as E3.
  pose proof (pass4_past_superblock _ _ (drop pad rest) H1 H2 stk) as E4.
  pose proof (pass5_past_superblock _ _ (drop pad rest) H1 H2 stk) as E5.
  repeat (split; [assumption|]).
  split; [|exact Hov].
  rewrite !run_stdout, !drop_app_length, E1, E2, E3, E4, E5. reflexivity.
Qed.

(** A superblock struct of zero bytes in front of the rest of
    [shared_block_image] changes the lines of superblock validation and
    nothing after them. *)
Lemma superblock_does_not_steer_the_passes_witness :
  let rest := drop sizeof_Superblock shared_block_image in
  let good := take sizeof_Superblock shared_block_image in
  let blank := zeros sizeof_Superblock in
  superblock_lines (good ++ rest) zero_stack
    <> superblock_lines (blank ++ rest) zero_stack /\
  pass1_lines (good ++ rest) zero_stack
    = pass1_lines (blank ++ rest) zero_stack /\
  pass2_lines (good ++ rest) zero_stack
    = pass2_lines (blank ++ rest) zero_stack /\
  pass3_lines (good ++ rest) zero_stack
    = pass3_lines (blank ++ rest) zero_stack /\
  pass4_lines (good ++ rest) zero_stack
    = pass4_lines (blank ++ rest) zero_stack /\
  pass5_lines (good ++ rest) zero_stack
    = pass5_lines (blank ++ rest) zero_stack /\
  drop (length (superblock_lines (good ++ rest) zero_stack))
       (stdout (after_checkBadBlocks (good ++ rest) zero_stack)) =
  drop (length (superblock_lines (blank ++ rest) zero_stack))
       (stdout (after_checkBadBlocks (blank ++ rest) zero_stack)) /\
  superblock_overrun (good ++ rest) zero_stack
    = superblock_overrun (blank ++ rest) zero_stack.
Proof.
  assert (Hlen : length shared_block_image = (TOTAL_BLOCKS * BLOCK_SIZE)%nat).
  { unfold shared_block_image. apply length_image.
    - unfold good_superblock, BLOCK_SIZE. cbn [length]. lia.
    - unfold BLOCK_SIZE. cbn [length]. lia.
    - unfold BLOCK_SIZE. cbn [length]. lia.
    - unfold inode_record, zeros. rewrite !length_app, !length_replicate.
      cbn [length]. unfold INODE_TABLE_BLOCKS, BLOCK_SIZE. lia. }
  assert (Hz : stack_ok zero_stack).
  { unfold stack_ok, zero_stack, zeros.
    cbn [stack_superblock stack_rawBitmap_inode stack_rawBitmap_data
         stack_checkInodes stack_checkBadBlocks].
    rewrite !length_replicate. repeat split. }
  cbv zeta. split.
  - intros E. apply (f_equal length) in E. vm_compute in E. discriminate E.
  - refine (superblock_does_not_steer_the_passes
              (take sizeof_Superblock shared_block_image)
              (zeros sizeof_Superblock)
              (drop sizeof_Superblock shared_block_image) zero_stack _ _ _ Hz).
    + rewrite length_take, Hlen.
      unfold sizeof_Superblock, TOTAL_BLOCKS, BLOCK_SIZE. lia.
    + unfold zeros. apply length_replicate.
    + rewrite length_drop, Hlen.
      unfold sizeof_Superblock, TOTAL_BLOCKS, BLOCK_SIZE. lia.
Defined.

(** X14: an out-of-range direct pointer is reported twice.  For an inode
    whose slot lies within the file, pass 5 prints the invalid-direct-block
    line exactly when pass 1 printed it. *)
Theorem invalid_direct_reported_by_both_passes img stk (i : nat) (blk : Z) :
  (INODE_TABLE_START_BLOCK * BLOCK_SIZE + (i + 1) * INODE_SIZE
   <= length img)%nat ->
  (In (ErrInvalidDirect i blk) (pass1_lines img stk) <->
   In (ErrInvalidDirect i blk) (pass5_lines img stk)).
Proof.
  intros Hlen.
  assert (E : scan_inode img stk i = rescan_inode img stk i).
  { unfold scan_inode, rescan_inode.
    rewrite !inodeSeen_in_file by exact Hlen. reflexivity. }
  rewrite In_pass1_lines, pass5_lines_out, In_or_success, In_flat_map_seq.
  split.
  - intros (j & Hj & H). apply (proj1 (In_pass1_report _ _ _ _ _)) in H.
    destruct H as [(E' & _) | [(E' & _) | [(E' & Hv & Hd) | (E' & _)]]];
      try discriminate E'.
    assert (Hji : i = j) by (injection E'; intros; assumption).
    subst j. left. exists i. split; [exact Hj|].
    apply (proj2 (In_pass5_report _ _ _)). rewrite <- E.
    split; [exact Hv|]. left. split; [exact E' | exact Hd].
  - intros [(j & Hj & H) | [_ E']]; [|discriminate E'].
    apply (proj1 (In_pass5_report _ _ _)) in H.
    destruct H as (Hv & [(E' & Hd) | [(E' & _) | [(E' & _) | (E' & _)]]]);
      try discriminate E'.
    assert (Hji : i = j) by (injection E'; intros; assumption).
    subst j. exists i. split; [exact Hj|].
    apply (proj2 (In_pass1_report _ _ _ _ _)). rewrite E.
    right. right. left. split; [exact E'|]. split; [exact Hv | exact Hd].
Qed.

Lemma invalid_direct_reported_by_both_passes_witness :
  In (ErrInvalidDirect 2 200) (pass1_lines shared_block_image zero_stack) /\
  In (ErrInvalidDirect 2 200) (pass5_lines shared_block_image zero_stack).
Proof.
  assert (H1 : In (ErrInvalidDirect 2 200)
                  (pass1_lines shared_block_image zero_stack))
    by (vm_compute; tauto).
  split; [exact H1|].
  refine (proj1 (invalid_direct_reported_by_both_passes shared_block_image
                   zero_stack 2 200 _) H1).
  unfold shared_block_image. rewrite length_image.
  - unfold INODE_TABLE_START_BLOCK, TOTAL_BLOCKS, INODE_SIZE, BLOCK_SIZE. lia.
  - unfold good_superblock, BLOCK_SIZE. cbn [length]. lia.
  - unfold BLOCK_SIZE. cbn [length]. lia.
  - unfold BLOCK_SIZE. cbn [length]. lia.
  - unfold inode_record, zeros. rewrite !length_app, !length_replicate.
    cbn [length]. unfold INODE_TABLE_BLOCKS, BLOCK_SIZE. lia.
Defined.

(** ** Every reference is counted once *)

Lemma total_insert (l : list Z) (i : nat) (v : Z) :
  (i < length l)%nat -> total (<[i := v]> l) = total l - l !!! i + v.
Proof.
  revert i. induction l as [|x l IH]; intros i Hi; [simpl in Hi; lia|].
  destruct i as [|i]; simpl.
  - lia.
  - rewrite IH by (simpl in Hi; lia).
    change ((x :: l) !!! S i) with (l !!! i). lia.
Qed.

Lemma checkInodes_loop_total img buf0 (s : state) (n : nat) :
  length (blockRefCount s) = MAX_DATA_BLOCKS ->
  let r := foldl (checkInodes_body img) (s, buf0) (seq 0 n) in
  length (blockRefCount (fst r)) = MAX_DATA_BLOCKS /\
  total (blockRefCount (fst r)) =
  total (blockRefCount s)
  + Z.of_nat (length (filter (counted img buf0) (seq 0 n))).
Proof.
  intros Hlen. induction n as [|n IH].
  - simpl. split; [exact Hlen | lia].
  - cbv zeta in *. rewrite foldl_seq_S.
    destruct (checkInodes_loop img buf0 s n) as (Hb & _). cbv zeta in Hb.
    destruct (foldl (checkInodes_body img) (s, buf0) (seq 0 n)) as [s1 b1].
    cbn [fst snd] in *. subst b1. destruct IH as [IH1 IH2].
    destruct (checkInodes_body_spec img buf0 n s1) as (_ & _ & _ & _ & Hrc & _).
    cbv zeta in Hrc. rewrite Hrc, filter_seq_S.
    pose proof (le32_nonneg (bufferAt img buf0 (S n)) (inode_offset n + 40))
      as Hnn.
    change (le32 _ _) with (direct (inodeSeen img buf0 n)) in Hnn.
    destruct (decide (counted img buf0 n)) as [[Hv Hd]|Hn].
    + rewrite Hv, (proj2 (Z.ltb_lt _ _) Hd). cbn [andb].
      rewrite length_insert, total_insert by lia.
      split; [exact IH1 | lia].
    + assert (Hc : isValid (inodeSeen img buf0 n)
                   && (direct (inodeSeen img buf0 n)
                       <? Z.of_nat MAX_DATA_BLOCKS) = false).
      { apply andb_false_iff.
        destruct (isValid (inodeSeen img buf0 n)) eqn:Hv; [right | left; reflexivity].
        apply Z.ltb_ge. apply Z.le_ngt. intros Hd. apply Hn.
        split; [exact Hv | exact Hd]. }
      rewrite Hc. split; [exact IH1 | lia].
Qed.

(** X16: every reference is counted once.  At the end of a run
    [blockRefCount] still has [MAX_DATA_BLOCKS] entries, and their sum is
    the number of valid inodes whose direct pointer is below
    [MAX_DATA_BLOCKS]: an inode with an out-of-range pointer adds to no
    counter, and no other inode is dropped or counted twice. *)
Theorem blockRefCount_total img stk :
  length (blockRefCount (after_checkBadBlocks img stk)) = MAX_DATA_BLOCKS /\
  total (blockRefCount (after_checkBadBlocks img stk)) =
  Z.of_nat (length (filter (counted img (stack_checkInodes stk))
                           (seq 0 MAX_INODES))).
Proof.
  destruct (after_checkBadBlocks_arrays img stk) as (_ & _ & E & _).
  destruct (after_checkInodes_arrays img stk) as (_ & _ & F & _).
  rewrite E, F. unfold checkInodes.
  destruct (after_loadBitmaps_arrays img stk) as (_ & G & _).
  destruct (checkInodes_loop_total img (stack_checkInodes stk)
              (after_loadBitmaps img stk) MAX_INODES) as [H1 H2].
  { rewrite G. apply length_replicate. }
  cbv zeta in H1, H2. split; [exact H1|].
  rewrite H2, G.
  assert (Z0 : forall k, total (replicate k 0) = 0)
    by (induction k as [|k IHk]; simpl; [reflexivity | exact IHk]).
  rewrite Z0. lia.
Qed.
